(** * Defi-Rain: batch coordinator, bridge, validator registry and Merkle tree

    A shallow embedding of the JavaScript sources
    ([src/utils/merkle.js], [src/core/rollup.js], the bridge and the
    validator manager, the governance votes) and of the two Solidity
    contracts, [RollupContract] and [BridgeContract], with the properties
    of the specification stated and settled over it, followed by further
    properties of the code.

    Conventions of the embedding.
    - A JavaScript method that mutates [this] and may throw is a function
      from the object's state to an outcome and the state it leaves behind:
      a mutation made before a [throw] stays.
    - Calls run one at a time, each to its end.  [Date.now()] is the
      instant [now] of a call and the text produced by a
      [Math.random().toString(..)] expression is an argument [rnd].
    - Functions of node's [crypto] and of [ethers] are section variables,
      whose results are not inspected.  Where [ethers] refuses an
      argument the refusal is part of the embedding: [parseEther] throws
      on a malformed amount, [concat] on what is not bytes, and
      [encodeFunctionData] on a token that is not an address and on an
      amount or a root that does not fit its type.  Of a digest all that is
      used is that [digest('hex')] is text of hexadecimal digits.
    - BigInts, instants and counters are [Z].  A stake is a number, NaN,
      or undefined.  A vote weight is an integer, and of a tally only what
      is exact in floating point is stated. *)

From Stdlib Require Import ZArith List String Ascii Lia Bool Permutation.
From stdpp Require Import base option list strings gmap fin_maps pretty.

Local Open Scope string_scope.
Local Open Scope list_scope.
Local Open Scope Z_scope.

(** ** Outcomes of a call *)

Inductive Res (A : Type) : Type :=
| Ok (a : A)
| Throw (msg : string).

Arguments Ok {A} a.
Arguments Throw {A} msg.

Definition isThrow {A} (r : Res A) : bool :=
  match r with Ok _ => false | Throw _ => true end.

(** JavaScript compares strings by code units, lexicographically. *)
Definition jsStrLt (a b : string) : bool := String.ltb a b.

(** ** MerkleTree ([src/utils/merkle.js]) *)

Module Merkle.

(** The input encoding given to [hash.update]. *)
Inductive Encoding := Utf8 | Hex.

(** An element of [this.tree]: [buildTree] returns a flat array holding the
    one leaf digest for a single leaf, and an array of levels otherwise. *)
Inductive TreeEntry :=
| Digest (h : string)
| Level (l : list string).

Record ProofNode := { hash : string; position : string }.

Record MerkleTree := {
  leaves : list string;
  tree : list TreeEntry;
  root : option TreeEntry   (* [None] is JavaScript's null *)
}.

Definition entryLength (e : TreeEntry) : nat :=
  match e with
  | Digest h => String.length h
  | Level l => List.length l
  end.

Definition entryAt (e : TreeEntry) (i : nat) : string :=
  match e with
  | Digest h => match String.get i h with Some c => String c EmptyString | None => "" end
  | Level l => nth i l ""
  end.

(** The digest held in the last level of a tree of two or more leaves. *)
Definition topDigest (t : MerkleTree) : option string :=
  match root t with
  | Some (Level [h]) => Some h
  | Some (Digest h) => Some h
  | _ => None
  end.

Section WithDigest.

(** [sha256 enc data] is
    [crypto.createHash('sha256').update(data, enc).digest('hex')]. *)
Variable sha256 : Encoding -> string -> string.

Definition hashLeaf (data : string) : string := sha256 Utf8 data.

Definition hashNodes (left right : string) : string :=
  let combined := if jsStrLt left right then left +:+ right else right +:+ left in
  sha256 Hex combined.

(** The [for] loop of [buildTree]: one level from the one below. *)
Fixpoint nextLevel (currentLevel : list string) : list string :=
  match currentLevel with
  | [] => []
  | [lft] => [hashNodes lft lft]
  | lft :: rgt :: rest => hashNodes lft rgt :: nextLevel rest
  end.

(** The [while (currentLevel.length > 1)] loop; it yields the levels pushed
    after [currentLevel].  [fuel] bounds the number of iterations. *)
Fixpoint buildLoop (fuel : nat) (currentLevel : list string) : list (list string) :=
  match fuel with
  | O => []
  | S fuel' =>
      if (1 <? List.length currentLevel)%nat
      then let next := nextLevel currentLevel in next :: buildLoop fuel' next
      else []
  end.

(** [buildTree], as the constructor calls it. *)
Definition buildTree (leaves : list string) : list TreeEntry :=
  match leaves with
  | [] => []
  | [leaf] => [Digest leaf]
  | _ => map Level (leaves :: buildLoop (List.length leaves) leaves)
  end.

(** [new MerkleTree(leaves)] *)
Definition new (data : list string) : MerkleTree :=
  let leaves := map hashLeaf data in
  let tree := buildTree leaves in
  {| leaves := leaves; tree := tree; root := last tree |}.

Definition getRoot (t : MerkleTree) : option TreeEntry := root t.

(** The loop of [getProof] over the entries below the last one. *)
Fixpoint proofLoop (levels : list TreeEntry) (currentIndex : nat) : list ProofNode :=
  match levels with
  | [] => []
  | [_] => []
  | level :: rest =>
      let isLeft := Nat.even currentIndex in
      let siblingIndex := if isLeft then (currentIndex + 1)%nat else (currentIndex - 1)%nat in
      let pushed :=
        if (siblingIndex <? entryLength level)%nat
        then [{| hash := entryAt level siblingIndex;
                 position := if isLeft then "right" else "left" |}]
        else [] in
      pushed ++ proofLoop rest (currentIndex / 2)%nat
  end.

Definition getProof (t : MerkleTree) (index : Z) : Res (list ProofNode) :=
  if (index <? 0) || (index >=? Z.of_nat (List.length (leaves t)))
  then Throw "Invalid leaf index"
  else Ok (proofLoop (tree t) (Z.to_nat index)).

Definition foldProof (leaf : string) (proof : list ProofNode) : string :=
  fold_left
    (fun currentHash node =>
       if String.eqb (position node) "left"
       then hashNodes (hash node) currentHash
       else hashNodes currentHash (hash node))
    proof leaf.

(** [verifyProof]: after the comparison the arguments of [logger.debug] are
    evaluated, and [root.substring(0, 16)] is a TypeError unless [root] is a
    string. *)
Definition verifyProof (leaf : string) (proof : list ProofNode)
    (root : option TreeEntry) : Res bool :=
  let currentHash := foldProof leaf proof in
  match root with
  | Some (Digest r) => Ok (String.eqb currentHash r)
  | Some (Level _) => Throw "TypeError: root.substring is not a function"
  | None => Throw "TypeError: Cannot read properties of null (reading 'substring')"
  end.

End WithDigest.

End Merkle.

(** ** JavaScript values carried by a transaction object *)

Inductive JsValue :=
| JUndefined
| JNull
| JBool (b : bool)
| JNum (n : Z)
| JStr (s : string).

(** ToBoolean: what [!v] and [v && ..] test. *)
Definition truthy (v : JsValue) : bool :=
  match v with
  | JUndefined | JNull => false
  | JBool b => b
  | JNum n => negb (n =? 0)
  | JStr s => negb (String.eqb s "")
  end.

(** [v.length === n]: only a string has a [length] among these values
    (code units; the strings here are ASCII). *)
Definition lengthIs (v : JsValue) (n : nat) : bool :=
  match v with
  | JStr s => Nat.eqb (String.length s) n
  | _ => false
  end.

(** [o[field]] on an object: a missing property reads as undefined. *)
Definition getField (o : gmap string JsValue) (field : string) : JsValue :=
  default JUndefined (o !! field).

(** What [ethers.concat] and [ethers.keccak256] are handed. *)
Inductive BytesLike :=
| BNull
| BStr (s : string)
| BArr (l : list string)
| BBytes (b : list Byte.byte).

(** What [ethers] takes as bytes ([getBytes], which [concat], [hexlify]
    and the ABI coders go through): a Uint8Array, or a string that matches
    [/^0x([0-9a-f][0-9a-f])*$/i].  Anything else, null, an array of strings
    or hexadecimal text without the 0x in front, is refused with 'invalid
    BytesLike value'. *)
Definition isHexDigit (c : ascii) : bool :=
  let n := N_of_ascii c in
  ((48 <=? n) && (n <=? 57) || (97 <=? n) && (n <=? 102) || (65 <=? n) && (n <=? 70))%N.

Fixpoint hexPairs (s : string) : bool :=
  match s with
  | EmptyString => true
  | String a (String b rest) => isHexDigit a && isHexDigit b && hexPairs rest
  | String _ EmptyString => false
  end.

Definition isHexString (s : string) : bool :=
  match s with
  | String a (String b rest) => Ascii.eqb a "0" && Ascii.eqb b "x" && hexPairs rest
  | _ => false
  end.

Definition isBytesLike (b : BytesLike) : bool :=
  match b with
  | BBytes _ => true
  | BStr s => isHexString s
  | BArr _ => false
  | BNull => false
  end.

(** Text made of hexadecimal digits only, as [digest('hex')] returns it. *)
Fixpoint hexDigits (s : string) : bool :=
  match s with
  | EmptyString => true
  | String c rest => isHexDigit c && hexDigits rest
  end.

(** ** RollupManager ([src/core/rollup.js]) *)

Module Rollup.

Module Batch.
Record t := {
  id : string;
  transactions : list (gmap string JsValue);
  stateRoot : option string;
  merkleRoot : option Merkle.TreeEntry;
  timestamp : Z;
  status : string;
  gasUsed : Z;
  layer1TxHash : option string
}.
End Batch.

Record Contract := { address : string }.

Record Config := {
  cfg_sequencerAddress : string;
  cfg_batchSize : Z;
  cfg_batchTimeout : Z;
  cfg_maxGasPerBatch : Z
}.

(** The fields of the manager; [provider] and [merkleTree], which no call
    below reads, are left out. *)
Record RollupManager := {
  batches : gmap string Batch.t;
  pendingTransactions : list (gmap string JsValue);
  stateRoot : option string;
  batchCounter : Z;
  contract : option Contract;
  sequencerAddress : string;
  batchSize : Z;
  batchTimeout : Z;
  maxGasPerBatch : Z
}.

(** [new RollupManager()] *)
Definition new (config : Config) : RollupManager := {|
  batches := ∅;
  pendingTransactions := [];
  stateRoot := None;
  batchCounter := 0;
  contract := None;
  sequencerAddress := cfg_sequencerAddress config;
  batchSize := cfg_batchSize config;
  batchTimeout := cfg_batchTimeout config;
  maxGasPerBatch := cfg_maxGasPerBatch config
|}.

Definition ZeroHash : string :=
  "0x0000000000000000000000000000000000000000000000000000000000000000".

(** [initialize]: [setupProvider] awaits the network and may reject
    ([providerOk = false]), in which case neither [setupContract] nor
    [loadState] runs. *)
Definition initialize (providerOk : bool) (contractAddress : string)
    (st : RollupManager) : Res unit * RollupManager :=
  if providerOk then
    (Ok (), {|
      batches := batches st;
      pendingTransactions := pendingTransactions st;
      stateRoot := Some ZeroHash;
      batchCounter := batchCounter st;
      contract := Some {| address := contractAddress |};
      sequencerAddress := sequencerAddress st;
      batchSize := batchSize st;
      batchTimeout := batchTimeout st;
      maxGasPerBatch := maxGasPerBatch st |})
  else (Throw "provider: could not detect network", st).

Definition requiredFields : list string :=
  ["from"; "to"; "value"; "data"; "nonce"; "signature"].

(** [transaction.signature && transaction.signature.length === 132] *)
Definition verifySignature (transaction : gmap string JsValue) : JsValue :=
  let signature := getField transaction "signature" in
  if truthy signature then JBool (lengthIs signature 132) else signature.

Definition validateTransaction (transaction : gmap string JsValue) : bool :=
  if existsb (fun field => negb (truthy (getField transaction field))) requiredFields
  then false
  else if negb (truthy (verifySignature transaction)) then false
  else true.

Definition generateTransactionId (now : Z) (rnd : string) : string :=
  "tx_" +:+ pretty now +:+ "_" +:+ rnd.

Definition generateBatchId (st : RollupManager) (now : Z) : string :=
  "batch_" +:+ pretty (batchCounter st) +:+ "_" +:+ pretty now.

(** [{...transaction, id, timestamp: Date.now(), status: 'pending'}] *)
Definition queued (transaction : gmap string JsValue) (now : Z) (rnd : string)
    : gmap string JsValue :=
  <["status" := JStr "pending"]>
    (<["timestamp" := JNum now]>
       (<["id" := JStr (generateTransactionId now rnd)]> transaction)).

Definition setPending (q : list (gmap string JsValue)) (st : RollupManager)
    : RollupManager := {|
  batches := batches st;
  pendingTransactions := q;
  stateRoot := stateRoot st;
  batchCounter := batchCounter st;
  contract := contract st;
  sequencerAddress := sequencerAddress st;
  batchSize := batchSize st;
  batchTimeout := batchTimeout st;
  maxGasPerBatch := maxGasPerBatch st |}.

(** [this.batches.set(batchId, batch); this.batchCounter++] *)
Definition storeBatch (batch : Batch.t) (st : RollupManager) : RollupManager := {|
  batches := <[Batch.id batch := batch]> (batches st);
  pendingTransactions := pendingTransactions st;
  stateRoot := stateRoot st;
  batchCounter := batchCounter st + 1;
  contract := contract st;
  sequencerAddress := sequencerAddress st;
  batchSize := batchSize st;
  batchTimeout := batchTimeout st;
  maxGasPerBatch := maxGasPerBatch st |}.

(** A write through a batch object that [this.batches] holds under its
    id. *)
Definition writeBatch (batch : Batch.t) (st : RollupManager) : RollupManager := {|
  batches := <[Batch.id batch := batch]> (batches st);
  pendingTransactions := pendingTransactions st;
  stateRoot := stateRoot st;
  batchCounter := batchCounter st;
  contract := contract st;
  sequencerAddress := sequencerAddress st;
  batchSize := batchSize st;
  batchTimeout := batchTimeout st;
  maxGasPerBatch := maxGasPerBatch st |}.

(** [this.stateRoot = root] *)
Definition setStateRoot (root : option string) (st : RollupManager) : RollupManager := {|
  batches := batches st;
  pendingTransactions := pendingTransactions st;
  stateRoot := root;
  batchCounter := batchCounter st;
  contract := contract st;
  sequencerAddress := sequencerAddress st;
  batchSize := batchSize st;
  batchTimeout := batchTimeout st;
  maxGasPerBatch := maxGasPerBatch st |}.

(** The batch object that [createBatch] makes. *)
Definition newBatch (batchId : string) (batchTransactions : list (gmap string JsValue))
    (now : Z) : Batch.t := {|
  Batch.id := batchId;
  Batch.transactions := batchTransactions;
  Batch.stateRoot := None;
  Batch.merkleRoot := None;
  Batch.timestamp := now;
  Batch.status := "pending";
  Batch.gasUsed := 0;
  Batch.layer1TxHash := None |}.

Definition withRoots (batch : Batch.t) (mroot : option Merkle.TreeEntry)
    (sroot : option string) : Batch.t := {|
  Batch.id := Batch.id batch;
  Batch.transactions := Batch.transactions batch;
  Batch.stateRoot := sroot;
  Batch.merkleRoot := mroot;
  Batch.timestamp := Batch.timestamp batch;
  Batch.status := Batch.status batch;
  Batch.gasUsed := Batch.gasUsed batch;
  Batch.layer1TxHash := Batch.layer1TxHash batch |}.

Definition withStatus (batch : Batch.t) (s : string) (txHash : option string)
    : Batch.t := {|
  Batch.id := Batch.id batch;
  Batch.transactions := Batch.transactions batch;
  Batch.stateRoot := Batch.stateRoot batch;
  Batch.merkleRoot := Batch.merkleRoot batch;
  Batch.timestamp := Batch.timestamp batch;
  Batch.status := s;
  Batch.gasUsed := Batch.gasUsed batch;
  Batch.layer1TxHash := txHash |}.



Definition rootArg (r : option string) : BytesLike :=
  match r with None => BNull | Some s => BStr s end.

Definition entryArg (r : option Merkle.TreeEntry) : BytesLike :=
  match r with
  | None => BNull
  | Some (Merkle.Digest h) => BStr h
  | Some (Merkle.Level l) => BArr l
  end.

Section WithLibraries.

Variable sha256 : Merkle.Encoding -> string -> string.
(** [JSON.stringify] of a transaction object, and [ethers]' helpers. *)
Variable JSON_stringify : gmap string JsValue -> string.
Variable toUtf8Bytes : string -> list Byte.byte.
Variable keccak256 : BytesLike -> string.
Variable concat : list BytesLike -> string.

(** The per-transaction commitment of [calculateBatchRoots]. *)
Definition commitment (tx : gmap string JsValue) : string :=
  keccak256 (BBytes (toUtf8Bytes (JSON_stringify tx))).

(** [calculateBatchRoots] writes [batch.merkleRoot] and then hands the
    manager's root, the Merkle root and the bytes of the id to
    [ethers.concat], which throws unless each of the three is bytes; the
    [catch] rethrows.  The batch object is returned as the call leaves
    it. *)
Definition calculateBatchRoots (batch : Batch.t) (st : RollupManager)
    : Res unit * Batch.t :=
  let transactionHashes := map commitment (Batch.transactions batch) in
  let merkleTree := Merkle.new sha256 transactionHashes in
  let batch1 := withRoots batch (Merkle.getRoot merkleTree) (Batch.stateRoot batch) in
  let parts := [rootArg (stateRoot st); entryArg (Batch.merkleRoot batch1);
                BBytes (toUtf8Bytes (Batch.id batch1))] in
  if forallb isBytesLike parts
  then (Ok (), withRoots batch1 (Batch.merkleRoot batch1)
                 (Some (keccak256 (BStr (concat parts)))))
  else (Throw "invalid BytesLike value", batch1).

(** The bytes32 argument of [encodeFunctionData('submitBatch', ..)]. *)
Definition encodeStateRoot (root : option string) : Res unit :=
  match root with
  | None => Throw "invalid BytesLike value"
  | Some r =>
      if negb (isHexString r) then Throw "invalid BytesLike value"
      else if negb (String.length r =? 66)%nat then Throw "incorrect data length"
      else Ok ()
  end.

(** [submitBatchToLayer1]: [this.contract.address] is a TypeError while
    [this.contract] is null, and the call data is encoded, which throws
    unless [batch.stateRoot] is 32 bytes; the [catch] marks the batch failed
    and rethrows.  The batch object is returned as the call leaves it. *)
Definition submitBatchToLayer1 (batch : Batch.t) (rnd : string)
    (st : RollupManager) : Res unit * Batch.t * RollupManager :=
  let failed := withStatus batch "failed" (Batch.layer1TxHash batch) in
  match contract st with
  | None =>
      (Throw "TypeError: Cannot read properties of null (reading 'address')",
       failed, st)
  | Some _ =>
      match encodeStateRoot (Batch.stateRoot batch) with
      | Throw msg => (Throw msg, failed, st)
      | Ok _ =>
          (Ok (), withStatus batch "submitted" (Some ("0x" +:+ rnd)),
           setStateRoot (Batch.stateRoot batch) st)
      end
  end.

(** [createBatch].  What [calculateBatchRoots] throws leaves the function
    after the splice and before [this.batches.set]; [submitBatchToLayer1]
    writes to the object that the table then holds. *)
Definition createBatch (now : Z) (rnd : string) (st : RollupManager)
    : Res unit * RollupManager :=
  if (List.length (pendingTransactions st) =? 0)%nat then (Ok (), st)
  else
    (* splice(0, this.batchSize): the count is clamped to 0..length *)
    let deleteCount := Z.to_nat (batchSize st) in
    let batchTransactions := firstn deleteCount (pendingTransactions st) in
    let st1 := setPending (skipn deleteCount (pendingTransactions st)) st in
    let batch := newBatch (generateBatchId st1 now) batchTransactions now in
    match calculateBatchRoots batch st1 with
    | (Throw msg, _) => (Throw msg, st1)
    | (Ok _, batch1) =>
        let st2 := storeBatch batch1 st1 in
        match submitBatchToLayer1 batch1 rnd st2 with
        | (result, batch2, st3) => (result, writeBatch batch2 st3)
        end
    end.

Definition addTransaction (transaction : gmap string JsValue)
    (now : Z) (rnd rnd1 : string) (st : RollupManager) : Res unit * RollupManager :=
  if negb (validateTransaction transaction) then (Throw "Invalid transaction", st)
  else
    let st1 := setPending (pendingTransactions st ++ [queued transaction now rnd]) st in
    if Z.of_nat (List.length (pendingTransactions st1)) >=? batchSize st1
    then createBatch now rnd1 st1
    else (Ok (), st1).

(** The calls a client of the coordinator can make. *)
Inductive Op :=
| OpInitialize (providerOk : bool) (contractAddress : string)
| OpAddTransaction (transaction : gmap string JsValue) (now : Z) (rnd rnd1 : string)
| OpCreateBatch (now : Z) (rnd : string).

Definition step (op : Op) (st : RollupManager) : Res unit * RollupManager :=
  match op with
  | OpInitialize ok a => initialize ok a st
  | OpAddTransaction tx now rnd rnd1 => addTransaction tx now rnd rnd1 st
  | OpCreateBatch now rnd => createBatch now rnd st
  end.

(** The state after a sequence of calls, whatever each call returned. *)
Definition run (ops : list Op) (st : RollupManager) : RollupManager :=
  fold_left (fun s op => snd (step op s)) ops st.

End WithLibraries.

End Rollup.

(** ** CrossChainBridge (the bridge coordinator) *)

Module Bridge.

Module Deposit.
Record t := {
  id : string;
  userAddress : string;
  tokenAddress : string;
  amount : Z;
  status : string;
  timestamp : Z;
  layer1TxHash : option string;
  layer2TxHash : option string;
  proof : option string;
  options : gmap string JsValue
}.
End Deposit.

Module Withdrawal.
Record t := {
  id : string;
  userAddress : string;
  tokenAddress : string;
  amount : Z;
  status : string;
  timestamp : Z;
  unlockTime : Z;
  layer2TxHash : option string;
  layer1TxHash : option string;
  proof : option string;
  options : gmap string JsValue
}.
End Withdrawal.

(** An entry of [this.bridgeEvents]; [data] is the deposit or withdrawal
    object itself, held here by its id. *)
Record BridgeEvent := { type : string; data : string; timestamp : Z }.

Record Contract := { address : string }.

(** The fields of the bridge; [provider], which no call below reads, is
    left out. *)
Record CrossChainBridge := {
  deposits : gmap string Deposit.t;
  withdrawals : gmap string Withdrawal.t;
  bridgeEvents : list BridgeEvent;
  layer1Contract : option Contract;
  layer2Contract : option Contract;
  bridgeAddress : option string;
  minDepositAmount : Z;
  maxDepositAmount : Z;
  withdrawalDelay : Z
}.

(** [new CrossChainBridge()]: [parseEther('0.001')] and [parseEther('1000')]
    are 10^15 and 10^21 wei. *)
Definition new : CrossChainBridge := {|
  deposits := ∅;
  withdrawals := ∅;
  bridgeEvents := [];
  layer1Contract := None;
  layer2Contract := None;
  bridgeAddress := None;
  minDepositAmount := 10 ^ 15;
  maxDepositAmount := 1000 * 10 ^ 18;
  withdrawalDelay := 7 * 24 * 60 * 60
|}.

Definition ZeroAddress : string := "0x0000000000000000000000000000000000000000".

(** [tokenAddress || ethers.ZeroAddress] *)
Definition orZeroAddress (tokenAddress : option string) : string :=
  match tokenAddress with
  | Some a => if String.eqb a "" then ZeroAddress else a
  | None => ZeroAddress
  end.

Definition setDeposits (d : gmap string Deposit.t) (st : CrossChainBridge)
    : CrossChainBridge := {|
  deposits := d;
  withdrawals := withdrawals st;
  bridgeEvents := bridgeEvents st;
  layer1Contract := layer1Contract st;
  layer2Contract := layer2Contract st;
  bridgeAddress := bridgeAddress st;
  minDepositAmount := minDepositAmount st;
  maxDepositAmount := maxDepositAmount st;
  withdrawalDelay := withdrawalDelay st |}.

Definition setWithdrawals (w : gmap string Withdrawal.t) (st : CrossChainBridge)
    : CrossChainBridge := {|
  deposits := deposits st;
  withdrawals := w;
  bridgeEvents := bridgeEvents st;
  layer1Contract := layer1Contract st;
  layer2Contract := layer2Contract st;
  bridgeAddress := bridgeAddress st;
  minDepositAmount := minDepositAmount st;
  maxDepositAmount := maxDepositAmount st;
  withdrawalDelay := withdrawalDelay st |}.

(** [addBridgeEvent]: push, then keep the last 1000. *)
Definition addBridgeEvent (type : string) (data : string) (now : Z)
    (st : CrossChainBridge) : CrossChainBridge :=
  let pushed := bridgeEvents st ++ [{| type := type; data := data; timestamp := now |}] in
  let kept :=
    if (1000 <? List.length pushed)%nat
    then skipn (List.length pushed - 1000) pushed
    else pushed in
  {| deposits := deposits st;
     withdrawals := withdrawals st;
     bridgeEvents := kept;
     layer1Contract := layer1Contract st;
     layer2Contract := layer2Contract st;
     bridgeAddress := bridgeAddress st;
     minDepositAmount := minDepositAmount st;
     maxDepositAmount := maxDepositAmount st;
     withdrawalDelay := withdrawalDelay st |}.

(** [initialize]: [setupProvider] may reject; [setupContracts] then sets
    the two contract handles and the bridge address. *)
Definition initialize (providerOk : bool) (layer1Address layer2Address : string)
    (st : CrossChainBridge) : Res unit * CrossChainBridge :=
  if providerOk then
    (Ok (), {|
      deposits := deposits st;
      withdrawals := withdrawals st;
      bridgeEvents := bridgeEvents st;
      layer1Contract := Some {| address := layer1Address |};
      layer2Contract := Some {| address := layer2Address |};
      bridgeAddress := Some layer1Address;
      minDepositAmount := minDepositAmount st;
      maxDepositAmount := maxDepositAmount st;
      withdrawalDelay := withdrawalDelay st |})
  else (Throw "provider: could not detect network", st).

Definition generateDepositId (now : Z) (rnd : string) : string :=
  "deposit_" +:+ pretty now +:+ "_" +:+ rnd.

Definition generateWithdrawalId (now : Z) (rnd : string) : string :=
  "withdrawal_" +:+ pretty now +:+ "_" +:+ rnd.

(** The object both proof generators serialise. *)
Record ProofData := {
  pd_kind : string;          (* the name of the id key *)
  pd_id : string;
  pd_userAddress : string;
  pd_tokenAddress : string;
  pd_amount : string;        (* [amount.toString()] *)
  pd_timestamp : Z
}.

(** [proof && proof.length === 66] *)
Definition proofWellFormed (proof : option string) : bool :=
  match proof with
  | Some p => negb (String.eqb p "") && Nat.eqb (String.length p) 66
  | None => false
  end.

Definition verifyDepositProof (proof : option string) : bool := proofWellFormed proof.
Definition verifyWithdrawalProof (proof : option string) : bool := proofWellFormed proof.

Definition depositWith (d : Deposit.t) (s : string) (l1 l2 pf : option string)
    : Deposit.t := {|
  Deposit.id := Deposit.id d;
  Deposit.userAddress := Deposit.userAddress d;
  Deposit.tokenAddress := Deposit.tokenAddress d;
  Deposit.amount := Deposit.amount d;
  Deposit.status := s;
  Deposit.timestamp := Deposit.timestamp d;
  Deposit.layer1TxHash := l1;
  Deposit.layer2TxHash := l2;
  Deposit.proof := pf;
  Deposit.options := Deposit.options d |}.

Definition withdrawalWith (w : Withdrawal.t) (s : string) (l2 l1 pf : option string)
    : Withdrawal.t := {|
  Withdrawal.id := Withdrawal.id w;
  Withdrawal.userAddress := Withdrawal.userAddress w;
  Withdrawal.tokenAddress := Withdrawal.tokenAddress w;
  Withdrawal.amount := Withdrawal.amount w;
  Withdrawal.status := s;
  Withdrawal.timestamp := Withdrawal.timestamp w;
  Withdrawal.unlockTime := Withdrawal.unlockTime w;
  Withdrawal.layer2TxHash := l2;
  Withdrawal.layer1TxHash := l1;
  Withdrawal.proof := pf;
  Withdrawal.options := Withdrawal.options w |}.

(** What [withdraw] and [completeWithdrawal] return. *)
Record WithdrawResult := {
  wr_withdrawalId : string;
  wr_status : string;
  wr_unlockTime : Z;
  wr_estimatedTime : string
}.

Record CompleteResult := {
  cr_withdrawalId : string;
  cr_status : string;
  cr_layer1TxHash : option string
}.

Record DepositResult := {
  dr_depositId : string;
  dr_status : string;
  dr_estimatedTime : string
}.

(** [new Date(ms).toISOString()] is a RangeError outside the time range. *)
Definition validTimeValue (ms : Z) : bool := Z.abs ms <=? 8640000000000000.

(** The largest uint256. *)
Definition MAX_UINT256 : Z := 2 ^ 256 - 1.

Section WithLibraries.

(** [ethers.parseEther(amount.toString())], on the text of the amount;
    [None] when it throws. *)
Variable parseEther : string -> option Z.
(** [ethers.keccak256(ethers.toUtf8Bytes(JSON.stringify(proofData)))] *)
Variable keccak256_json : ProofData -> string.
(** [ethers.isAddress]: whether the ABI coder takes the text as an
    address. *)
Variable isAddress : string -> bool.

(** [interface.encodeFunctionData(f, [tokenAddress, amount])] for the
    parameters (address token, uint256 amount) of [deposit] and [burn]: the
    coders throw on a text that is not an address and on an amount outside
    0 .. 2^256 - 1. *)
Definition encodeTokenAmount (tokenAddress : string) (amount : Z) : Res unit :=
  if negb (isAddress tokenAddress) then Throw "invalid address"
  else if (amount <? 0) || (amount >? MAX_UINT256) then Throw "value out-of-bounds"
  else Ok ().

Definition generateDepositProof (d : Deposit.t) : string :=
  keccak256_json {|
    pd_kind := "depositId";
    pd_id := Deposit.id d;
    pd_userAddress := Deposit.userAddress d;
    pd_tokenAddress := Deposit.tokenAddress d;
    pd_amount := pretty (Deposit.amount d);
    pd_timestamp := Deposit.timestamp d |}.

Definition generateWithdrawalProof (w : Withdrawal.t) : string :=
  keccak256_json {|
    pd_kind := "withdrawalId";
    pd_id := Withdrawal.id w;
    pd_userAddress := Withdrawal.userAddress w;
    pd_tokenAddress := Withdrawal.tokenAddress w;
    pd_amount := pretty (Withdrawal.amount w);
    pd_timestamp := Withdrawal.timestamp w |}.

(** A write through a deposit object held in [this.deposits]. *)
Definition writeDeposit (d : Deposit.t) (st : CrossChainBridge) : CrossChainBridge :=
  setDeposits (<[Deposit.id d := d]> (deposits st)) st.

Definition writeWithdrawal (w : Withdrawal.t) (st : CrossChainBridge)
    : CrossChainBridge :=
  setWithdrawals (<[Withdrawal.id w := w]> (withdrawals st)) st.

(** [processDepositOnLayer2]; its [catch] marks the deposit failed.  The
    call data of [mint] is encoded from the token and the amount that
    [submitDepositToLayer1] has just encoded, and the proof. *)
Definition processDepositOnLayer2 (d : Deposit.t) (now : Z) (rnd : string)
    (st : CrossChainBridge) : Res unit * Deposit.t * CrossChainBridge :=
  let failed := depositWith d "failed" (Deposit.layer1TxHash d)
                            (Deposit.layer2TxHash d) (Deposit.proof d) in
  if negb (verifyDepositProof (Deposit.proof d))
  then (Throw "Invalid deposit proof", failed, writeDeposit failed st)
  else match layer2Contract st with
       | None =>
           (Throw "TypeError: Cannot read properties of null (reading 'interface')",
            failed, writeDeposit failed st)
       | Some _ =>
           let d' := depositWith d "completed" (Deposit.layer1TxHash d)
                                 (Some ("0x" +:+ rnd)) (Deposit.proof d) in
           (Ok (), d', addBridgeEvent "deposit_completed" (Deposit.id d') now
                         (writeDeposit d' st))
       end.

(** [submitDepositToLayer1]: [this.layer1Contract.interface] is a TypeError
    while the handle is null, and encoding the call data throws on a token
    that is not an address; its [catch] marks the deposit failed too. *)
Definition submitDepositToLayer1 (d : Deposit.t) (now : Z) (rnd1 rnd2 : string)
    (st : CrossChainBridge) : Res unit * CrossChainBridge :=
  let failed := depositWith d "failed" (Deposit.layer1TxHash d)
                            (Deposit.layer2TxHash d) (Deposit.proof d) in
  match layer1Contract st with
  | None =>
      (Throw "TypeError: Cannot read properties of null (reading 'interface')",
       writeDeposit failed st)
  | Some _ =>
      match encodeTokenAmount (Deposit.tokenAddress d) (Deposit.amount d) with
      | Throw msg => (Throw msg, writeDeposit failed st)
      | Ok _ =>
          let d1 := depositWith d "confirmed" (Some ("0x" +:+ rnd1))
                                (Deposit.layer2TxHash d) (Deposit.proof d) in
          let d2 := depositWith d1 "confirmed" (Deposit.layer1TxHash d1)
                                (Deposit.layer2TxHash d1)
                                (Some (generateDepositProof d1)) in
          match processDepositOnLayer2 d2 now rnd2 (writeDeposit d2 st) with
          | (Ok _, _, st') => (Ok (), st')
          | (Throw msg, d3, st') =>
              (Throw msg,
               writeDeposit (depositWith d3 "failed" (Deposit.layer1TxHash d3)
                                         (Deposit.layer2TxHash d3) (Deposit.proof d3)) st')
          end
      end
  end.

Definition deposit (userAddress : string) (tokenAddress : option string)
    (amount : string) (options : gmap string JsValue)
    (now : Z) (rnd rnd1 rnd2 : string) (st : CrossChainBridge)
    : Res DepositResult * CrossChainBridge :=
  match parseEther amount with
  | None => (Throw "invalid FixedNumber string value", st)
  | Some depositAmount =>
      if depositAmount <? minDepositAmount st
      then (Throw "Deposit amount too small", st)
      else if depositAmount >? maxDepositAmount st
      then (Throw "Deposit amount too large", st)
      else
        let depositId := generateDepositId now rnd in
        let d := {|
          Deposit.id := depositId;
          Deposit.userAddress := userAddress;
          Deposit.tokenAddress := orZeroAddress tokenAddress;
          Deposit.amount := depositAmount;
          Deposit.status := "pending";
          Deposit.timestamp := now;
          Deposit.layer1TxHash := None;
          Deposit.layer2TxHash := None;
          Deposit.proof := None;
          Deposit.options := options |} in
        match submitDepositToLayer1 d now rnd1 rnd2 (writeDeposit d st) with
        | (Ok _, st') =>
            (Ok {| dr_depositId := depositId; dr_status := "pending";
                   dr_estimatedTime := "2-5 minutes" |}, st')
        | (Throw msg, st') => (Throw msg, st')
        end
  end.

(** [burnTokensOnLayer2]: [this.layer2Contract.interface] is a TypeError
    while the handle is null, and encoding the call data throws on a token
    that is not an address and on an amount that is no uint256; the [catch]
    marks the withdrawal failed. *)
Definition burnTokensOnLayer2 (w : Withdrawal.t) (now : Z) (rnd1 : string)
    (st : CrossChainBridge) : Res unit * CrossChainBridge :=
  let failed := withdrawalWith w "failed" (Withdrawal.layer2TxHash w)
                               (Withdrawal.layer1TxHash w) (Withdrawal.proof w) in
  match layer2Contract st with
  | None =>
      (Throw "TypeError: Cannot read properties of null (reading 'interface')",
       writeWithdrawal failed st)
  | Some _ =>
      match encodeTokenAmount (Withdrawal.tokenAddress w) (Withdrawal.amount w) with
      | Throw msg => (Throw msg, writeWithdrawal failed st)
      | Ok _ =>
          let w1 := withdrawalWith w "burned" (Some ("0x" +:+ rnd1))
                                   (Withdrawal.layer1TxHash w) (Withdrawal.proof w) in
          let w2 := withdrawalWith w1 "burned" (Withdrawal.layer2TxHash w1)
                                   (Withdrawal.layer1TxHash w1)
                                   (Some (generateWithdrawalProof w1)) in
          (Ok (), addBridgeEvent "withdrawal_initiated" (Withdrawal.id w2) now
                    (writeWithdrawal w2 st))
      end
  end.

Definition withdraw (userAddress : string) (tokenAddress : option string)
    (amount : string) (options : gmap string JsValue)
    (now : Z) (rnd rnd1 : string) (st : CrossChainBridge)
    : Res WithdrawResult * CrossChainBridge :=
  match parseEther amount with
  | None => (Throw "invalid FixedNumber string value", st)
  | Some withdrawalAmount =>
      if withdrawalAmount <? minDepositAmount st
      then (Throw "Withdrawal amount too small", st)
      else
        let withdrawalId := generateWithdrawalId now rnd in
        let w := {|
          Withdrawal.id := withdrawalId;
          Withdrawal.userAddress := userAddress;
          Withdrawal.tokenAddress := orZeroAddress tokenAddress;
          Withdrawal.amount := withdrawalAmount;
          Withdrawal.status := "pending";
          Withdrawal.timestamp := now;
          Withdrawal.unlockTime := now + withdrawalDelay st * 1000;
          Withdrawal.layer2TxHash := None;
          Withdrawal.layer1TxHash := None;
          Withdrawal.proof := None;
          Withdrawal.options := options |} in
        match burnTokensOnLayer2 w now rnd1 (writeWithdrawal w st) with
        | (Ok _, st') =>
            (* the log line formats unlockTime as an ISO date *)
            (if validTimeValue (Withdrawal.unlockTime w)
             then Ok {| wr_withdrawalId := withdrawalId; wr_status := "pending";
                        wr_unlockTime := Withdrawal.unlockTime w;
                        wr_estimatedTime := "7 days" |}
             else Throw "RangeError: Invalid time value", st')
        | (Throw msg, st') => (Throw msg, st')
        end
  end.

(** [completeWithdrawal]: every check comes before the first write.  The
    call data of [withdraw] is encoded from the proof and from the token and
    the amount that [burnTokensOnLayer2] encoded when the record became
    burned. *)
Definition completeWithdrawal (withdrawalId : string) (now : Z) (rnd : string)
    (st : CrossChainBridge) : Res CompleteResult * CrossChainBridge :=
  match withdrawals st !! withdrawalId with
  | None => (Throw "Withdrawal not found", st)
  | Some w =>
      if negb (String.eqb (Withdrawal.status w) "burned")
      then (Throw "Withdrawal not ready for completion", st)
      else if now <? Withdrawal.unlockTime w
      then (Throw "Withdrawal still in delay period", st)
      else if negb (verifyWithdrawalProof (Withdrawal.proof w))
      then (Throw "Invalid withdrawal proof", st)
      else match layer1Contract st with
           | None =>
               (Throw "TypeError: Cannot read properties of null (reading 'interface')", st)
           | Some _ =>
               let w' := withdrawalWith w "completed" (Withdrawal.layer2TxHash w)
                                        (Some ("0x" +:+ rnd)) (Withdrawal.proof w) in
               (Ok {| cr_withdrawalId := withdrawalId; cr_status := "completed";
                      cr_layer1TxHash := Withdrawal.layer1TxHash w' |},
                addBridgeEvent "withdrawal_completed" (Withdrawal.id w') now
                  (setWithdrawals (<[withdrawalId := w']> (withdrawals st)) st))
           end
  end.

(** The calls a client of the bridge can make. *)
Inductive Op :=
| OpInitialize (providerOk : bool) (layer1Address layer2Address : string)
| OpDeposit (userAddress : string) (tokenAddress : option string) (amount : string)
    (options : gmap string JsValue) (now : Z) (rnd rnd1 rnd2 : string)
| OpWithdraw (userAddress : string) (tokenAddress : option string) (amount : string)
    (options : gmap string JsValue) (now : Z) (rnd rnd1 : string)
| OpCompleteWithdrawal (withdrawalId : string) (now : Z) (rnd : string).

Definition step (op : Op) (st : CrossChainBridge) : CrossChainBridge :=
  match op with
  | OpInitialize ok a1 a2 => snd (initialize ok a1 a2 st)
  | OpDeposit u t a o now r r1 r2 => snd (deposit u t a o now r r1 r2 st)
  | OpWithdraw u t a o now r r1 => snd (withdraw u t a o now r r1 st)
  | OpCompleteWithdrawal i now r => snd (completeWithdrawal i now r st)
  end.

Definition run (ops : list Op) (st : CrossChainBridge) : CrossChainBridge :=
  fold_left (fun s op => step op s) ops st.

Definition reachable (st : CrossChainBridge) : Prop :=
  exists ops, st = run ops new.

(** The four reasons for which [completeWithdrawal] refuses. *)
Definition completionErrors : list string :=
  ["Withdrawal not found"; "Withdrawal not ready for completion";
   "Withdrawal still in delay period"; "Invalid withdrawal proof"].

(** What every state of a bridge satisfies: the constants of the
    constructor, the layer-1 handle set whenever the layer-2 handle is, and
    the layer-2 handle set once a withdrawal is burned. *)
Definition bridgeInvariant (st : CrossChainBridge) : Prop :=
  withdrawalDelay st = 604800 /\
  minDepositAmount st = 10 ^ 15 /\
  (is_Some (layer2Contract st) -> is_Some (layer1Contract st)) /\
  (forall i w, withdrawals st !! i = Some w -> Withdrawal.status w = "burned" ->
     is_Some (layer2Contract st)).

End WithLibraries.

End Bridge.

(** ** ValidatorManager (the validator registry) *)

Module Validators.

(** [uptime] is the quotient the code recomputes at each update; it is kept
    as the pair of its numerator and denominator (100 over 1 at first). *)
Record Performance := {
  totalBatches : Z;
  successfulBatches : Z;
  failedBatches : Z;
  uptime : Z * Z
}.

(** A stake as a caller passes it ([@param {number} stake]): a number, of
    which NaN is one, or undefined when the argument is left out.  Nothing
    in [registerValidator] or [updateStake] tests which it is. *)
Inductive Stake :=
| Num (z : Z)
| NaN
| Undefined.

(** [stake < this.minimumStake]: undefined converts to NaN, and a
    comparison with NaN is false. *)
Definition stakeLt (stake : Stake) (minimum : Z) : bool :=
  match stake with
  | Num z => z <? minimum
  | NaN | Undefined => false
  end.

(** [stake >= minimum], false on NaN and undefined alike. *)
Definition stakeGe (stake : Stake) (minimum : Z) : bool :=
  match stake with
  | Num z => minimum <=? z
  | NaN | Undefined => false
  end.

(** [stake.toString()] is a TypeError on undefined. *)
Definition hasToString (stake : Stake) : bool :=
  match stake with
  | Undefined => false
  | Num _ | NaN => true
  end.

(** A validator object.  Its [performance] property is the very object
    stored in [this.performance] under the same address, and is read
    there. *)
Record Validator := {
  address : string;
  publicKey : string;
  stake : Stake;
  registeredAt : Z;
  isActive : bool
}.

Record ValidatorManager := {
  validators : gmap string Validator;
  stakes : gmap string Stake;
  performance : gmap string Performance;
  minimumStake : Z
}.

(** [config.rollup.minimumStake || 1000000000000000000] *)
Definition new (configMinimumStake : option Z) : ValidatorManager := {|
  validators := ∅;
  stakes := ∅;
  performance := ∅;
  minimumStake :=
    match configMinimumStake with
    | Some n => if n =? 0 then 1000000000000000000 else n
    | None => 1000000000000000000
    end
|}.

(** [publicKey && publicKey.length === 130 && publicKey.startsWith('0x')] *)
Definition validatePublicKey (publicKey : string) : bool :=
  negb (String.eqb publicKey "")
  && Nat.eqb (String.length publicKey) 130
  && String.prefix "0x" publicKey.

(** [registerValidator]: the three tables are written, and then the log
    line takes [stake.toString()]. *)
Definition registerValidator (address publicKey : string) (stake : Stake) (now : Z)
    (st : ValidatorManager) : Res Validator * ValidatorManager :=
  match validators st !! address with
  | Some _ => (Throw "Validator already registered", st)
  | None =>
      if stakeLt stake (minimumStake st) then (Throw "Insufficient stake amount", st)
      else if negb (validatePublicKey publicKey)
      then (Throw "Invalid public key format", st)
      else
        let validator := {|
          address := address;
          publicKey := publicKey;
          stake := stake;
          registeredAt := now;
          isActive := true |} in
        let st' := {|
          validators := <[address := validator]> (validators st);
          stakes := <[address := stake]> (stakes st);
          performance :=
            <[address := {| totalBatches := 0; successfulBatches := 0;
                            failedBatches := 0; uptime := (100, 1) |}]>
              (performance st);
          minimumStake := minimumStake st |} in
        if hasToString stake then (Ok validator, st')
        else (Throw "TypeError: Cannot read properties of undefined (reading 'toString')",
              st')
  end.

Definition unregisterValidator (address : string) (st : ValidatorManager)
    : Res bool * ValidatorManager :=
  match validators st !! address with
  | None => (Throw "Validator not found", st)
  | Some _ =>
      (Ok true, {|
         validators := delete address (validators st);
         stakes := delete address (stakes st);
         performance := delete address (performance st);
         minimumStake := minimumStake st |})
  end.

(** [updateStake]: the validator object and the stakes table are written,
    and then the log line takes [oldStake.toString()] and
    [newStake.toString()]. *)
Definition updateStake (address : string) (newStake : Stake) (st : ValidatorManager)
    : Res Validator * ValidatorManager :=
  match validators st !! address with
  | None => (Throw "Validator not found", st)
  | Some validator =>
      if stakeLt newStake (minimumStake st) then (Throw "Insufficient stake amount", st)
      else
        let oldStake := stake validator in
        let validator' := {|
          address := Validators.address validator;
          publicKey := publicKey validator;
          stake := newStake;
          registeredAt := registeredAt validator;
          isActive := isActive validator |} in
        let st' := {|
          validators := <[address := validator']> (validators st);
          stakes := <[address := newStake]> (stakes st);
          performance := performance st;
          minimumStake := minimumStake st |} in
        if hasToString oldStake && hasToString newStake then (Ok validator', st')
        else (Throw "TypeError: Cannot read properties of undefined (reading 'toString')",
              st')
  end.

Definition updatePerformance (address : string) (success : bool)
    (st : ValidatorManager) : ValidatorManager :=
  match performance st !! address with
  | None => st
  | Some perf =>
      let total := totalBatches perf + 1 in
      let ok := if success then successfulBatches perf + 1 else successfulBatches perf in
      let ko := if success then failedBatches perf else failedBatches perf + 1 in
      {| validators := validators st;
         stakes := stakes st;
         performance :=
           <[address := {| totalBatches := total; successfulBatches := ok;
                           failedBatches := ko; uptime := (ok * 100, total) |}]>
             (performance st);
         minimumStake := minimumStake st |}
  end.

(** [this.stakes.get(address) || 0]: NaN and undefined are falsy, as 0
    is. *)
Definition getStake (address : string) (st : ValidatorManager) : Z :=
  match stakes st !! address with
  | Some (Num z) => z
  | _ => 0
  end.

Definition getActiveValidators (st : ValidatorManager) : list Validator :=
  filter (fun v => isActive v = true) (map snd (map_to_list (validators st))).

Inductive Op :=
| OpRegister (address publicKey : string) (stake : Stake) (now : Z)
| OpUnregister (address : string)
| OpUpdateStake (address : string) (newStake : Stake)
| OpUpdatePerformance (address : string) (success : bool).

Definition step (op : Op) (st : ValidatorManager) : ValidatorManager :=
  match op with
  | OpRegister a k s now => snd (registerValidator a k s now st)
  | OpUnregister a => snd (unregisterValidator a st)
  | OpUpdateStake a s => snd (updateStake a s st)
  | OpUpdatePerformance a b => updatePerformance a b st
  end.

Definition run (ops : list Op) (st : ValidatorManager) : ValidatorManager :=
  fold_left (fun s op => step op s) ops st.

(** The calls whose stake argument is a number other than NaN. *)
Definition numericOp (op : Op) : Prop :=
  match op with
  | OpRegister _ _ s _ | OpUpdateStake _ s => exists z, s = Num z
  | OpUnregister _ | OpUpdatePerformance _ _ => True
  end.

(** Stake >= minimumStake for every active validator in the registry, on
    the validator object and in the [stakes] table that [getStake] reads. *)
Definition stakeInvariant (st : ValidatorManager) : Prop :=
  forall a v, validators st !! a = Some v -> isActive v = true ->
    stakeGe (stake v) (minimumStake st) = true /\ stakes st !! a = Some (stake v).

End Validators.

(** An integer where a stake is expected is that number. *)
Coercion Validators.Num : Z >-> Validators.Stake.

(** ** RollupContract ([src/contracts/BridgeContract.sol], second contract) *)

Module RollupContract.

Definition MAX_UINT256 : Z := 2 ^ 256 - 1.
Definition MAX_CHALLENGE_PERIOD : Z := 7 * 86400.
Definition MIN_STAKE : Z := 10 ^ 18.
Definition MAX_BATCH_SIZE : Z := 1000.

(** Checked uint256 arithmetic of Solidity 0.8: overflow reverts. *)
Definition checkedAdd (a b : Z) : option Z :=
  if a + b <=? MAX_UINT256 then Some (a + b) else None.

Definition checkedMul (a b : Z) : option Z :=
  if a * b <=? MAX_UINT256 then Some (a * b) else None.

Record Batch := {
  stateRoot : Z;
  merkleRoot : Z;
  timestamp : Z;
  sequencer : Z;
  isChallenged : bool;
  isFinalized : bool
}.

Definition zeroBatch : Batch := {|
  stateRoot := 0; merkleRoot := 0; timestamp := 0; sequencer := 0;
  isChallenged := false; isFinalized := false |}.

(** Storage, with the owner of [Ownable], the flag of [Pausable] and the
    contract's balance. *)
Record State := {
  batches : gmap Z Batch;
  validators : gmap Z bool;
  validatorStakes : gmap Z Z;
  currentStateRoot : Z;
  batchCounter : Z;
  sequencerAddr : Z;
  challengePeriod : Z;
  minimumStake : Z;
  maxBatchSize : Z;
  owner : Z;
  paused : bool;
  balance : Z
}.

(** [msg.sender] and [block.timestamp] of a call.  Only [registerValidator]
    is payable; it takes [msg.value] as an argument. *)
Record Call := { sender : Z; blockTimestamp : Z }.

(** A mapping reads as the zero value where nothing was written. *)
Definition batchAt (st : State) (i : Z) : Batch := default zeroBatch (batches st !! i).
Definition isValidator (st : State) (a : Z) : bool := default false (validators st !! a).
Definition getValidatorStake (st : State) (a : Z) : Z := default 0 (validatorStakes st !! a).

Definition constructor (c : Call) (_sequencer _challengePeriod _minimumStake : Z)
    : Res State :=
  if _sequencer =? 0 then Throw "Invalid sequencer address"
  else if negb (_challengePeriod <=? MAX_CHALLENGE_PERIOD) then Throw "Challenge period too long"
  else if negb (_minimumStake >=? MIN_STAKE) then Throw "Minimum stake too low"
  else Ok {|
    batches := ∅; validators := ∅; validatorStakes := ∅;
    currentStateRoot := 0;
    batchCounter := 0;
    sequencerAddr := _sequencer;
    challengePeriod := _challengePeriod;
    minimumStake := _minimumStake;
    maxBatchSize := MAX_BATCH_SIZE;
    owner := sender c;
    paused := false;
    balance := 0 |}.

Definition setBatches (b : gmap Z Batch) (root counter : Z) (st : State) : State := {|
  batches := b; validators := validators st; validatorStakes := validatorStakes st;
  currentStateRoot := root;
  batchCounter := counter;
  sequencerAddr := sequencerAddr st;
  challengePeriod := challengePeriod st;
  minimumStake := minimumStake st;
  maxBatchSize := maxBatchSize st;
  owner := owner st;
  paused := paused st;
  balance := balance st |}.

Definition setValidators (v : gmap Z bool) (s : gmap Z Z) (bal : Z) (st : State)
    : State := {|
  batches := batches st; validators := v; validatorStakes := s;
  currentStateRoot := currentStateRoot st;
  batchCounter := batchCounter st;
  sequencerAddr := sequencerAddr st;
  challengePeriod := challengePeriod st;
  minimumStake := minimumStake st;
  maxBatchSize := maxBatchSize st;
  owner := owner st;
  paused := paused st;
  balance := bal |}.

Definition setAdmin (seq period minStake maxSize own : Z) (p : bool) (st : State)
    : State := {|
  batches := batches st; validators := validators st;
  validatorStakes := validatorStakes st;
  currentStateRoot := currentStateRoot st;
  batchCounter := batchCounter st;
  sequencerAddr := seq;
  challengePeriod := period;
  minimumStake := minStake;
  maxBatchSize := maxSize;
  owner := own;
  paused := p;
  balance := balance st |}.

Definition submitBatch (c : Call) (stateRoot merkleRoot : Z) (batchDataLength : Z)
    (st : State) : Res State :=
  if negb (sender c =? sequencerAddr st) then Throw "Only sequencer can call this function"
  else if paused st then Throw "Pausable: paused"
  else if stateRoot =? 0 then Throw "Invalid state root"
  else if merkleRoot =? 0 then Throw "Invalid merkle root"
  else if negb (batchDataLength >? 0) then Throw "Empty batch data"
  else match checkedMul (maxBatchSize st) 32 with
  | None => Throw "Panic(0x11)"
  | Some limit =>
      if negb (batchDataLength <=? limit) then Throw "Batch too large"
      else
        let newBatch := {|
          stateRoot := stateRoot; merkleRoot := merkleRoot;
          timestamp := blockTimestamp c; sequencer := sender c;
          isChallenged := false; isFinalized := false |} in
        match checkedAdd (batchCounter st) 1 with
        | None => Throw "Panic(0x11)"
        | Some counter' =>
            Ok (setBatches (<[batchCounter st := newBatch]> (batches st))
                           (currentStateRoot st) counter' st)
        end
  end.

Definition challengeBatch (c : Call) (batchIndex : Z) (st : State) : Res State :=
  if negb (isValidator st (sender c)) then Throw "Only validator can call this function"
  else if negb (batchIndex <? batchCounter st) then Throw "Invalid batch index"
  else if paused st then Throw "Pausable: paused"
  else
    let batch := batchAt st batchIndex in
    if isChallenged batch then Throw "Batch already challenged"
    else if isFinalized batch then Throw "Batch already finalized"
    else match checkedAdd (timestamp batch) (challengePeriod st) with
    | None => Throw "Panic(0x11)"
    | Some deadline =>
        if negb (blockTimestamp c <=? deadline) then Throw "Challenge period expired"
        else
          let batch' := {|
            stateRoot := RollupContract.stateRoot batch;
            merkleRoot := RollupContract.merkleRoot batch;
            timestamp := timestamp batch; sequencer := sequencer batch;
            isChallenged := true; isFinalized := isFinalized batch |} in
          Ok (setBatches (<[batchIndex := batch']> (batches st))
                         (currentStateRoot st) (batchCounter st) st)
    end.

Definition finalizeBatch (c : Call) (batchIndex : Z) (st : State) : Res State :=
  if negb (batchIndex <? batchCounter st) then Throw "Invalid batch index"
  else if paused st then Throw "Pausable: paused"
  else
    let batch := batchAt st batchIndex in
    if isFinalized batch then Throw "Batch already finalized"
    else match checkedAdd (timestamp batch) (challengePeriod st) with
    | None => Throw "Panic(0x11)"
    | Some deadline =>
        if negb (blockTimestamp c >? deadline) then Throw "Challenge period not expired"
        else
          let root' :=
            if negb (isChallenged batch) then RollupContract.stateRoot batch
            else currentStateRoot st in
          let batch' := {|
            stateRoot := RollupContract.stateRoot batch;
            merkleRoot := RollupContract.merkleRoot batch;
            timestamp := timestamp batch; sequencer := sequencer batch;
            isChallenged := isChallenged batch; isFinalized := true |} in
          Ok (setBatches (<[batchIndex := batch']> (batches st)) root' (batchCounter st) st)
    end.

Definition registerValidator (c : Call) (value : Z) (st : State) : Res State :=
  if paused st then Throw "Pausable: paused"
  else if negb (value >=? minimumStake st) then Throw "Insufficient stake"
  else if isValidator st (sender c) then Throw "Already registered"
  else Ok (setValidators (<[sender c := true]> (validators st))
                         (<[sender c := value]> (validatorStakes st))
                         (balance st + value) st).

(** [transferOk] tells whether the recipient accepts the ether sent by
    [transfer]; a refusal reverts the call. *)
Definition unregisterValidator (c : Call) (transferOk : bool) (st : State) : Res State :=
  if negb (isValidator st (sender c)) then Throw "Only validator can call this function"
  else if paused st then Throw "Pausable: paused"
  else
    let stake := getValidatorStake st (sender c) in
    if negb (stake >? 0) then Throw "No stake to withdraw"
    else if negb transferOk || (balance st <? stake) then Throw "transfer failed"
    else Ok (setValidators (<[sender c := false]> (validators st))
                           (<[sender c := 0]> (validatorStakes st))
                           (balance st - stake) st).

Definition onlyOwner (c : Call) (st : State) : bool := sender c =? owner st.

Definition updateSequencer (c : Call) (newSequencer : Z) (st : State) : Res State :=
  if negb (onlyOwner c st) then Throw "Ownable: caller is not the owner"
  else if newSequencer =? 0 then Throw "Invalid sequencer address"
  else if newSequencer =? sequencerAddr st then Throw "Same sequencer address"
  else Ok (setAdmin newSequencer (challengePeriod st) (minimumStake st)
                    (maxBatchSize st) (owner st) (paused st) st).

Definition updateChallengePeriod (c : Call) (newChallengePeriod : Z) (st : State)
    : Res State :=
  if negb (onlyOwner c st) then Throw "Ownable: caller is not the owner"
  else if negb (newChallengePeriod <=? MAX_CHALLENGE_PERIOD) then Throw "Challenge period too long"
  else if newChallengePeriod =? challengePeriod st then Throw "Same challenge period"
  else Ok (setAdmin (sequencerAddr st) newChallengePeriod (minimumStake st)
                    (maxBatchSize st) (owner st) (paused st) st).

Definition updateMinimumStake (c : Call) (newMinimumStake : Z) (st : State) : Res State :=
  if negb (onlyOwner c st) then Throw "Ownable: caller is not the owner"
  else if negb (newMinimumStake >=? MIN_STAKE) then Throw "Minimum stake too low"
  else if newMinimumStake =? minimumStake st then Throw "Same minimum stake"
  else Ok (setAdmin (sequencerAddr st) (challengePeriod st) newMinimumStake
                    (maxBatchSize st) (owner st) (paused st) st).

Definition updateMaxBatchSize (c : Call) (newMaxBatchSize : Z) (st : State) : Res State :=
  if negb (onlyOwner c st) then Throw "Ownable: caller is not the owner"
  else if negb (newMaxBatchSize <=? MAX_BATCH_SIZE) then Throw "Batch size too large"
  else if negb (newMaxBatchSize >? 0) then Throw "Invalid batch size"
  else if newMaxBatchSize =? maxBatchSize st then Throw "Same batch size"
  else Ok (setAdmin (sequencerAddr st) (challengePeriod st) (minimumStake st)
                    newMaxBatchSize (owner st) (paused st) st).

Definition pause (c : Call) (st : State) : Res State :=
  if negb (onlyOwner c st) then Throw "Ownable: caller is not the owner"
  else if paused st then Throw "Pausable: paused"
  else Ok (setAdmin (sequencerAddr st) (challengePeriod st) (minimumStake st)
                    (maxBatchSize st) (owner st) true st).

Definition unpause (c : Call) (st : State) : Res State :=
  if negb (onlyOwner c st) then Throw "Ownable: caller is not the owner"
  else if negb (paused st) then Throw "Pausable: not paused"
  else Ok (setAdmin (sequencerAddr st) (challengePeriod st) (minimumStake st)
                    (maxBatchSize st) (owner st) false st).

Definition emergencyWithdraw (c : Call) (transferOk : bool) (st : State) : Res State :=
  if negb (onlyOwner c st) then Throw "Ownable: caller is not the owner"
  else if negb (balance st >? 0) then Throw "No funds to withdraw"
  else if negb transferOk then Throw "transfer failed"
  else Ok (setValidators (validators st) (validatorStakes st) 0 st).

(** [transferOwnership] and [renounceOwnership] of [Ownable]. *)
Definition transferOwnership (c : Call) (newOwner : Z) (st : State) : Res State :=
  if negb (onlyOwner c st) then Throw "Ownable: caller is not the owner"
  else if newOwner =? 0 then Throw "Ownable: new owner is the zero address"
  else Ok (setAdmin (sequencerAddr st) (challengePeriod st) (minimumStake st)
                    (maxBatchSize st) newOwner (paused st) st).

Definition renounceOwnership (c : Call) (st : State) : Res State :=
  if negb (onlyOwner c st) then Throw "Ownable: caller is not the owner"
  else Ok (setAdmin (sequencerAddr st) (challengePeriod st) (minimumStake st)
                    (maxBatchSize st) 0 (paused st) st).

(** The external, state-changing functions of the contract. *)
Inductive Op :=
| OpSubmitBatch (stateRoot merkleRoot batchDataLength : Z)
| OpChallengeBatch (batchIndex : Z)
| OpFinalizeBatch (batchIndex : Z)
| OpRegisterValidator (value : Z)
| OpUnregisterValidator (transferOk : bool)
| OpUpdateSequencer (newSequencer : Z)
| OpUpdateChallengePeriod (newChallengePeriod : Z)
| OpUpdateMinimumStake (newMinimumStake : Z)
| OpUpdateMaxBatchSize (newMaxBatchSize : Z)
| OpPause
| OpUnpause
| OpEmergencyWithdraw (transferOk : bool)
| OpTransferOwnership (newOwner : Z)
| OpRenounceOwnership.

Definition exec (c : Call) (op : Op) (st : State) : Res State :=
  match op with
  | OpSubmitBatch s m n => submitBatch c s m n st
  | OpChallengeBatch i => challengeBatch c i st
  | OpFinalizeBatch i => finalizeBatch c i st
  | OpRegisterValidator v => registerValidator c v st
  | OpUnregisterValidator ok => unregisterValidator c ok st
  | OpUpdateSequencer a => updateSequencer c a st
  | OpUpdateChallengePeriod p => updateChallengePeriod c p st
  | OpUpdateMinimumStake m => updateMinimumStake c m st
  | OpUpdateMaxBatchSize m => updateMaxBatchSize c m st
  | OpPause => pause c st
  | OpUnpause => unpause c st
  | OpEmergencyWithdraw ok => emergencyWithdraw c ok st
  | OpTransferOwnership a => transferOwnership c a st
  | OpRenounceOwnership => renounceOwnership c st
  end.

(** A reverted call leaves the storage as it was. *)
Definition step (call : Call * Op) (st : State) : State :=
  match exec (fst call) (snd call) st with
  | Ok st' => st'
  | Throw _ => st
  end.

Definition run (calls : list (Call * Op)) (st : State) : State :=
  fold_left (fun s call => step call s) calls st.

End RollupContract.

(** ** BridgeContract ([src/contracts/BridgeContract.sol], first contract)

    Addresses and [bytes32] values are integers, zero for [address(0)] and
    [bytes32(0)].  What a call learns from another contract (whether a
    token transfer went through, the token balance the contract holds) is
    an argument of the call. *)

Module BridgeContract.

Definition MAX_UINT256 : Z := 2 ^ 256 - 1.
Definition MAX_WITHDRAWAL_DELAY : Z := 30 * 86400.
Definition MIN_DEPOSIT : Z := 10 ^ 15.
Definition MAX_DEPOSIT : Z := 1000 * 10 ^ 18.

Definition checkedAdd (a b : Z) : option Z :=
  if a + b <=? MAX_UINT256 then Some (a + b) else None.

Module DepositInfo.
Record t := {
  user : Z;
  token : Z;
  amount : Z;
  timestamp : Z;
  isProcessed : bool;
  proof : Z
}.
Definition zero : t := {|
  user := 0; token := 0; amount := 0; timestamp := 0;
  isProcessed := false; proof := 0 |}.
End DepositInfo.

Module WithdrawalInfo.
Record t := {
  user : Z;
  token : Z;
  amount : Z;
  timestamp : Z;
  isCompleted : bool;
  proof : Z
}.
End WithdrawalInfo.

(** Storage, with the owner of [Ownable], the flag of [Pausable] and the
    contract's ether balance. *)
Record State := {
  deposits : gmap Z DepositInfo.t;
  withdrawals : gmap Z WithdrawalInfo.t;
  supportedTokens : gmap Z bool;
  tokenBalances : gmap Z Z;
  layer2Bridge : Z;
  withdrawalDelay : Z;
  minimumDeposit : Z;
  maximumDeposit : Z;
  depositCounter : Z;
  withdrawalCounter : Z;
  owner : Z;
  paused : bool;
  ethBalance : Z
}.

(** [msg.sender], [block.timestamp] and [blockhash(block.number - 1)] of a
    call.  Only [depositETH] is payable; it takes [msg.value] as an
    argument. *)
Record Call := { sender : Z; blockTimestamp : Z; previousBlockhash : Z }.

(** A mapping reads as the zero value where nothing was written. *)
Definition depositAt (st : State) (id : Z) : DepositInfo.t :=
  default DepositInfo.zero (deposits st !! id).
Definition isTokenSupported (st : State) (token : Z) : bool :=
  default false (supportedTokens st !! token).
Definition getTokenBalance (st : State) (token : Z) : Z :=
  default 0 (tokenBalances st !! token).

Definition constructor (c : Call)
    (_layer2Bridge _withdrawalDelay _minimumDeposit _maximumDeposit : Z) : Res State :=
  if _layer2Bridge =? 0 then Throw "Invalid Layer2 bridge address"
  else if negb (_withdrawalDelay <=? MAX_WITHDRAWAL_DELAY)
  then Throw "Withdrawal delay too long"
  else if negb (_minimumDeposit >=? MIN_DEPOSIT) then Throw "Minimum deposit too low"
  else if negb (_maximumDeposit <=? MAX_DEPOSIT) then Throw "Maximum deposit too high"
  else Ok {|
    deposits := ∅; withdrawals := ∅; supportedTokens := ∅; tokenBalances := ∅;
    layer2Bridge := _layer2Bridge;
    withdrawalDelay := _withdrawalDelay;
    minimumDeposit := _minimumDeposit;
    maximumDeposit := _maximumDeposit;
    depositCounter := 0;
    withdrawalCounter := 0;
    owner := sender c;
    paused := false;
    ethBalance := 0 |}.

(** A new deposit: the record, the accounted balance of its token, the
    counter and the ether received. *)
Definition storeDeposit (id : Z) (d : DepositInfo.t) (tokenBalance counter : Z)
    (received : Z) (st : State) : State := {|
  deposits := <[id := d]> (deposits st);
  withdrawals := withdrawals st;
  supportedTokens := supportedTokens st;
  tokenBalances := <[DepositInfo.token d := tokenBalance]> (tokenBalances st);
  layer2Bridge := layer2Bridge st;
  withdrawalDelay := withdrawalDelay st;
  minimumDeposit := minimumDeposit st;
  maximumDeposit := maximumDeposit st;
  depositCounter := counter;
  withdrawalCounter := withdrawalCounter st;
  owner := owner st;
  paused := paused st;
  ethBalance := ethBalance st + received |}.

Definition setDeposit (id : Z) (d : DepositInfo.t) (st : State) : State := {|
  deposits := <[id := d]> (deposits st);
  withdrawals := withdrawals st;
  supportedTokens := supportedTokens st;
  tokenBalances := tokenBalances st;
  layer2Bridge := layer2Bridge st;
  withdrawalDelay := withdrawalDelay st;
  minimumDeposit := minimumDeposit st;
  maximumDeposit := maximumDeposit st;
  depositCounter := depositCounter st;
  withdrawalCounter := withdrawalCounter st;
  owner := owner st;
  paused := paused st;
  ethBalance := ethBalance st |}.

(** A completed withdrawal: the record, the counter, the accounted balance
    of its token and the ether sent. *)
Definition storeWithdrawal (id : Z) (w : WithdrawalInfo.t) (counter tokenBalance : Z)
    (sent : Z) (st : State) : State := {|
  deposits := deposits st;
  withdrawals := <[id := w]> (withdrawals st);
  supportedTokens := supportedTokens st;
  tokenBalances := <[WithdrawalInfo.token w := tokenBalance]> (tokenBalances st);
  layer2Bridge := layer2Bridge st;
  withdrawalDelay := withdrawalDelay st;
  minimumDeposit := minimumDeposit st;
  maximumDeposit := maximumDeposit st;
  depositCounter := depositCounter st;
  withdrawalCounter := counter;
  owner := owner st;
  paused := paused st;
  ethBalance := ethBalance st - sent |}.

Definition setSupported (tokens : gmap Z bool) (st : State) : State := {|
  deposits := deposits st;
  withdrawals := withdrawals st;
  supportedTokens := tokens;
  tokenBalances := tokenBalances st;
  layer2Bridge := layer2Bridge st;
  withdrawalDelay := withdrawalDelay st;
  minimumDeposit := minimumDeposit st;
  maximumDeposit := maximumDeposit st;
  depositCounter := depositCounter st;
  withdrawalCounter := withdrawalCounter st;
  owner := owner st;
  paused := paused st;
  ethBalance := ethBalance st |}.

Definition setAdmin (bridge delay minDeposit maxDeposit own : Z) (p : bool)
    (balance : Z) (st : State) : State := {|
  deposits := deposits st;
  withdrawals := withdrawals st;
  supportedTokens := supportedTokens st;
  tokenBalances := tokenBalances st;
  layer2Bridge := bridge;
  withdrawalDelay := delay;
  minimumDeposit := minDeposit;
  maximumDeposit := maxDeposit;
  depositCounter := depositCounter st;
  withdrawalCounter := withdrawalCounter st;
  owner := own;
  paused := p;
  ethBalance := balance |}.

Definition onlyOwner (c : Call) (st : State) : bool := sender c =? owner st.

Section WithDigests.

(** [keccak256(abi.encodePacked(block.timestamp, msg.sender, counter,
    blockhash(block.number - 1)))], of both id generators. *)
Variable keccakId : Z -> Z -> Z -> Z -> Z.
(** [keccak256(abi.encodePacked(depositId, user, token, amount, timestamp))] *)
Variable keccakDepositProof : Z -> Z -> Z -> Z -> Z -> Z.
(** [keccak256(abi.encodePacked(user, token, amount, time))] *)
Variable keccakWithdrawalProof : Z -> Z -> Z -> Z -> Z.

Definition generateDepositId (c : Call) (st : State) : Z :=
  keccakId (blockTimestamp c) (sender c) (depositCounter st) (previousBlockhash c).

Definition generateWithdrawalId (c : Call) (st : State) : Z :=
  keccakId (blockTimestamp c) (sender c) (withdrawalCounter st) (previousBlockhash c).

Definition depositETH (c : Call) (value : Z) (st : State) : Res State :=
  if paused st then Throw "Pausable: paused"
  else if negb (value >? 0) then Throw "No ETH sent"
  else if negb (value >=? minimumDeposit st) then Throw "Deposit amount too small"
  else if negb (value <=? maximumDeposit st) then Throw "Deposit amount too large"
  else
    let depositId := generateDepositId c st in
    let d := {|
      DepositInfo.user := sender c; DepositInfo.token := 0;
      DepositInfo.amount := value; DepositInfo.timestamp := blockTimestamp c;
      DepositInfo.isProcessed := false; DepositInfo.proof := 0 |} in
    match checkedAdd (getTokenBalance st 0) value with
    | None => Throw "Panic(0x11)"
    | Some tokenBalance =>
        match checkedAdd (depositCounter st) 1 with
        | None => Throw "Panic(0x11)"
        | Some counter => Ok (storeDeposit depositId d tokenBalance counter value st)
        end
    end.

(** [pulled] tells whether [safeTransferFrom] went through. *)
Definition depositToken (c : Call) (token amount : Z) (pulled : bool) (st : State)
    : Res State :=
  if token =? 0 then Throw "Invalid token address"
  else if negb (amount >=? minimumDeposit st) then Throw "Amount too small"
  else if negb (amount <=? maximumDeposit st) then Throw "Amount too large"
  else if paused st then Throw "Pausable: paused"
  else if negb (isTokenSupported st token) then Throw "Token not supported"
  else if negb pulled then Throw "SafeERC20: low-level call failed"
  else
    let depositId := generateDepositId c st in
    let d := {|
      DepositInfo.user := sender c; DepositInfo.token := token;
      DepositInfo.amount := amount; DepositInfo.timestamp := blockTimestamp c;
      DepositInfo.isProcessed := false; DepositInfo.proof := 0 |} in
    match checkedAdd (getTokenBalance st token) amount with
    | None => Throw "Panic(0x11)"
    | Some tokenBalance =>
        match checkedAdd (depositCounter st) 1 with
        | None => Throw "Panic(0x11)"
        | Some counter => Ok (storeDeposit depositId d tokenBalance counter 0 st)
        end
    end.

(** [generateDepositProof] returns the proof it stores. *)
Definition generateDepositProof (c : Call) (depositId : Z) (st : State)
    : Res (Z * State) :=
  if negb (sender c =? layer2Bridge st)
  then Throw "Only Layer2 bridge can call this function"
  else
    let d := depositAt st depositId in
    if DepositInfo.user d =? 0 then Throw "Deposit not found"
    else if DepositInfo.isProcessed d then Throw "Deposit already processed"
    else
      let proof :=
        keccakDepositProof depositId (DepositInfo.user d) (DepositInfo.token d)
          (DepositInfo.amount d) (DepositInfo.timestamp d) in
      Ok (proof,
          setDeposit depositId {|
            DepositInfo.user := DepositInfo.user d;
            DepositInfo.token := DepositInfo.token d;
            DepositInfo.amount := DepositInfo.amount d;
            DepositInfo.timestamp := DepositInfo.timestamp d;
            DepositInfo.isProcessed := true;
            DepositInfo.proof := proof |} st).

(** [verifyWithdrawalProof]; [block.timestamp - withdrawalDelay] is checked
    arithmetic, [None] where it underflows. *)
Definition verifyWithdrawalProof (c : Call) (user token amount proof : Z) (st : State)
    : option bool :=
  if blockTimestamp c <? withdrawalDelay st then None
  else Some (proof =? keccakWithdrawalProof user token amount
                         (blockTimestamp c - withdrawalDelay st)).

(** [held] is the token balance [balanceOf(address(this))] reports and
    [sent] tells whether the transfer to the user went through. *)
Definition completeWithdrawal (c : Call) (user token amount proof : Z)
    (held : Z) (sent : bool) (st : State) : Res State :=
  if negb (sender c =? layer2Bridge st)
  then Throw "Only Layer2 bridge can call this function"
  else if token =? 0 then Throw "Invalid token address"
  else if paused st then Throw "Pausable: paused"
  else if user =? 0 then Throw "Invalid user address"
  else if negb (amount >? 0) then Throw "Invalid amount"
  else if proof =? 0 then Throw "Invalid proof"
  else match verifyWithdrawalProof c user token amount proof st with
  | None => Throw "Panic(0x11)"
  | Some false => Throw "Invalid withdrawal proof"
  | Some true =>
      let withdrawalId := generateWithdrawalId c st in
      let w := {|
        WithdrawalInfo.user := user; WithdrawalInfo.token := token;
        WithdrawalInfo.amount := amount;
        WithdrawalInfo.timestamp := blockTimestamp c;
        WithdrawalInfo.isCompleted := true; WithdrawalInfo.proof := proof |} in
      match checkedAdd (withdrawalCounter st) 1 with
      | None => Throw "Panic(0x11)"
      | Some counter =>
          if token =? 0 then
            if negb (ethBalance st >=? amount) then Throw "Insufficient ETH balance"
            else if negb (getTokenBalance st token >=? amount)
            then Throw "Insufficient token balance"
            else if negb sent then Throw "transfer failed"
            else Ok (storeWithdrawal withdrawalId w counter
                       (getTokenBalance st token - amount) amount st)
          else
            if negb (held >=? amount) then Throw "Insufficient token balance"
            else if negb (getTokenBalance st token >=? amount)
            then Throw "Insufficient token balance"
            else if negb sent then Throw "SafeERC20: low-level call failed"
            else Ok (storeWithdrawal withdrawalId w counter
                       (getTokenBalance st token - amount) 0 st)
      end
  end.

Definition addSupportedToken (c : Call) (token : Z) (st : State) : Res State :=
  if negb (onlyOwner c st) then Throw "Ownable: caller is not the owner"
  else if token =? 0 then Throw "Invalid token address"
  else if isTokenSupported st token then Throw "Token already supported"
  else Ok (setSupported (<[token := true]> (supportedTokens st)) st).

Definition removeSupportedToken (c : Call) (token : Z) (st : State) : Res State :=
  if negb (onlyOwner c st) then Throw "Ownable: caller is not the owner"
  else if token =? 0 then Throw "Invalid token address"
  else if negb (isTokenSupported st token) then Throw "Token not supported"
  else Ok (setSupported (<[token := false]> (supportedTokens st)) st).

Definition updateLayer2Bridge (c : Call) (newLayer2Bridge : Z) (st : State)
    : Res State :=
  if negb (onlyOwner c st) then Throw "Ownable: caller is not the owner"
  else if newLayer2Bridge =? 0 then Throw "Invalid Layer2 bridge address"
  else if newLayer2Bridge =? layer2Bridge st then Throw "Same Layer2 bridge address"
  else Ok (setAdmin newLayer2Bridge (withdrawalDelay st) (minimumDeposit st)
                    (maximumDeposit st) (owner st) (paused st) (ethBalance st) st).

Definition updateWithdrawalDelay (c : Call) (newWithdrawalDelay : Z) (st : State)
    : Res State :=
  if negb (onlyOwner c st) then Throw "Ownable: caller is not the owner"
  else if negb (newWithdrawalDelay <=? MAX_WITHDRAWAL_DELAY)
  then Throw "Withdrawal delay too long"
  else if newWithdrawalDelay =? withdrawalDelay st then Throw "Same withdrawal delay"
  else Ok (setAdmin (layer2Bridge st) newWithdrawalDelay (minimumDeposit st)
                    (maximumDeposit st) (owner st) (paused st) (ethBalance st) st).

Definition updateDepositLimits (c : Call) (newMinimumDeposit newMaximumDeposit : Z)
    (st : State) : Res State :=
  if negb (onlyOwner c st) then Throw "Ownable: caller is not the owner"
  else if negb (newMinimumDeposit >=? MIN_DEPOSIT) then Throw "Minimum deposit too low"
  else if negb (newMaximumDeposit <=? MAX_DEPOSIT) then Throw "Maximum deposit too high"
  else if negb (newMinimumDeposit <? newMaximumDeposit) then Throw "Invalid deposit limits"
  else Ok (setAdmin (layer2Bridge st) (withdrawalDelay st) newMinimumDeposit
                    newMaximumDeposit (owner st) (paused st) (ethBalance st) st).

Definition pause (c : Call) (st : State) : Res State :=
  if negb (onlyOwner c st) then Throw "Ownable: caller is not the owner"
  else if paused st then Throw "Pausable: paused"
  else Ok (setAdmin (layer2Bridge st) (withdrawalDelay st) (minimumDeposit st)
                    (maximumDeposit st) (owner st) true (ethBalance st) st).

Definition unpause (c : Call) (st : State) : Res State :=
  if negb (onlyOwner c st) then Throw "Ownable: caller is not the owner"
  else if negb (paused st) then Throw "Pausable: not paused"
  else Ok (setAdmin (layer2Bridge st) (withdrawalDelay st) (minimumDeposit st)
                    (maximumDeposit st) (owner st) false (ethBalance st) st).

(** [emergencyWithdraw]: the accounted balances are not touched. *)
Definition emergencyWithdraw (c : Call) (token amount : Z) (held : Z) (sent : bool)
    (st : State) : Res State :=
  if negb (onlyOwner c st) then Throw "Ownable: caller is not the owner"
  else if token =? 0 then
    if negb (ethBalance st >=? amount) then Throw "Insufficient ETH balance"
    else if negb sent then Throw "transfer failed"
    else Ok (setAdmin (layer2Bridge st) (withdrawalDelay st) (minimumDeposit st)
                      (maximumDeposit st) (owner st) (paused st)
                      (ethBalance st - amount) st)
  else
    if negb (held >=? amount) then Throw "Insufficient token balance"
    else if negb sent then Throw "SafeERC20: low-level call failed"
    else Ok st.

(** [transferOwnership] and [renounceOwnership] of [Ownable]. *)
Definition transferOwnership (c : Call) (newOwner : Z) (st : State) : Res State :=
  if negb (onlyOwner c st) then Throw "Ownable: caller is not the owner"
  else if newOwner =? 0 then Throw "Ownable: new owner is the zero address"
  else Ok (setAdmin (layer2Bridge st) (withdrawalDelay st) (minimumDeposit st)
                    (maximumDeposit st) newOwner (paused st) (ethBalance st) st).

Definition renounceOwnership (c : Call) (st : State) : Res State :=
  if negb (onlyOwner c st) then Throw "Ownable: caller is not the owner"
  else Ok (setAdmin (layer2Bridge st) (withdrawalDelay st) (minimumDeposit st)
                    (maximumDeposit st) 0 (paused st) (ethBalance st) st).

(** The external, state-changing functions of the contract. *)
Inductive Op :=
| OpDepositETH (value : Z)
| OpDepositToken (token amount : Z) (pulled : bool)
| OpGenerateDepositProof (depositId : Z)
| OpCompleteWithdrawal (user token amount proof : Z) (held : Z) (sent : bool)
| OpAddSupportedToken (token : Z)
| OpRemoveSupportedToken (token : Z)
| OpUpdateLayer2Bridge (newLayer2Bridge : Z)
| OpUpdateWithdrawalDelay (newWithdrawalDelay : Z)
| OpUpdateDepositLimits (newMinimumDeposit newMaximumDeposit : Z)
| OpPause
| OpUnpause
| OpEmergencyWithdraw (token amount : Z) (held : Z) (sent : bool)
| OpTransferOwnership (newOwner : Z)
| OpRenounceOwnership.

Definition isEmergencyWithdraw (op : Op) : bool :=
  match op with OpEmergencyWithdraw _ _ _ _ => true | _ => false end.

Definition exec (c : Call) (op : Op) (st : State) : Res State :=
  match op with
  | OpDepositETH v => depositETH c v st
  | OpDepositToken t a ok => depositToken c t a ok st
  | OpGenerateDepositProof i =>
      match generateDepositProof c i st with
      | Ok (_, st') => Ok st'
      | Throw msg => Throw msg
      end
  | OpCompleteWithdrawal u t a p h ok => completeWithdrawal c u t a p h ok st
  | OpAddSupportedToken t => addSupportedToken c t st
  | OpRemoveSupportedToken t => removeSupportedToken c t st
  | OpUpdateLayer2Bridge b => updateLayer2Bridge c b st
  | OpUpdateWithdrawalDelay d => updateWithdrawalDelay c d st
  | OpUpdateDepositLimits lo hi => updateDepositLimits c lo hi st
  | OpPause => pause c st
  | OpUnpause => unpause c st
  | OpEmergencyWithdraw t a h ok => emergencyWithdraw c t a h ok st
  | OpTransferOwnership a => transferOwnership c a st
  | OpRenounceOwnership => renounceOwnership c st
  end.

(** A reverted call leaves the storage as it was. *)
Definition step (call : Call * Op) (st : State) : State :=
  match exec (fst call) (snd call) st with
  | Ok st' => st'
  | Throw _ => st
  end.

Definition run (calls : list (Call * Op)) (st : State) : State :=
  fold_left (fun s call => step call s) calls st.

(** The limits stay within the constants, every stored deposit is of an
    amount within them, and its proof is zero until it is processed and the
    digest of its fields afterwards. *)
Definition depositsInvariant (st : State) : Prop :=
  MIN_DEPOSIT <= minimumDeposit st /\
  maximumDeposit st <= MAX_DEPOSIT /\
  withdrawalDelay st <= MAX_WITHDRAWAL_DELAY /\
  forall id d, deposits st !! id = Some d ->
    MIN_DEPOSIT <= DepositInfo.amount d <= MAX_DEPOSIT /\
    DepositInfo.proof d
    = (if DepositInfo.isProcessed d
       then keccakDepositProof id (DepositInfo.user d) (DepositInfo.token d)
              (DepositInfo.amount d) (DepositInfo.timestamp d)
       else 0).

End WithDigests.

End BridgeContract.

(** ** MerkleTree: the remaining methods *)

Module MerkleOps.

Import Merkle.

(** What [getStats] returns. *)
Record Stats := {
  leafCount : nat;
  treeHeight : nat;
  statsRoot : option TreeEntry;
  isEmpty : bool
}.

Definition getStats (t : MerkleTree) : Stats := {|
  leafCount := List.length (leaves t);
  treeHeight := List.length (tree t);
  statsRoot := root t;
  isEmpty := (List.length (leaves t) =? 0)%nat
|}.

(** [this.root?.substring(0, 16)] in a log line: undefined for null, a
    string for a string, and a TypeError for an array, which has no
    [substring]. *)
Definition rootSubstring (r : option TreeEntry) : Res unit :=
  match r with
  | Some (Level _) => Throw "TypeError: this.root?.substring is not a function"
  | _ => Ok ()
  end.

Section WithDigest.

Variable sha256 : Encoding -> string -> string.

(** [buildTree] as [addLeaf] calls it: [this.root] still holds the root
    from before, and past the two early returns the log line reads it. *)
Definition buildTreeLogged (t : MerkleTree) : Res (list TreeEntry) :=
  match leaves t with
  | [] => Ok []
  | [leaf] => Ok [Digest leaf]
  | _ =>
      match rootSubstring (root t) with
      | Ok _ => Ok (buildTree sha256 (leaves t))
      | Throw msg => Throw msg
      end
  end.

Definition addLeaf (data : string) (t : MerkleTree)
    : Res (option TreeEntry) * MerkleTree :=
  let newLeaf := hashLeaf sha256 data in
  let t1 := {| leaves := leaves t ++ [newLeaf]; tree := tree t; root := root t |} in
  match buildTreeLogged t1 with
  | Throw msg => (Throw msg, t1)
  | Ok tree' =>
      let t2 := {| leaves := leaves t1; tree := tree'; root := last tree' |} in
      match rootSubstring (root t2) with
      | Ok _ => (Ok (root t2), t2)
      | Throw msg => (Throw msg, t2)
      end
  end.

End WithDigest.

End MerkleOps.

(** ** RollupManager: the read methods and what the manager keeps *)

Module RollupOps.

Import Rollup.

(** What [getStats] returns. *)
Record Stats := {
  totalBatches : nat;
  pendingCount : nat;
  statsStateRoot : option string;
  statsBatchCounter : Z;
  statsSequencerAddress : string
}.

Definition getStats (st : RollupManager) : Stats := {|
  totalBatches := size (batches st);
  pendingCount := List.length (pendingTransactions st);
  statsStateRoot := stateRoot st;
  statsBatchCounter := batchCounter st;
  statsSequencerAddress := sequencerAddress st
|}.

(** [this.batches.get(batchId) || null]: a batch object is never falsy. *)
Definition getBatch (batchId : string) (st : RollupManager) : option Batch.t :=
  batches st !! batchId.

Fixpoint noUnderscore (s : string) : Prop :=
  match s with
  | EmptyString => True
  | String c s' => c <> "_"%char /\ noUnderscore s'
  end.

(** No batch is stored and none was counted. *)
Definition nothingStored (st : RollupManager) : Prop :=
  batches st = ∅ /\ batchCounter st = 0.

(** The queue is shorter than the batch size. *)
Definition queueInvariant (size : Z) (st : RollupManager) : Prop :=
  batchSize st = size /\
  Z.of_nat (List.length (pendingTransactions st)) < size.

(** The manager's root is null before [initialize] has succeeded and the
    zero hash afterwards. *)
Definition rootInvariant (st : RollupManager) : Prop :=
  match contract st with
  | None => stateRoot st = None
  | Some _ => stateRoot st = Some ZeroHash
  end.

End RollupOps.

(** ** CrossChainBridge: the read methods and what the bridge keeps *)

Module BridgeOps.

Import Bridge.

(** [this.deposits.get(depositId) || null]: a record is never falsy. *)
Definition getDeposit (depositId : string) (st : CrossChainBridge)
    : option Deposit.t :=
  deposits st !! depositId.

Definition getWithdrawal (withdrawalId : string) (st : CrossChainBridge)
    : option Withdrawal.t :=
  withdrawals st !! withdrawalId.

(** [array.slice(start)] for an integral [start]: a negative start counts
    from the end and stops at the first element, a start beyond the length
    gives the empty array. *)
Definition slice {A : Type} (start : Z) (l : list A) : list A :=
  let len := Z.of_nat (List.length l) in
  let k := if start <? 0 then Z.max (len + start) 0 else Z.min start len in
  skipn (Z.to_nat k) l.

(** [getBridgeEvents(limit)]: [this.bridgeEvents.slice(-limit)] *)
Definition getBridgeEvents (limit : Z) (st : CrossChainBridge) : list BridgeEvent :=
  slice (- limit) (bridgeEvents st).

Definition eventTypes : list string :=
  ["deposit_completed"; "withdrawal_initiated"; "withdrawal_completed"].

Definition depositOk (i : string) (d : Deposit.t) : Prop :=
  Deposit.id d = i /\
  10 ^ 15 <= Deposit.amount d <= 1000 * 10 ^ 18 /\
  (Deposit.status d = "completed" \/ Deposit.status d = "failed") /\
  (Deposit.status d = "completed" ->
   proofWellFormed (Deposit.proof d) = true /\
   is_Some (Deposit.layer1TxHash d) /\ is_Some (Deposit.layer2TxHash d)).

Definition withdrawalOk (i : string) (w : Withdrawal.t) : Prop :=
  Withdrawal.id w = i /\
  10 ^ 15 <= Withdrawal.amount w /\
  Withdrawal.unlockTime w = Withdrawal.timestamp w + 604800000 /\
  (Withdrawal.status w = "burned" \/ Withdrawal.status w = "failed" \/
   Withdrawal.status w = "completed") /\
  (Withdrawal.status w = "completed" ->
   proofWellFormed (Withdrawal.proof w) = true /\
   is_Some (Withdrawal.layer2TxHash w) /\ is_Some (Withdrawal.layer1TxHash w)) /\
  (Withdrawal.status w = "burned" ->
   is_Some (Withdrawal.proof w) /\
   is_Some (Withdrawal.layer2TxHash w) /\ Withdrawal.layer1TxHash w = None) /\
  (Withdrawal.status w = "failed" ->
   Withdrawal.proof w = None /\
   Withdrawal.layer2TxHash w = None /\ Withdrawal.layer1TxHash w = None).

(** What every state of a bridge satisfies, record by record. *)
Definition recordsInvariant (st : CrossChainBridge) : Prop :=
  minDepositAmount st = 10 ^ 15 /\
  maxDepositAmount st = 1000 * 10 ^ 18 /\
  withdrawalDelay st = 604800 /\
  (forall i d, deposits st !! i = Some d -> depositOk i d) /\
  (forall i w, withdrawals st !! i = Some w -> withdrawalOk i w) /\
  (List.length (bridgeEvents st) <= 1000)%nat /\
  Forall (fun e => In (type e) eventTypes) (bridgeEvents st).

End BridgeOps.

(** ** ValidatorManager: the read methods and what the registry keeps *)

Module ValidatorOps.

Import Validators.

(** [this.validators.get(address) || null] *)
Definition getValidator (address : string) (st : ValidatorManager)
    : option Validator :=
  validators st !! address.

(** [this.performance.get(address) || null] *)
Definition getPerformance (address : string) (st : ValidatorManager)
    : option Performance :=
  performance st !! address.

(** [this.validators.has(address) && this.validators.get(address).isActive] *)
Definition isValidator (address : string) (st : ValidatorManager) : bool :=
  match validators st !! address with
  | Some v => isActive v
  | None => false
  end.

(** The three tables hold the same addresses, and a validator is stored
    under its own address. *)
Definition registryInvariant (st : ValidatorManager) : Prop :=
  forall a,
    match validators st !! a with
    | Some v =>
        Validators.address v = a /\ isActive v = true /\
        stakes st !! a = Some (stake v) /\ is_Some (performance st !! a)
    | None => stakes st !! a = None /\ performance st !! a = None
    end.



End ValidatorOps.

(** ** RollupContract: what the storage keeps *)

Module RollupContractOps.

Import RollupContract.

(** The current state root is zero or the stateRoot of a batch that is
    finalized and not challenged. *)
Definition rootProvenance (st : State) : Prop :=
  currentStateRoot st = 0 \/
  exists i, i < batchCounter st /\
    isFinalized (batchAt st i) = true /\ isChallenged (batchAt st i) = false /\
    stateRoot (batchAt st i) = currentStateRoot st.

(** A registered validator has at least 1 ether recorded, an address that is
    not registered has none. *)
Definition stakesRecorded (st : State) : Prop :=
  MIN_STAKE <= minimumStake st /\
  forall a,
    if isValidator st a then MIN_STAKE <= getValidatorStake st a
    else getValidatorStake st a = 0.


End RollupContractOps.

(** ** ConsensusManager ([src/core/consensus.js], the governance votes) *)

Module Consensus.

Module VoteRecord.
Record t := { voter : string; vote : string; weight : Z; timestamp : Z }.
End VoteRecord.

Module Proposal.
(** [votesFor], [votesAgainst] and [votesAbstain] are the three counters of
    the [votes] property; [voters] is the Set of those who voted. *)
Record t := {
  id : string;
  proposer : string;
  title : string;
  description : string;
  type : string;
  parameters : gmap string JsValue;
  status : string;
  createdAt : Z;
  votingEndsAt : Z;
  votesFor : Z;
  votesAgainst : Z;
  votesAbstain : Z;
  totalVotes : Z;
  voters : gset string;
  executedAt : option Z
}.
End Proposal.

Record ConsensusManager := {
  proposals : gmap string Proposal.t;
  votes : gmap string (gmap string VoteRecord.t);
  proposalCounter : Z;
  votingPeriod : Z
}.

(** [new ConsensusManager()]; the quorum threshold is the constant 0.51. *)
Definition new : ConsensusManager := {|
  proposals := ∅;
  votes := ∅;
  proposalCounter := 0;
  votingPeriod := 7 * 24 * 60 * 60 * 1000
|}.

Definition generateProposalId (st : ConsensusManager) (now : Z) : string :=
  "proposal_" +:+ pretty (proposalCounter st) +:+ "_" +:+ pretty now.

Definition createProposal (proposer title description type : string)
    (parameters : gmap string JsValue) (now : Z) (st : ConsensusManager)
    : Res Proposal.t * ConsensusManager :=
  let proposalId := generateProposalId st now in
  let proposal := {|
    Proposal.id := proposalId;
    Proposal.proposer := proposer;
    Proposal.title := title;
    Proposal.description := description;
    Proposal.type := type;
    Proposal.parameters := parameters;
    Proposal.status := "active";
    Proposal.createdAt := now;
    Proposal.votingEndsAt := now + votingPeriod st;
    Proposal.votesFor := 0;
    Proposal.votesAgainst := 0;
    Proposal.votesAbstain := 0;
    Proposal.totalVotes := 0;
    Proposal.voters := ∅;
    Proposal.executedAt := None |} in
  (Ok proposal, {|
     proposals := <[proposalId := proposal]> (proposals st);
     votes := <[proposalId := ∅]> (votes st);
     proposalCounter := proposalCounter st + 1;
     votingPeriod := votingPeriod st |}).

Definition choices : list string := ["for"; "against"; "abstain"].

(** [proposal.votes[vote] += weight; proposal.totalVotes += weight;
    proposal.voters.add(voter)].  The sums are those of the integers, which
    are the sums of the code as long as they stay within 2^53 in size;
    beyond that a double rounds, and nothing below is stated of a sum. *)
Definition counted (p : Proposal.t) (voter choice : string) (weight : Z) : Proposal.t := {|
  Proposal.id := Proposal.id p;
  Proposal.proposer := Proposal.proposer p;
  Proposal.title := Proposal.title p;
  Proposal.description := Proposal.description p;
  Proposal.type := Proposal.type p;
  Proposal.parameters := Proposal.parameters p;
  Proposal.status := Proposal.status p;
  Proposal.createdAt := Proposal.createdAt p;
  Proposal.votingEndsAt := Proposal.votingEndsAt p;
  Proposal.votesFor :=
    if String.eqb choice "for" then Proposal.votesFor p + weight else Proposal.votesFor p;
  Proposal.votesAgainst :=
    if String.eqb choice "against" then Proposal.votesAgainst p + weight
    else Proposal.votesAgainst p;
  Proposal.votesAbstain :=
    if String.eqb choice "abstain" then Proposal.votesAbstain p + weight
    else Proposal.votesAbstain p;
  Proposal.totalVotes := Proposal.totalVotes p + weight;
  Proposal.voters := {[voter]} ∪ Proposal.voters p;
  Proposal.executedAt := Proposal.executedAt p |}.

Definition withStatus (p : Proposal.t) (s : string) (executed : option Z) : Proposal.t := {|
  Proposal.id := Proposal.id p;
  Proposal.proposer := Proposal.proposer p;
  Proposal.title := Proposal.title p;
  Proposal.description := Proposal.description p;
  Proposal.type := Proposal.type p;
  Proposal.parameters := Proposal.parameters p;
  Proposal.status := s;
  Proposal.createdAt := Proposal.createdAt p;
  Proposal.votingEndsAt := Proposal.votingEndsAt p;
  Proposal.votesFor := Proposal.votesFor p;
  Proposal.votesAgainst := Proposal.votesAgainst p;
  Proposal.votesAbstain := Proposal.votesAbstain p;
  Proposal.totalVotes := Proposal.totalVotes p;
  Proposal.voters := Proposal.voters p;
  Proposal.executedAt := executed |}.

Definition setProposal (proposalId : string) (p : Proposal.t) (st : ConsensusManager)
    : ConsensusManager := {|
  proposals := <[proposalId := p]> (proposals st);
  votes := votes st;
  proposalCounter := proposalCounter st;
  votingPeriod := votingPeriod st |}.

(** [vote]: every check comes before the first write.  The weight is not
    checked. *)
Definition vote (proposalId voter choice : string) (weight : Z) (now : Z)
    (st : ConsensusManager) : Res VoteRecord.t * ConsensusManager :=
  match proposals st !! proposalId with
  | None => (Throw "Proposal not found", st)
  | Some proposal =>
      if negb (String.eqb (Proposal.status proposal) "active")
      then (Throw "Proposal is not active", st)
      else if now >? Proposal.votingEndsAt proposal
      then (Throw "Voting period has ended", st)
      else if bool_decide (voter ∈ Proposal.voters proposal)
      then (Throw "Already voted on this proposal", st)
      else if negb (existsb (String.eqb choice) choices)
      then (Throw "Invalid vote choice", st)
      else
        let voteRecord := {|
          VoteRecord.voter := voter; VoteRecord.vote := choice;
          VoteRecord.weight := weight; VoteRecord.timestamp := now |} in
        match votes st !! proposalId with
        | None =>
            (Throw "TypeError: Cannot read properties of undefined (reading 'set')", st)
        | Some cast =>
            (Ok voteRecord, {|
               proposals := <[proposalId := counted proposal voter choice weight]>
                              (proposals st);
               votes := <[proposalId := <[voter := voteRecord]> cast]> (votes st);
               proposalCounter := proposalCounter st;
               votingPeriod := votingPeriod st |})
        end
  end.

(** The constant 0.51 is the double 4593671619917906 / 2^53.  A quotient of
    two doubles is rounded to the nearest double, ties to the even one, so
    it is at least that double exactly when the quotient before rounding is
    at least 9187343239835811 / 2^54, half a step below it. *)
Definition quorumBound : Z := 9187343239835811.

(** [forVotes / totalVotes >= 0.51] for a total that is not zero. *)
Definition reachesQuorum (forVotes totalVotes : Z) : bool :=
  if 0 <? totalVotes then quorumBound * totalVotes <=? 2 ^ 54 * forVotes
  else 2 ^ 54 * forVotes <=? quorumBound * totalVotes.

(** [checkProposalPassed] marks the proposal when it finds it passed. *)
Definition checkProposalPassed (proposalId : string) (st : ConsensusManager)
    : bool * ConsensusManager :=
  match proposals st !! proposalId with
  | None => (false, st)
  | Some proposal =>
      if negb (String.eqb (Proposal.status proposal) "active")
      then (String.eqb (Proposal.status proposal) "passed", st)
      else if Proposal.totalVotes proposal =? 0 then (false, st)
      else if reachesQuorum (Proposal.votesFor proposal) (Proposal.totalVotes proposal)
      then (true, setProposal proposalId
                    (withStatus proposal "passed" (Proposal.executedAt proposal)) st)
      else (false, st)
  end.

Definition proposalTypes : list string :=
  ["parameter_change"; "upgrade"; "funding"; "emergency"].

Record ExecutionResult := { success : bool; executed : string }.

(** [executeProposalByType]: the four mock executions return at once, any
    other type throws. *)
Definition executeProposalByType (proposal : Proposal.t) : Res ExecutionResult :=
  if existsb (String.eqb (Proposal.type proposal)) proposalTypes
  then Ok {| success := true; executed := Proposal.type proposal |}
  else Throw "Unknown proposal type".

Definition executeProposal (proposalId : string) (now : Z) (st : ConsensusManager)
    : Res ExecutionResult * ConsensusManager :=
  match proposals st !! proposalId with
  | None => (Throw "Proposal not found", st)
  | Some proposal =>
      if negb (String.eqb (Proposal.status proposal) "passed")
      then (Throw "Proposal has not passed", st)
      else match executeProposalByType proposal with
           | Throw msg => (Throw msg, st)
           | Ok result =>
               (Ok result,
                setProposal proposalId (withStatus proposal "executed" (Some now)) st)
           end
  end.

(** [this.proposals.get(proposalId) || null] *)
Definition getProposal (proposalId : string) (st : ConsensusManager)
    : option Proposal.t :=
  proposals st !! proposalId.

(** [getProposalVotes]: the records cast on a proposal, none for an id
    without a table. *)
Definition getProposalVotes (proposalId : string) (st : ConsensusManager)
    : list VoteRecord.t :=
  match votes st !! proposalId with
  | None => []
  | Some cast => map snd (map_to_list cast)
  end.

Inductive Op :=
| OpCreateProposal (proposer title description type : string)
    (parameters : gmap string JsValue) (now : Z)
| OpVote (proposalId voter choice : string) (weight : Z) (now : Z)
| OpCheckProposalPassed (proposalId : string)
| OpExecuteProposal (proposalId : string) (now : Z).

Definition step (op : Op) (st : ConsensusManager) : ConsensusManager :=
  match op with
  | OpCreateProposal a t d k ps now => snd (createProposal a t d k ps now st)
  | OpVote i v c w now => snd (vote i v c w now st)
  | OpCheckProposalPassed i => snd (checkProposalPassed i st)
  | OpExecuteProposal i now => snd (executeProposal i now st)
  end.

Definition run (ops : list Op) (st : ConsensusManager) : ConsensusManager :=
  fold_left (fun s op => step op s) ops st.

Definition reachable (st : ConsensusManager) : Prop := exists ops, st = run ops new.

Definition proposalIdOf (counter now : Z) : string :=
  "proposal_" +:+ pretty counter +:+ "_" +:+ pretty now.

(** What a proposal and the table of its votes satisfy. *)
Definition proposalOk (i : string) (p : Proposal.t) (cast : gmap string VoteRecord.t)
    : Prop :=
  Proposal.id p = i /\
  Proposal.votingEndsAt p = Proposal.createdAt p + 604800000 /\
  Proposal.totalVotes p
    = Proposal.votesFor p + Proposal.votesAgainst p + Proposal.votesAbstain p /\
  (Proposal.status p = "active" \/ Proposal.status p = "passed" \/
   Proposal.status p = "executed") /\
  (Proposal.status p = "executed" <-> is_Some (Proposal.executedAt p)) /\
  (forall v, v ∈ Proposal.voters p <-> is_Some (cast !! v)) /\
  (forall v r, cast !! v = Some r ->
     VoteRecord.voter r = v /\ In (VoteRecord.vote r) choices).

(** What every state of a manager satisfies. *)
Definition consensusInvariant (st : ConsensusManager) : Prop :=
  votingPeriod st = 604800000 /\
  0 <= proposalCounter st /\
  Z.of_nat (size (proposals st)) = proposalCounter st /\
  (forall i, proposals st !! i = None -> votes st !! i = None) /\
  forall i p, proposals st !! i = Some p ->
    (exists c now, 0 <= c < proposalCounter st /\ i = proposalIdOf c now) /\
    exists cast, votes st !! i = Some cast /\ proposalOk i p cast.

End Consensus.

(** ** Stand-ins for the library functions

    The properties below hold for every choice of the library functions;
    these simple ones serve to run the model on sample data. *)

Module Sample.

Definition sha256 (enc : Merkle.Encoding) (data : string) : string :=
  match enc with
  | Merkle.Utf8 => "u(" +:+ data +:+ ")"
  | Merkle.Hex => "h(" +:+ data +:+ ")"
  end.

(** A second stand-in for the digest, in hexadecimal digits as the real
    one: the hexadecimal text of the data, after a digit for the
    encoding. *)
Definition hexChar (n : N) : ascii :=
  nth (N.to_nat n) (list_ascii_of_string "0123456789abcdef") "f"%char.

Fixpoint hexOfString (s : string) : string :=
  match s with
  | EmptyString => EmptyString
  | String c rest =>
      String (hexChar (N_of_ascii c / 16))
        (String (hexChar (N_of_ascii c mod 16)) (hexOfString rest))
  end.

Definition sha256hex (enc : Merkle.Encoding) (data : string) : string :=
  match enc with
  | Merkle.Utf8 => String "0" (hexOfString data)
  | Merkle.Hex => String "1" (hexOfString data)
  end.

Definition JSON_stringify (o : gmap string JsValue) : string :=
  match o !! "id" with
  | Some (JStr i) => "{id:" +:+ i +:+ "}"
  | _ => "{}"
  end.

Definition toUtf8Bytes (s : string) : list Byte.byte := String.list_byte_of_string s.

Definition keccak256 (b : BytesLike) : string :=
  match b with
  | BStr s => "k(" +:+ s +:+ ")"
  | BBytes l => "k(" +:+ String.string_of_list_byte l +:+ ")"
  | _ => "k()"
  end.

Definition arg (b : BytesLike) : string :=
  match b with
  | BNull => "null"
  | BStr s => s
  | BArr l => String.concat "," l
  | BBytes l => String.string_of_list_byte l
  end.

Definition concat (l : list BytesLike) : string := String.concat "|" (map arg l).

(** Sample data: a configuration that batches every transaction, and a
    transaction with the six fields and a 132-character signature. *)
Definition sampleConfig : Rollup.Config := {|
  Rollup.cfg_sequencerAddress := "0x5e";
  Rollup.cfg_batchSize := 1;
  Rollup.cfg_batchTimeout := 10000;
  Rollup.cfg_maxGasPerBatch := 1000000 |}.

Definition sampleSignature : string :=
  "0xababababababababababababababababababababababababababababababababababababababababababababababababababababababababababababababababab".

Definition sampleTx : gmap string JsValue :=
  list_to_map [("from", JStr "0xa1"); ("to", JStr "0xb2"); ("value", JNum 5);
               ("data", JStr "0x"); ("nonce", JNum 1);
               ("signature", JStr sampleSignature)].

(** A manager after [initialize], with three transactions queued and a
    batch size of two. *)
Definition manager : Rollup.RollupManager := {|
  Rollup.batches := ∅;
  Rollup.pendingTransactions :=
    [Rollup.queued sampleTx 1 "a"; Rollup.queued sampleTx 2 "b";
     Rollup.queued sampleTx 3 "c"];
  Rollup.stateRoot := Some Rollup.ZeroHash;
  Rollup.batchCounter := 0;
  Rollup.contract := Some {| Rollup.address := "0xc0" |};
  Rollup.sequencerAddress := "0x5e";
  Rollup.batchSize := 2;
  Rollup.batchTimeout := 10000;
  Rollup.maxGasPerBatch := 1000000 |}.

Definition parseEther (amount : string) : option Z :=
  if String.eqb amount "5" then Some (5 * 10 ^ 18)
  else if String.eqb amount "0.0001" then Some (10 ^ 14)
  else None.

Definition keccak256_json (d : Bridge.ProofData) : string :=
  "0x00112233445566778899aabbccddeeff00112233445566778899aabbccddeeff".

(** Stand-in for [ethers.isAddress]: 0x and forty hexadecimal digits. *)
Definition isAddress (a : string) : bool :=
  isHexString a && Nat.eqb (String.length a) 42.

(** A bridge after [initialize] and one withdrawal of 5 ether at instant
    1000. *)
Definition bridge : Bridge.CrossChainBridge :=
  Bridge.run parseEther keccak256_json isAddress
    [Bridge.OpInitialize true "0x11" "0x22";
     Bridge.OpWithdraw "0xa1" None "5" ∅ 1000 "r" "r1"]
    Bridge.new.

(** A 130-character public key, and a registry with one validator. *)
Definition publicKey : string :=
  "0xabababababababababababababababababababababababababababababababababababababababababababababababababababababababababababababababab".

Definition registry : Validators.ValidatorManager :=
  Validators.run [Validators.OpRegister "0xa1" publicKey (2 * 10 ^ 18) 1000]
    (Validators.new None).

(** A deployed contract: owner 1, sequencer 2, a challenge period of 100
    seconds; then a batch submitted at time 10, a validator registered, the
    batch challenged at time 12 and finalized at time 200. *)
Definition deployed : RollupContract.State := {|
  RollupContract.batches := ∅;
  RollupContract.validators := ∅;
  RollupContract.validatorStakes := ∅;
  RollupContract.currentStateRoot := 0;
  RollupContract.batchCounter := 0;
  RollupContract.sequencerAddr := 2;
  RollupContract.challengePeriod := 100;
  RollupContract.minimumStake := 10 ^ 18;
  RollupContract.maxBatchSize := 1000;
  RollupContract.owner := 1;
  RollupContract.paused := false;
  RollupContract.balance := 0 |}.

Definition submitted : RollupContract.State :=
  RollupContract.run
    [({| RollupContract.sender := 2; RollupContract.blockTimestamp := 10 |},
      RollupContract.OpSubmitBatch 5 6 32);
     ({| RollupContract.sender := 3; RollupContract.blockTimestamp := 11 |},
      RollupContract.OpRegisterValidator (10 ^ 18))]
    deployed.

Definition challengedThenFinalized : list (RollupContract.Call * RollupContract.Op) :=
  [({| RollupContract.sender := 3; RollupContract.blockTimestamp := 12 |},
    RollupContract.OpChallengeBatch 0);
   ({| RollupContract.sender := 9; RollupContract.blockTimestamp := 200 |},
    RollupContract.OpFinalizeBatch 0)].

(** Two new batches with the same id and the same two transactions, in
    either order. *)
Definition batchAB : Rollup.Batch.t := {|
  Rollup.Batch.id := "batch_0_7";
  Rollup.Batch.transactions :=
    [Rollup.queued sampleTx 1 "a"; Rollup.queued sampleTx 2 "b"];
  Rollup.Batch.stateRoot := None; Rollup.Batch.merkleRoot := None;
  Rollup.Batch.timestamp := 7; Rollup.Batch.status := "pending";
  Rollup.Batch.gasUsed := 0; Rollup.Batch.layer1TxHash := None |}.

Definition batchBA : Rollup.Batch.t := {|
  Rollup.Batch.id := "batch_0_7";
  Rollup.Batch.transactions :=
    [Rollup.queued sampleTx 2 "b"; Rollup.queued sampleTx 1 "a"];
  Rollup.Batch.stateRoot := None; Rollup.Batch.merkleRoot := None;
  Rollup.Batch.timestamp := 9; Rollup.Batch.status := "pending";
  Rollup.Batch.gasUsed := 0; Rollup.Batch.layer1TxHash := None |}.

End Sample.

(** Further sample data: calls on the coordinator, the bridge and the
    registry, and a deployed bridge contract. *)
Module MoreSamples.

(** A manager that is initialised and then given one transaction, with a
    batch size of one: the queue is full at once and [createBatch] runs. *)
Definition rollupOps : list Rollup.Op :=
  [Rollup.OpInitialize true "0xc0";
   Rollup.OpAddTransaction Sample.sampleTx 5 "r" "s"].

Definition rollupManager : Rollup.RollupManager :=
  Rollup.run Sample.sha256hex Sample.JSON_stringify Sample.toUtf8Bytes
    Sample.keccak256 Sample.concat rollupOps (Rollup.new Sample.sampleConfig).

(** A bridge after [initialize], a deposit of 5 ether at instant 2000 and a
    withdrawal of 5 ether at instant 3000. *)
Definition bridgeOps : list Bridge.Op :=
  [Bridge.OpInitialize true "0x11" "0x22";
   Bridge.OpDeposit "0xa1" None "5" ∅ 2000 "d" "d1" "d2";
   Bridge.OpWithdraw "0xa1" None "5" ∅ 3000 "w" "w1"].

Definition bridge : Bridge.CrossChainBridge :=
  Bridge.run Sample.parseEther Sample.keccak256_json Sample.isAddress bridgeOps Bridge.new.

Definition initialized : Bridge.CrossChainBridge :=
  Bridge.run Sample.parseEther Sample.keccak256_json Sample.isAddress
    [Bridge.OpInitialize true "0x11" "0x22"] Bridge.new.

(** A registry with one validator and two batches counted for it. *)
Definition registryOps : list Validators.Op :=
  [Validators.OpRegister "0xa1" Sample.publicKey (2 * 10 ^ 18) 1000;
   Validators.OpUpdatePerformance "0xa1" true;
   Validators.OpUpdatePerformance "0xa1" false].

(** Calls on the rollup contract: its constructor's caller is 1, the
    sequencer 2 and validator 3. *)
Definition owner1 : RollupContract.Call :=
  {| RollupContract.sender := 1; RollupContract.blockTimestamp := 0 |}.

Definition finalizedUnchallenged : list (RollupContract.Call * RollupContract.Op) :=
  [({| RollupContract.sender := 2; RollupContract.blockTimestamp := 10 |},
    RollupContract.OpSubmitBatch 5 6 32);
   ({| RollupContract.sender := 3; RollupContract.blockTimestamp := 11 |},
    RollupContract.OpRegisterValidator (10 ^ 18));
   ({| RollupContract.sender := 9; RollupContract.blockTimestamp := 200 |},
    RollupContract.OpFinalizeBatch 0)].

Definition byOthers : list (RollupContract.Call * RollupContract.Op) :=
  [({| RollupContract.sender := 2; RollupContract.blockTimestamp := 10 |},
    RollupContract.OpSubmitBatch 5 6 32);
   ({| RollupContract.sender := 3; RollupContract.blockTimestamp := 11 |},
    RollupContract.OpUpdateSequencer 3);
   ({| RollupContract.sender := 3; RollupContract.blockTimestamp := 12 |},
    RollupContract.OpPause)].

Definition pausedContract : RollupContract.State :=
  RollupContract.run [(owner1, RollupContract.OpPause)] Sample.submitted.

Definition whilePaused : list (RollupContract.Call * RollupContract.Op) :=
  [({| RollupContract.sender := 2; RollupContract.blockTimestamp := 20 |},
    RollupContract.OpSubmitBatch 7 8 32);
   ({| RollupContract.sender := 9; RollupContract.blockTimestamp := 200 |},
    RollupContract.OpFinalizeBatch 0);
   (owner1, RollupContract.OpUpdateSequencer 4)].

(** Stand-ins for the digests of the bridge contract. *)
Definition keccakId (time sender counter blockhash : Z) : Z := counter + 1.
Definition keccakDepositProof (id user token amount time : Z) : Z :=
  id + user + token + amount + time + 1.
Definition keccakWithdrawalProof (user token amount time : Z) : Z :=
  user + token + amount + time + 1.

(** A bridge contract deployed by 1 for the layer-2 bridge 2, with a delay
    of 100 seconds and limits of 0.001 and 1000 ether; then a deposit of
    1 ether by 7. *)
Definition bridgeOwner : BridgeContract.Call :=
  {| BridgeContract.sender := 1; BridgeContract.blockTimestamp := 0;
     BridgeContract.previousBlockhash := 0 |}.

Definition layer2 : BridgeContract.Call :=
  {| BridgeContract.sender := 2; BridgeContract.blockTimestamp := 500;
     BridgeContract.previousBlockhash := 0 |}.

Definition bridgeDeployed : BridgeContract.State := {|
  BridgeContract.deposits := ∅;
  BridgeContract.withdrawals := ∅;
  BridgeContract.supportedTokens := ∅;
  BridgeContract.tokenBalances := ∅;
  BridgeContract.layer2Bridge := 2;
  BridgeContract.withdrawalDelay := 100;
  BridgeContract.minimumDeposit := 10 ^ 15;
  BridgeContract.maximumDeposit := 1000 * 10 ^ 18;
  BridgeContract.depositCounter := 0;
  BridgeContract.withdrawalCounter := 0;
  BridgeContract.owner := 1;
  BridgeContract.paused := false;
  BridgeContract.ethBalance := 0 |}.

Definition bridgeCalls : list (BridgeContract.Call * BridgeContract.Op) :=
  [({| BridgeContract.sender := 7; BridgeContract.blockTimestamp := 50;
       BridgeContract.previousBlockhash := 0 |},
    BridgeContract.OpDepositETH (10 ^ 18));
   (layer2, BridgeContract.OpCompleteWithdrawal 7 0 (10 ^ 18) 5 0 true)].

Definition bridgeContract : BridgeContract.State :=
  BridgeContract.run keccakId keccakDepositProof keccakWithdrawalProof
    bridgeCalls bridgeDeployed.

(** A manager with one proposal, made at instant 1000, on which one vote in
    favour is cast at instant 2000. *)
Definition consensusOps : list Consensus.Op :=
  [Consensus.OpCreateProposal "0xa1" "Batch size" "Raise the batch size"
     "parameter_change" ∅ 1000;
   Consensus.OpVote "proposal_0_1000" "0xb2" "for" 3 2000].

Definition proposed : Consensus.ConsensusManager :=
  Consensus.run (firstn 1 consensusOps) Consensus.new.

Definition voted : Consensus.ConsensusManager :=
  Consensus.run consensusOps Consensus.new.

Definition passed : Consensus.ConsensusManager :=
  Consensus.run (consensusOps ++ [Consensus.OpCheckProposalPassed "proposal_0_1000"])
    Consensus.new.

End MoreSamples.

(** * Properties *)

(** ** String order *)

Lemma jsStrLt_total (a b : string) :
  jsStrLt a b = false -> jsStrLt b a = false -> a = b.
Proof.
  unfold jsStrLt, String.ltb. intros Hab Hba.
  destruct (String.compare a b) eqn:E.
  - now apply String.compare_eq_iff.
  - discriminate.
  - rewrite String.compare_antisym, E in Hba. discriminate.
Qed.

Lemma jsStrLt_asym (a b : string) : jsStrLt a b = true -> jsStrLt b a = false.
Proof.
  unfold jsStrLt, String.ltb. rewrite (String.compare_antisym b a).
  destruct (String.compare a b); simpl; congruence.
Qed.

(** ** MerkleTree *)

Section MerkleFacts.

Variable sha256 : Merkle.Encoding -> string -> string.

Local Abbreviation hashLeaf := (Merkle.hashLeaf sha256).
Local Abbreviation hashNodes := (Merkle.hashNodes sha256).
Local Abbreviation nextLevel := (Merkle.nextLevel sha256).
Local Abbreviation buildLoop := (Merkle.buildLoop sha256).
Local Abbreviation buildTree := (Merkle.buildTree sha256).

Lemma list_pair_ind {A} (P : list A -> Prop) :
  P [] -> (forall a, P [a]) -> (forall a b l, P l -> P (a :: b :: l)) ->
  forall l, P l.
Proof.
  intros H0 H1 H2 l.
  assert (H : P l /\ forall a, P (a :: l)).
  { induction l as [|x l [IH1 IH2]]; split; auto. }
  apply H.
Qed.

(** The pairing rule does not depend on the order of the two children. *)
Lemma hashNodes_comm (a b : string) : hashNodes a b = hashNodes b a.
Proof.
  unfold Merkle.hashNodes.
  destruct (jsStrLt a b) eqn:Hab.
  - now rewrite (jsStrLt_asym _ _ Hab).
  - destruct (jsStrLt b a) eqn:Hba; [reflexivity|].
    now rewrite (jsStrLt_total _ _ Hab Hba).
Qed.

Lemma nextLevel_length (l : list string) :
  List.length (nextLevel l) = Nat.div2 (S (List.length l)).
Proof.
  induction l as [|a|a b l IH] using list_pair_ind; simpl; auto.
Qed.

Lemma div2_S_le (n : nat) : (2 <= n -> Nat.div2 (S n) <= n - 1)%nat.
Proof.
  intros H. rewrite Nat.div2_div.
  assert (S n / 2 < n)%nat by (apply Nat.Div0.div_lt_upper_bound; lia).
  lia.
Qed.

Lemma div2_S_pos (n : nat) : (1 <= n -> 1 <= Nat.div2 (S n))%nat.
Proof.
  intros H. destruct n as [|[|n]]; simpl; lia.
Qed.

(** The loop of [buildTree] ends: with as many iterations as there are
    leaves, the last level pushed holds exactly one digest. *)
Lemma buildLoop_last (fuel : nat) (cur : list string) :
  (List.length cur <= fuel)%nat -> (1 <= List.length cur)%nat ->
  exists h, last (cur :: buildLoop fuel cur) = Some [h].
Proof.
  revert cur. induction fuel as [|fuel IH]; intros cur Hf Hpos; [lia|].
  simpl. destruct (1 <? List.length cur)%nat eqn:E.
  - apply Nat.ltb_lt in E.
    destruct (IH (nextLevel cur)) as [h Hh].
    + rewrite nextLevel_length. pose proof (div2_S_le (List.length cur)). lia.
    + rewrite nextLevel_length. apply div2_S_pos. lia.
    + exists h. exact Hh.
  - apply Nat.ltb_ge in E.
    destruct cur as [|h [|? ?]]; simpl in *; try lia.
    now exists h.
Qed.

Lemma last_map {A B} (f : A -> B) (l : list A) : last (map f l) = f <$> last l.
Proof.
  induction l as [|a [|b l] IH]; simpl in *; auto.
Qed.

(** From two leaves on, [this.root] is the last level of the tree, an array
    holding one digest, and not that digest. *)
Lemma root_is_level (data : list string) :
  (2 <= List.length data)%nat ->
  exists h, Merkle.getRoot (Merkle.new sha256 data) = Some (Merkle.Level [h]).
Proof.
  intros Hlen. unfold Merkle.getRoot, Merkle.new. simpl.
  remember (map hashLeaf data) as lv eqn:Elv.
  assert (Hl : (2 <= List.length lv)%nat) by (subst; now rewrite length_map).
  destruct lv as [|a [|b lv]]; simpl in Hl; try lia.
  unfold Merkle.buildTree.
  destruct (buildLoop_last (List.length (a :: b :: lv)) (a :: b :: lv)) as [h Hh];
    [lia | simpl; lia |].
  exists h. rewrite last_map, Hh. reflexivity.
Qed.

Lemma getProof_in_range (t : Merkle.MerkleTree) (i : Z) :
  0 <= i < Z.of_nat (List.length (Merkle.leaves t)) ->
  Merkle.getProof t i = Ok (Merkle.proofLoop (Merkle.tree t) (Z.to_nat i)).
Proof.
  intros [H0 H1]. unfold Merkle.getProof.
  destruct (i <? 0) eqn:E0; [apply Z.ltb_lt in E0; lia|].
  destruct (i >=? _) eqn:E1; [|reflexivity].
  apply Z.geb_le in E1. lia.
Qed.

(** With a single leaf the tree is that digest, the proof is empty and the
    verification succeeds. *)
Lemma single_leaf_verifies (x : string) :
  Merkle.getProof (Merkle.new sha256 [x]) 0 = Ok [] /\
  Merkle.verifyProof sha256 (hashLeaf x) [] (Merkle.getRoot (Merkle.new sha256 [x]))
    = Ok true.
Proof.
  split; [reflexivity|].
  unfold Merkle.verifyProof, Merkle.getRoot, Merkle.new. simpl.
  now rewrite String.eqb_refl.
Qed.

(** C1, code against claim.  For every list of two or more leaves and every
    valid index, [getProof] returns a proof, the root that building the tree
    produced is a one-element level and not a digest, and [verifyProof] of
    the leaf against that root throws: it never returns true. *)
Theorem verifyProof_built_root_throws (data : list string) (i : Z) :
  (2 <= List.length data)%nat ->
  0 <= i < Z.of_nat (List.length data) ->
  let t := Merkle.new sha256 data in
  exists proof h,
    Merkle.getProof t i = Ok proof /\
    Merkle.getRoot t = Some (Merkle.Level [h]) /\
    Merkle.verifyProof sha256 (hashLeaf (nth (Z.to_nat i) data "")) proof (Merkle.getRoot t)
      = Throw "TypeError: root.substring is not a function".
Proof.
  intros Hlen Hi t.
  destruct (root_is_level data Hlen) as [h Hh].
  exists (Merkle.proofLoop (Merkle.tree t) (Z.to_nat i)), h.
  split; [|split].
  - apply getProof_in_range. subst t. simpl. now rewrite length_map.
  - exact Hh.
  - subst t. unfold Merkle.verifyProof. now rewrite Hh.
Qed.

(** The trailing leaf of three.  [buildTree] pairs it with itself, but
    [getProof] records no sibling at that level: the proof folds to
    [hashNodes (hashNodes ha hb) hc] while the digest at the top is
    [hashNodes (hashNodes ha hb) (hashNodes hc hc)]. *)
Lemma trailing_leaf_of_three (a b c : string) :
  let t := Merkle.new sha256 [a; b; c] in
  let ha := hashLeaf a in
  let hb := hashLeaf b in
  let hc := hashLeaf c in
  Merkle.getProof t 2
    = Ok [{| Merkle.hash := hashNodes ha hb; Merkle.position := "left" |}] /\
  Merkle.foldProof sha256 hc
      [{| Merkle.hash := hashNodes ha hb; Merkle.position := "left" |}]
    = hashNodes (hashNodes ha hb) hc /\
  Merkle.topDigest t = Some (hashNodes (hashNodes ha hb) (hashNodes hc hc)).
Proof.
  repeat split.
Qed.

(** Exchanging the two leaves of a pair (positions 2k and 2k+1) changes
    nothing above the leaf level. *)
Lemma nextLevel_swap (l1 l2 : list string) (a b : string) :
  Nat.even (List.length l1) = true ->
  nextLevel (l1 ++ a :: b :: l2) = nextLevel (l1 ++ b :: a :: l2).
Proof.
  induction l1 as [|x|x y l1 IH] using list_pair_ind; intros He.
  - simpl. now rewrite hashNodes_comm.
  - discriminate.
  - simpl. f_equal. apply IH. exact He.
Qed.

(** From two leaves on, the root is read off the levels above the leaves. *)
Lemma root_from_next (lv : list string) :
  (2 <= List.length lv)%nat ->
  last (buildTree lv)
  = Merkle.Level <$> last (nextLevel lv :: buildLoop (List.length lv - 1) (nextLevel lv)).
Proof.
  intros Hlen. destruct lv as [|x [|y lv]]; simpl in Hlen; try lia.
  unfold Merkle.buildTree. rewrite last_map.
  replace (List.length (x :: y :: lv) - 1)%nat with (S (List.length lv)) by (simpl; lia).
  reflexivity.
Qed.

Lemma root_swap (l1 l2 : list string) (a b : string) :
  Nat.even (List.length l1) = true ->
  Merkle.getRoot (Merkle.new sha256 (l1 ++ a :: b :: l2))
  = Merkle.getRoot (Merkle.new sha256 (l1 ++ b :: a :: l2)).
Proof.
  intros He. unfold Merkle.getRoot, Merkle.new. simpl.
  rewrite !map_app. simpl.
  rewrite !root_from_next by (rewrite length_app; simpl; lia).
  rewrite nextLevel_swap by now rewrite length_map.
  rewrite !length_app. reflexivity.
Qed.

End MerkleFacts.

(** ** Bytes *)

(** Text of hexadecimal digits does not start with 0x and so is no hex
    string for [ethers]. *)
Lemma hexDigits_not_hexString (s : string) :
  hexDigits s = true -> isHexString s = false.
Proof.
  destruct s as [|a [|b r]]; simpl; try reflexivity.
  intros H. destruct (Ascii.eqb b "x") eqn:E.
  - apply Ascii.eqb_eq in E. subst b. simpl in H.
    rewrite andb_false_r in H. discriminate.
  - now rewrite andb_false_r.
Qed.

Lemma hexChar_digit (n : N) : isHexDigit (Sample.hexChar n) = true.
Proof.
  unfold Sample.hexChar. generalize (N.to_nat n) as m. intros m.
  do 16 (destruct m as [|m]; [reflexivity|]). destruct m; reflexivity.
Qed.

Lemma sample_digest_hex (enc : Merkle.Encoding) (data : string) :
  hexDigits (Sample.sha256hex enc data) = true.
Proof.
  assert (H : hexDigits (Sample.hexOfString data) = true).
  { induction data as [|c r IH]; [reflexivity|].
    cbn [Sample.hexOfString hexDigits]. now rewrite !hexChar_digit, IH. }
  destruct enc; simpl; exact H.
Qed.

(** ** RollupManager *)

Section RollupFacts.

Variable sha256 : Merkle.Encoding -> string -> string.
Variable JSON_stringify : gmap string JsValue -> string.
Variable toUtf8Bytes : string -> list Byte.byte.
Variable keccak256 : BytesLike -> string.
Variable concat : list BytesLike -> string.

(** [digest('hex')] returns text of hexadecimal digits. *)
Hypothesis digest_hex : forall enc data, hexDigits (sha256 enc data) = true.

Local Abbreviation commitment := (Rollup.commitment JSON_stringify toUtf8Bytes keccak256).
Local Abbreviation calculateBatchRoots :=
  (Rollup.calculateBatchRoots sha256 JSON_stringify toUtf8Bytes keccak256 concat).
Local Abbreviation createBatch :=
  (Rollup.createBatch sha256 JSON_stringify toUtf8Bytes keccak256 concat).
Local Abbreviation addTransaction :=
  (Rollup.addTransaction sha256 JSON_stringify toUtf8Bytes keccak256 concat).
Local Abbreviation step :=
  (Rollup.step sha256 JSON_stringify toUtf8Bytes keccak256 concat).
Local Abbreviation run :=
  (Rollup.run sha256 JSON_stringify toUtf8Bytes keccak256 concat).

(** *** Validation *)

Lemma validate_falsy_field (tx : gmap string JsValue) (f : string) :
  In f Rollup.requiredFields -> truthy (getField tx f) = false ->
  Rollup.validateTransaction tx = false.
Proof.
  intros Hin Hf. unfold Rollup.validateTransaction.
  assert (E : existsb (fun field => negb (truthy (getField tx field)))
                Rollup.requiredFields = true).
  { apply existsb_exists. exists f. split; [exact Hin|]. now rewrite Hf. }
  now rewrite E.
Qed.

Lemma validate_missing_field (tx : gmap string JsValue) (f : string) :
  In f Rollup.requiredFields -> tx !! f = None ->
  Rollup.validateTransaction tx = false.
Proof.
  intros Hin Hnone. apply (validate_falsy_field tx f Hin).
  unfold getField. now rewrite Hnone.
Qed.

Lemma validate_bad_signature (tx : gmap string JsValue) :
  truthy (Rollup.verifySignature tx) = false ->
  Rollup.validateTransaction tx = false.
Proof.
  intros Hs. unfold Rollup.validateTransaction.
  destruct (existsb _ _); [reflexivity|]. now rewrite Hs.
Qed.

Lemma addTransaction_invalid tx now rnd rnd1 st :
  Rollup.validateTransaction tx = false ->
  addTransaction tx now rnd rnd1 st = (Throw "Invalid transaction", st).
Proof.
  intros Hv. unfold Rollup.addTransaction. now rewrite Hv.
Qed.

(** *** calculateBatchRoots *)

(** What [getRoot] returns is never bytes: null for no leaf, the digest of
    the one leaf, in hexadecimal digits without 0x, and an array from two
    leaves on. *)
Lemma merkleRoot_not_bytes (hashes : list string) :
  isBytesLike (Rollup.entryArg (Merkle.getRoot (Merkle.new sha256 hashes))) = false.
Proof.
  destruct hashes as [|x [|y rest]].
  - reflexivity.
  - simpl. apply hexDigits_not_hexString, digest_hex.
  - destruct (root_is_level sha256 (x :: y :: rest)) as [h Hh]; [simpl; lia|].
    now rewrite Hh.
Qed.

(** So [calculateBatchRoots] throws on every batch, having written the
    merkleRoot of the batch and nothing else. *)
Lemma calculateBatchRoots_throws (batch : Rollup.Batch.t) (st : Rollup.RollupManager) :
  calculateBatchRoots batch st
  = (Throw "invalid BytesLike value",
     Rollup.withRoots batch
       (Merkle.getRoot (Merkle.new sha256 (map commitment (Rollup.Batch.transactions batch))))
       (Rollup.Batch.stateRoot batch)).
Proof.
  unfold Rollup.calculateBatchRoots. cbv zeta.
  cbn [forallb Rollup.withRoots Rollup.Batch.merkleRoot Rollup.Batch.id].
  rewrite merkleRoot_not_bytes, andb_false_r. reflexivity.
Qed.

(** *** createBatch *)

Lemma length_zero_iff_nil {A} (l : list A) :
  (List.length l =? 0)%nat = true <-> l = [].
Proof.
  destruct l; simpl; split; intros H; congruence.
Qed.

Lemma createBatch_nonempty (now : Z) (rnd : string) (st : Rollup.RollupManager) :
  Rollup.pendingTransactions st <> [] ->
  createBatch now rnd st
  = (Throw "invalid BytesLike value",
     Rollup.setPending
       (skipn (Z.to_nat (Rollup.batchSize st)) (Rollup.pendingTransactions st)) st).
Proof.
  intros Hq. unfold Rollup.createBatch.
  destruct (List.length (Rollup.pendingTransactions st) =? 0)%nat eqn:E.
  { apply length_zero_iff_nil in E. contradiction. }
  cbv zeta. now rewrite calculateBatchRoots_throws.
Qed.

(** C3, where the code falls short of it.  On an empty queue [createBatch]
    returns with the state as it was.  On a non-empty queue it takes the
    first min(batchSize, queue length) transactions off the queue and then
    throws in [calculateBatchRoots], where [ethers.concat] is handed a
    Merkle root that is not bytes: the transactions taken are in no batch
    and no longer in the queue, no batch is stored, the counter and the
    manager's root are as before and nothing is submitted. *)
Theorem createBatch_throws_after_the_splice (now : Z) (rnd : string)
    (st : Rollup.RollupManager) :
  (Rollup.pendingTransactions st = [] -> createBatch now rnd st = (Ok (), st)) /\
  (Rollup.pendingTransactions st <> [] ->
   let queue := Rollup.pendingTransactions st in
   let n := Z.to_nat (Z.min (Rollup.batchSize st) (Z.of_nat (List.length queue))) in
   let st' := snd (createBatch now rnd st) in
   createBatch now rnd st
   = (Throw "invalid BytesLike value", Rollup.setPending (skipn n queue) st) /\
   queue = firstn n queue ++ Rollup.pendingTransactions st' /\
   Rollup.batches st' = Rollup.batches st /\
   Rollup.batchCounter st' = Rollup.batchCounter st /\
   Rollup.stateRoot st' = Rollup.stateRoot st /\
   Rollup.contract st' = Rollup.contract st).
Proof.
  split.
  - intros Hq. unfold Rollup.createBatch. now rewrite Hq.
  - intros Hq queue n st'.
    assert (Hn : skipn n queue = skipn (Z.to_nat (Rollup.batchSize st)) queue).
    { subst n. destruct (Z.le_gt_cases (Rollup.batchSize st) (Z.of_nat (List.length queue))).
      - now rewrite Z.min_l by lia.
      - rewrite Z.min_r by lia. rewrite Nat2Z.id.
        rewrite skipn_all. now rewrite skipn_all2 by lia. }
    subst st'. rewrite (createBatch_nonempty now rnd st Hq). fold queue. rewrite <- Hn.
    split; [reflexivity|]. simpl.
    split; [now rewrite firstn_skipn|]. repeat split.
Qed.

(** *** addTransaction *)

Lemma queued_fields (tx : gmap string JsValue) (now : Z) (rnd : string) :
  Rollup.queued tx now rnd !! "id" = Some (JStr (Rollup.generateTransactionId now rnd)) /\
  Rollup.queued tx now rnd !! "timestamp" = Some (JNum now) /\
  Rollup.queued tx now rnd !! "status" = Some (JStr "pending") /\
  forall f, f <> "id" -> f <> "timestamp" -> f <> "status" ->
    Rollup.queued tx now rnd !! f = tx !! f.
Proof.
  unfold Rollup.queued. repeat split.
  - rewrite lookup_insert_ne by discriminate.
    rewrite lookup_insert_ne by discriminate. apply lookup_insert_eq.
  - rewrite lookup_insert_ne by discriminate. apply lookup_insert_eq.
  - apply lookup_insert_eq.
  - intros f H1 H2 H3. now rewrite !lookup_insert_ne by congruence.
Qed.

(** C5.  A transaction that misses one of the six fields, or whose signature
    fails the well-formedness check, is rejected with the state, and so the
    pending queue, as it was.  A valid transaction is put at the end of the
    queue as it is, but for its id, its timestamp and its status, which are
    set.  When the queue is then still shorter than batchSize the call
    returns, and this is the only way it returns: then the queue is the old
    one followed by the new transaction and nothing else has changed.  When
    the queue has reached batchSize, [createBatch] runs on it, and throws
    having taken the first batchSize transactions off. *)
Theorem addTransaction_spec (tx : gmap string JsValue) (now : Z) (rnd rnd1 : string)
    (st : Rollup.RollupManager) :
  ((exists f, In f Rollup.requiredFields /\ tx !! f = None) \/
   truthy (Rollup.verifySignature tx) = false ->
   addTransaction tx now rnd rnd1 st = (Throw "Invalid transaction", st)) /\
  (Rollup.validateTransaction tx = true ->
   forall entry, entry = Rollup.queued tx now rnd ->
   let appended := Rollup.pendingTransactions st ++ [entry] in
   let st1 := Rollup.setPending appended st in
   let res := addTransaction tx now rnd rnd1 st in
   entry !! "id" = Some (JStr (Rollup.generateTransactionId now rnd)) /\
   entry !! "timestamp" = Some (JNum now) /\
   entry !! "status" = Some (JStr "pending") /\
   (forall f, f <> "id" -> f <> "timestamp" -> f <> "status" -> entry !! f = tx !! f) /\
   (Z.of_nat (List.length appended) < Rollup.batchSize st -> res = (Ok (), st1)) /\
   (Rollup.batchSize st <= Z.of_nat (List.length appended) ->
    res = createBatch now rnd1 st1 /\
    res = (Throw "invalid BytesLike value",
           Rollup.setPending (skipn (Z.to_nat (Rollup.batchSize st)) appended) st)) /\
   (forall st', res = (Ok (), st') ->
      Rollup.pendingTransactions st' = Rollup.pendingTransactions st ++ [entry] /\
      st' = st1) /\
   exists drained,
     drained ++ Rollup.pendingTransactions (snd res) = appended).
Proof.
  split.
  - intros [[f [Hin Hnone]]|Hsig]; apply addTransaction_invalid.
    + now apply (validate_missing_field tx f).
    + now apply validate_bad_signature.
  - intros Hv entry -> appended st1 res.
    destruct (queued_fields tx now rnd) as (Hid & Hts & Hst & Hrest).
    split; [exact Hid|]. split; [exact Hts|]. split; [exact Hst|].
    split; [exact Hrest|].
    assert (Hne : Rollup.pendingTransactions st1 <> []).
    { simpl. unfold appended. destruct (Rollup.pendingTransactions st); discriminate. }
    pose proof (createBatch_nonempty now rnd1 st1 Hne) as Hcreate.
    change (Rollup.setPending _ st1)
      with (Rollup.setPending (skipn (Z.to_nat (Rollup.batchSize st)) appended) st)
      in Hcreate.
    subst res. unfold Rollup.addTransaction. rewrite Hv. simpl negb. cbv iota zeta.
    fold appended. fold st1.
    change (Rollup.pendingTransactions st1) with appended.
    change (Rollup.batchSize st1) with (Rollup.batchSize st).
    destruct (Z.of_nat (List.length appended) >=? Rollup.batchSize st) eqn:E.
    + apply Z.geb_le in E. rewrite Hcreate.
      split; [intros Hlt; lia|]. split; [auto|]. split; [discriminate|].
      exists (firstn (Z.to_nat (Rollup.batchSize st)) appended). simpl.
      apply firstn_skipn.
    + rewrite Z.geb_leb in E. apply Z.leb_gt in E.
      split; [reflexivity|]. split; [intros Hle; lia|].
      split; [intros st' [= <-]; auto|].
      exists []. reflexivity.
Qed.

(** C10.  A required field that is present but falsy makes [addTransaction]
    reject the transaction with the state as it was; in particular a
    transaction whose value is 0, or whose nonce is 0, is rejected. *)
Theorem addTransaction_rejects_falsy_field (tx : gmap string JsValue)
    (now : Z) (rnd rnd1 : string) (st : Rollup.RollupManager) :
  (forall f v, In f Rollup.requiredFields -> tx !! f = Some v -> truthy v = false ->
     addTransaction tx now rnd rnd1 st = (Throw "Invalid transaction", st)) /\
  (tx !! "value" = Some (JNum 0) \/ tx !! "nonce" = Some (JNum 0) ->
     addTransaction tx now rnd rnd1 st = (Throw "Invalid transaction", st)).
Proof.
  assert (H : forall f v, In f Rollup.requiredFields -> tx !! f = Some v ->
                truthy v = false ->
                addTransaction tx now rnd rnd1 st = (Throw "Invalid transaction", st)).
  { intros f v Hin Hf Hv. apply addTransaction_invalid.
    apply (validate_falsy_field tx f Hin). unfold getField. now rewrite Hf. }
  split; [exact H|].
  intros [Hv|Hn].
  - apply (H "value" (JNum 0)); [unfold Rollup.requiredFields; simpl; tauto | exact Hv | reflexivity].
  - apply (H "nonce" (JNum 0)); [unfold Rollup.requiredFields; simpl; tauto | exact Hn | reflexivity].
Qed.

(** *** Batch status *)

Lemma sampleTx_valid : Rollup.validateTransaction Sample.sampleTx = true.
Proof. vm_compute. reflexivity. Qed.


(** *** Reordering *)

(** C4, as the code has it.  The merkleRoot that [calculateBatchRoots]
    writes on a batch is the root of the Merkle tree over the commitments
    of its transactions in their order: it is the same for two batches
    whose transactions have the same commitments in the same order,
    whatever their ids and the manager's state.  And a reordering need not
    change it: exchanging the two leaves of a pair (positions 2k and 2k+1)
    leaves the root of a Merkle tree, and so the merkleRoot of a batch, as
    it was. *)
Theorem merkleRoot_pair_swap :
  (forall b st,
     Rollup.Batch.merkleRoot (snd (calculateBatchRoots b st))
     = Merkle.getRoot
         (Merkle.new sha256
            (map (fun tx => keccak256 (BBytes (toUtf8Bytes (JSON_stringify tx))))
               (Rollup.Batch.transactions b)))) /\
  (forall b1 b2 st1 st2,
     map commitment (Rollup.Batch.transactions b1)
     = map commitment (Rollup.Batch.transactions b2) ->
     Rollup.Batch.merkleRoot (snd (calculateBatchRoots b1 st1))
     = Rollup.Batch.merkleRoot (snd (calculateBatchRoots b2 st2))) /\
  (forall (l1 l2 : list string) (x y : string),
     Nat.even (List.length l1) = true ->
     Merkle.getRoot (Merkle.new sha256 (l1 ++ x :: y :: l2))
     = Merkle.getRoot (Merkle.new sha256 (l1 ++ y :: x :: l2))) /\
  (forall b1 b2 st1 st2 l1 l2 x y,
     Nat.even (List.length l1) = true ->
     Rollup.Batch.transactions b1 = l1 ++ x :: y :: l2 ->
     Rollup.Batch.transactions b2 = l1 ++ y :: x :: l2 ->
     Rollup.Batch.merkleRoot (snd (calculateBatchRoots b1 st1))
     = Rollup.Batch.merkleRoot (snd (calculateBatchRoots b2 st2))).
Proof.
  assert (Hroot : forall b st,
     Rollup.Batch.merkleRoot (snd (calculateBatchRoots b st))
     = Merkle.getRoot (Merkle.new sha256 (map commitment (Rollup.Batch.transactions b)))).
  { intros b st. unfold Rollup.calculateBatchRoots. cbv zeta.
    destruct (forallb _ _); reflexivity. }
  split; [exact Hroot|]. split; [|split].
  - intros b1 b2 st1 st2 E. now rewrite !Hroot, E.
  - intros l1 l2 x y He. now apply root_swap.
  - intros b1 b2 st1 st2 l1 l2 x y He H1 H2.
    rewrite !Hroot, H1, H2, !map_app. cbn [map].
    apply root_swap. now rewrite length_map.
Qed.

End RollupFacts.

(** *** Sample runs *)

Lemma verifyProof_built_root_throws_witness :
  (2 <= List.length ["a"; "b"])%nat /\
  0 <= 0 < Z.of_nat (List.length ["a"; "b"]) /\
  exists proof h,
    Merkle.getProof (Merkle.new Sample.sha256 ["a"; "b"]) 0 = Ok proof /\
    Merkle.getRoot (Merkle.new Sample.sha256 ["a"; "b"]) = Some (Merkle.Level [h]) /\
    Merkle.verifyProof Sample.sha256
      (Merkle.hashLeaf Sample.sha256 (nth (Z.to_nat 0) ["a"; "b"] "")) proof
      (Merkle.getRoot (Merkle.new Sample.sha256 ["a"; "b"]))
    = Throw "TypeError: root.substring is not a function".
Proof.
  split; [simpl; lia|]. split; [simpl; lia|].
  apply (verifyProof_built_root_throws Sample.sha256 ["a"; "b"] 0); simpl; lia.
Defined.

(** C4, against the claim as stated.  ["a"; "b"] and ["b"; "a"] are two
    different orderings of the same leaves and, whatever the digest
    function, they have the same root; likewise two batches holding the
    same two different transactions in either order get the same
    merkleRoot. *)
Lemma reordering_keeps_merkleRoot :
  (Permutation ["a"; "b"] ["b"; "a"] /\
   ["a"; "b"] <> ["b"; "a"] /\
   forall sha256,
     Merkle.getRoot (Merkle.new sha256 ["a"; "b"])
     = Merkle.getRoot (Merkle.new sha256 ["b"; "a"])) /\
  (Permutation (Rollup.Batch.transactions Sample.batchAB)
               (Rollup.Batch.transactions Sample.batchBA) /\
   Rollup.Batch.transactions Sample.batchAB <> Rollup.Batch.transactions Sample.batchBA /\
   forall sha256 JSON_stringify toUtf8Bytes keccak256 concat st,
     Rollup.Batch.merkleRoot
       (snd (Rollup.calculateBatchRoots sha256 JSON_stringify toUtf8Bytes keccak256
               concat Sample.batchAB st))
     = Rollup.Batch.merkleRoot
       (snd (Rollup.calculateBatchRoots sha256 JSON_stringify toUtf8Bytes keccak256
               concat Sample.batchBA st))).
Proof.
  split; split.
  - apply perm_swap.
  - split; [discriminate|].
    intros sha256. apply (root_swap sha256 [] [] "a" "b"). reflexivity.
  - apply perm_swap.
  - split.
    + intros H.
      apply (f_equal (fun l : list (gmap string JsValue) => hd ∅ l !! "timestamp")) in H.
      vm_compute in H. discriminate.
    + intros sha256 JSON_stringify toUtf8Bytes keccak256 concat st.
      unfold Rollup.calculateBatchRoots. cbv zeta.
      destruct (forallb _ _); cbn [snd Rollup.withRoots Rollup.Batch.merkleRoot];
        apply (root_swap sha256 [] []); reflexivity.
Qed.

Lemma createBatch_throws_after_the_splice_witness :
  (forall enc data, hexDigits (Sample.sha256hex enc data) = true) /\
  Rollup.pendingTransactions Sample.manager <> [] /\
  Rollup.createBatch Sample.sha256hex Sample.JSON_stringify Sample.toUtf8Bytes
    Sample.keccak256 Sample.concat 7 "f00d" Sample.manager
  = (Throw "invalid BytesLike value",
     Rollup.setPending [Rollup.queued Sample.sampleTx 3 "c"] Sample.manager) /\
  Rollup.batches
    (snd (Rollup.createBatch Sample.sha256hex Sample.JSON_stringify Sample.toUtf8Bytes
            Sample.keccak256 Sample.concat 7 "f00d" Sample.manager)) = ∅.
Proof.
  split; [exact sample_digest_hex|].
  split; [discriminate|].
  destruct (proj2 (createBatch_throws_after_the_splice Sample.sha256hex
                     Sample.JSON_stringify Sample.toUtf8Bytes Sample.keccak256
                     Sample.concat sample_digest_hex 7 "f00d" Sample.manager))
    as (Hrun & _ & Hb & _); [discriminate|].
  split; [exact Hrun|exact Hb].
Defined.

Lemma addTransaction_spec_witness :
  (forall enc data, hexDigits (Sample.sha256hex enc data) = true) /\
  ((exists f, In f Rollup.requiredFields /\ delete "nonce" Sample.sampleTx !! f = None) \/
   truthy (Rollup.verifySignature (delete "nonce" Sample.sampleTx)) = false) /\
  Rollup.validateTransaction Sample.sampleTx = true /\
  Z.of_nat (List.length (Rollup.pendingTransactions (Rollup.setPending [] Sample.manager)
                         ++ [Rollup.queued Sample.sampleTx 7 "r"]))
    < Rollup.batchSize (Rollup.setPending [] Sample.manager) /\
  Rollup.batchSize Sample.manager
    <= Z.of_nat (List.length (Rollup.pendingTransactions Sample.manager
                              ++ [Rollup.queued Sample.sampleTx 7 "r"])) /\
  Rollup.addTransaction Sample.sha256hex Sample.JSON_stringify Sample.toUtf8Bytes
    Sample.keccak256 Sample.concat (delete "nonce" Sample.sampleTx) 7 "r" "r1" Sample.manager
  = (Throw "Invalid transaction", Sample.manager) /\
  Rollup.addTransaction Sample.sha256hex Sample.JSON_stringify Sample.toUtf8Bytes
    Sample.keccak256 Sample.concat Sample.sampleTx 7 "r" "r1"
    (Rollup.setPending [] Sample.manager)
  = (Ok (), Rollup.setPending [Rollup.queued Sample.sampleTx 7 "r"] Sample.manager) /\
  Rollup.addTransaction Sample.sha256hex Sample.JSON_stringify Sample.toUtf8Bytes
    Sample.keccak256 Sample.concat Sample.sampleTx 7 "r" "r1" Sample.manager
  = (Throw "invalid BytesLike value",
     Rollup.setPending [Rollup.queued Sample.sampleTx 3 "c";
                        Rollup.queued Sample.sampleTx 7 "r"] Sample.manager).
Proof.
  split; [exact sample_digest_hex|].
  assert (Hmiss : (exists f, In f Rollup.requiredFields /\
                             delete "nonce" Sample.sampleTx !! f = None) \/
                  truthy (Rollup.verifySignature (delete "nonce" Sample.sampleTx)) = false).
  { left. exists "nonce". split; [unfold Rollup.requiredFields; simpl; tauto|].
    apply lookup_delete_eq. }
  split; [exact Hmiss|]. split; [exact sampleTx_valid|]. split; [simpl; lia|].
  split; [simpl; lia|].
  split; [|split].
  - exact (proj1 (addTransaction_spec Sample.sha256hex Sample.JSON_stringify
                    Sample.toUtf8Bytes Sample.keccak256 Sample.concat sample_digest_hex
                    (delete "nonce" Sample.sampleTx) 7 "r" "r1" Sample.manager) Hmiss).
  - destruct (proj2 (addTransaction_spec Sample.sha256hex Sample.JSON_stringify
                    Sample.toUtf8Bytes Sample.keccak256 Sample.concat sample_digest_hex
                    Sample.sampleTx 7 "r" "r1" (Rollup.setPending [] Sample.manager))
                    sampleTx_valid _ eq_refl) as (_ & _ & _ & _ & Hok & _).
    apply Hok. simpl. lia.
  - destruct (proj2 (addTransaction_spec Sample.sha256hex Sample.JSON_stringify
                    Sample.toUtf8Bytes Sample.keccak256 Sample.concat sample_digest_hex
                    Sample.sampleTx 7 "r" "r1" Sample.manager)
                    sampleTx_valid _ eq_refl) as (_ & _ & _ & _ & _ & Hfull & _).
    destruct Hfull as [_ Hthrow]; [simpl; lia|]. exact Hthrow.
Defined.

Lemma addTransaction_rejects_falsy_field_witness :
  (forall f, In f Rollup.requiredFields ->
     is_Some (<["value" := JNum 0]> Sample.sampleTx !! f)) /\
  <["value" := JNum 0]> Sample.sampleTx !! "value" = Some (JNum 0) /\
  Rollup.addTransaction Sample.sha256 Sample.JSON_stringify Sample.toUtf8Bytes
    Sample.keccak256 Sample.concat (<["value" := JNum 0]> Sample.sampleTx)
    7 "r" "r1" Sample.manager
  = (Throw "Invalid transaction", Sample.manager).
Proof.
  split.
  - intros f Hf. unfold Rollup.requiredFields in Hf. simpl in Hf.
    destruct Hf as [<-|[<-|[<-|[<-|[<-|[<-|[]]]]]]]; vm_compute; eauto.
  - split; [apply lookup_insert_eq|].
    apply (proj2 (addTransaction_rejects_falsy_field Sample.sha256 Sample.JSON_stringify
                    Sample.toUtf8Bytes Sample.keccak256 Sample.concat
                    (<["value" := JNum 0]> Sample.sampleTx) 7 "r" "r1" Sample.manager)).
    left. apply lookup_insert_eq.
Defined.



Lemma merkleRoot_pair_swap_witness :
  Nat.even (List.length (@nil (gmap string JsValue))) = true /\
  Rollup.Batch.merkleRoot
    (snd (Rollup.calculateBatchRoots Sample.sha256 Sample.JSON_stringify
            Sample.toUtf8Bytes Sample.keccak256 Sample.concat Sample.batchAB
            Sample.manager))
  = Rollup.Batch.merkleRoot
    (snd (Rollup.calculateBatchRoots Sample.sha256 Sample.JSON_stringify
            Sample.toUtf8Bytes Sample.keccak256 Sample.concat Sample.batchBA
            Sample.manager)).
Proof.
  split; [reflexivity|].
  apply (proj2 (proj2 (proj2 (merkleRoot_pair_swap Sample.sha256 Sample.JSON_stringify
                                Sample.toUtf8Bytes Sample.keccak256 Sample.concat)))
           Sample.batchAB Sample.batchBA Sample.manager Sample.manager [] []
           (Rollup.queued Sample.sampleTx 1 "a") (Rollup.queued Sample.sampleTx 2 "b"));
    reflexivity.
Defined.

(** ** CrossChainBridge *)

Section BridgeFacts.

Variable parseEther : string -> option Z.
Variable keccak256_json : Bridge.ProofData -> string.
Variable isAddress : string -> bool.

Local Abbreviation withdraw := (Bridge.withdraw parseEther keccak256_json isAddress).
Local Abbreviation deposit := (Bridge.deposit parseEther keccak256_json isAddress).
Local Abbreviation burnTokensOnLayer2 := (Bridge.burnTokensOnLayer2 keccak256_json isAddress).
Local Abbreviation generateWithdrawalProof := (Bridge.generateWithdrawalProof keccak256_json).
Local Abbreviation bstep := (Bridge.step parseEther keccak256_json isAddress).
Local Abbreviation brun := (Bridge.run parseEther keccak256_json isAddress).
Local Abbreviation reachable := (Bridge.reachable parseEther keccak256_json isAddress).

(** *** What the calls leave alone *)

Lemma addBridgeEvent_frame t d now st :
  let st' := Bridge.addBridgeEvent t d now st in
  Bridge.withdrawals st' = Bridge.withdrawals st /\
  Bridge.deposits st' = Bridge.deposits st /\
  Bridge.layer1Contract st' = Bridge.layer1Contract st /\
  Bridge.layer2Contract st' = Bridge.layer2Contract st /\
  Bridge.withdrawalDelay st' = Bridge.withdrawalDelay st /\
  Bridge.minDepositAmount st' = Bridge.minDepositAmount st.
Proof. repeat split. Qed.

Lemma processDeposit_frame d now rnd st :
  let st' := snd (Bridge.processDepositOnLayer2 d now rnd st) in
  Bridge.withdrawals st' = Bridge.withdrawals st /\
  Bridge.layer1Contract st' = Bridge.layer1Contract st /\
  Bridge.layer2Contract st' = Bridge.layer2Contract st /\
  Bridge.withdrawalDelay st' = Bridge.withdrawalDelay st /\
  Bridge.minDepositAmount st' = Bridge.minDepositAmount st.
Proof.
  unfold Bridge.processDepositOnLayer2. cbv zeta.
  destruct (negb (Bridge.verifyDepositProof _)); [repeat split|].
  destruct (Bridge.layer2Contract st) eqn:E; repeat split; simpl; congruence.
Qed.

Lemma deposit_frame u t a o now r r1 r2 st :
  let st' := snd (deposit u t a o now r r1 r2 st) in
  Bridge.withdrawals st' = Bridge.withdrawals st /\
  Bridge.layer1Contract st' = Bridge.layer1Contract st /\
  Bridge.layer2Contract st' = Bridge.layer2Contract st /\
  Bridge.withdrawalDelay st' = Bridge.withdrawalDelay st /\
  Bridge.minDepositAmount st' = Bridge.minDepositAmount st.
Proof.
  unfold Bridge.deposit. cbv zeta.
  destruct (parseEther a) as [amt|]; [|repeat split].
  destruct (amt <? _); [repeat split|].
  destruct (amt >? _); [repeat split|].
  unfold Bridge.submitDepositToLayer1. cbv zeta.
  destruct (Bridge.layer1Contract (Bridge.writeDeposit _ st)) eqn:E1; [|repeat split].
  destruct (Bridge.encodeTokenAmount _ _ _); [|repeat split].
  match goal with
  | |- context [Bridge.processDepositOnLayer2 ?d ?n ?r ?s] =>
      pose proof (processDeposit_frame d n r s) as Hf;
      destruct (Bridge.processDepositOnLayer2 d n r s) as [[[?|?] ?] ?]
  end; simpl in *; exact Hf.
Qed.

Lemma burnTokens_frame w now rnd1 st :
  let st' := snd (burnTokensOnLayer2 w now rnd1 st) in
  Bridge.layer1Contract st' = Bridge.layer1Contract st /\
  Bridge.layer2Contract st' = Bridge.layer2Contract st /\
  Bridge.withdrawalDelay st' = Bridge.withdrawalDelay st /\
  Bridge.minDepositAmount st' = Bridge.minDepositAmount st /\
  exists w',
    Bridge.withdrawals st' = <[Bridge.Withdrawal.id w := w']> (Bridge.withdrawals st) /\
    Bridge.Withdrawal.id w' = Bridge.Withdrawal.id w /\
    Bridge.Withdrawal.userAddress w' = Bridge.Withdrawal.userAddress w /\
    Bridge.Withdrawal.tokenAddress w' = Bridge.Withdrawal.tokenAddress w /\
    Bridge.Withdrawal.amount w' = Bridge.Withdrawal.amount w /\
    Bridge.Withdrawal.timestamp w' = Bridge.Withdrawal.timestamp w /\
    Bridge.Withdrawal.unlockTime w' = Bridge.Withdrawal.unlockTime w /\
    match Bridge.layer2Contract st,
          Bridge.encodeTokenAmount isAddress (Bridge.Withdrawal.tokenAddress w)
            (Bridge.Withdrawal.amount w) with
    | Some _, Ok _ =>
        Bridge.Withdrawal.status w' = "burned" /\
        Bridge.Withdrawal.proof w' = Some (generateWithdrawalProof w') /\
        fst (burnTokensOnLayer2 w now rnd1 st) = Ok ()
    | _, _ =>
        Bridge.Withdrawal.status w' = "failed" /\
        Bridge.Withdrawal.proof w' = Bridge.Withdrawal.proof w /\
        isThrow (fst (burnTokensOnLayer2 w now rnd1 st)) = true
    end.
Proof.
  unfold Bridge.burnTokensOnLayer2. cbv zeta.
  destruct (Bridge.layer2Contract st) eqn:E;
    [destruct (Bridge.encodeTokenAmount _ _ _) eqn:Ee|]; simpl; rewrite ?E;
    (repeat (split; [reflexivity|])); eexists; (split; [reflexivity|]);
    repeat split.
Qed.

(** The state [withdraw] leaves is the one [burnTokensOnLayer2] leaves. *)
Lemma snd_match_res {A B S} (r : Res A * S) (f : S -> Res B) (g : string -> Res B) :
  snd (match r with
       | (Ok _, s) => (f s, s)
       | (Throw m, s) => (g m, s)
       end) = snd r.
Proof. destruct r as [[?|?] ?]; reflexivity. Qed.

(** *** The invariant of the bridge *)

Lemma bridgeInvariant_new : Bridge.bridgeInvariant Bridge.new.
Proof.
  unfold Bridge.bridgeInvariant. simpl. repeat split.
  - intros [? H]. discriminate.
  - intros i w H. now rewrite lookup_empty in H.
Qed.

Lemma bridgeInvariant_step op st :
  Bridge.bridgeInvariant st -> Bridge.bridgeInvariant (bstep op st).
Proof.
  intros Hinv. pose proof Hinv as (Hd & Hm & H21 & Hb). destruct op; simpl.
  - (* initialize *)
    unfold Bridge.initialize. destruct providerOk; simpl; [|exact Hinv].
    repeat split; simpl; eauto.
  - (* deposit *)
    destruct (deposit_frame userAddress tokenAddress amount options now rnd rnd1 rnd2 st)
      as (Ew & E1 & E2 & Ed & Em).
    unfold Bridge.bridgeInvariant. rewrite Ew, E1, E2, Ed, Em. exact Hinv.
  - (* withdraw *)
    unfold Bridge.withdraw. cbv zeta.
    destruct (parseEther amount) as [amt|]; [|exact Hinv].
    destruct (amt <? _); [exact Hinv|].
    match goal with
    | |- context [Bridge.burnTokensOnLayer2 _ _ ?w ?n ?r ?s] =>
        rewrite (snd_match_res (burnTokensOnLayer2 w n r s)
                   (fun _ => if Bridge.validTimeValue (Bridge.Withdrawal.unlockTime w)
                             then Ok _ else Throw _) (fun m => Throw m));
        destruct (burnTokens_frame w n r s)
          as (E1 & E2 & Ed & Em & w' & Ew & _ & _ & _ & _ & _ & _ & Hst)
    end.
    simpl in E1, E2, Ed, Em, Ew.
    unfold Bridge.bridgeInvariant. rewrite E1, E2, Ed, Em, Ew.
    repeat split; auto.
    intros i w0. rewrite insert_insert_eq, lookup_insert. case_decide.
    + intros [= <-] Hs. simpl in Hst.
      destruct (Bridge.layer2Contract st); [eauto|].
      destruct Hst as [Hf _]. rewrite Hf in Hs. discriminate.
    + apply Hb.
  - (* completeWithdrawal *)
    unfold Bridge.completeWithdrawal.
    destruct (Bridge.withdrawals st !! withdrawalId) as [w|] eqn:Ew; [|exact Hinv].
    destruct (negb (String.eqb _ _)) eqn:Es; [exact Hinv|].
    destruct (now <? _); [exact Hinv|].
    destruct (negb (Bridge.verifyWithdrawalProof _)); [exact Hinv|].
    destruct (Bridge.layer1Contract st) eqn:E1; [|exact Hinv].
    repeat split; simpl; auto.
    intros i w'. rewrite lookup_insert. case_decide.
    + intros [= <-]. simpl. discriminate.
    + apply Hb.
Qed.

Lemma bridgeInvariant_run ops st :
  Bridge.bridgeInvariant st -> Bridge.bridgeInvariant (brun ops st).
Proof.
  revert st. induction ops as [|op ops IH]; intros st H; [exact H|].
  simpl. apply IH. now apply bridgeInvariant_step.
Qed.

Lemma reachable_invariant st : reachable st -> Bridge.bridgeInvariant st.
Proof.
  intros [ops ->]. apply bridgeInvariant_run, bridgeInvariant_new.
Qed.

(** *** withdraw *)

(** C7, as the code has it.  [withdraw] rejects an amount below
    minDepositAmount (10^15 wei, 0.001 ether) with the state as it was.
    Otherwise a call at instant [now] (milliseconds) leaves under the new
    id, and nowhere else, a record of the user, the token, the parsed
    amount and the instant, whose unlockTime is [now] plus 604800 seconds.
    When the layer-2 handle is set up, the token is an address and the
    amount a uint256, the record is burned and carries the digest of its
    id, user, token, amount and instant as its proof, and the call returns
    the unlockTime; when one of the three fails the burn step throws, the
    record is left failed and without a proof, and the call throws. *)
Theorem withdraw_spec (userAddress : string) (tokenAddress : option string)
    (amount : string) (options : gmap string JsValue) (now : Z) (rnd rnd1 : string)
    (st : Bridge.CrossChainBridge) (a : Z) :
  reachable st ->
  parseEther amount = Some a ->
  let res := withdraw userAddress tokenAddress amount options now rnd rnd1 st in
  let withdrawalId := Bridge.generateWithdrawalId now rnd in
  let token := Bridge.orZeroAddress tokenAddress in
  Bridge.minDepositAmount st = 10 ^ 15 /\
  (a < Bridge.minDepositAmount st ->
   res = (Throw "Withdrawal amount too small", st)) /\
  (Bridge.minDepositAmount st <= a ->
   exists w,
     Bridge.withdrawals (snd res) !! withdrawalId = Some w /\
     (forall i, i <> withdrawalId ->
        Bridge.withdrawals (snd res) !! i = Bridge.withdrawals st !! i) /\
     Bridge.Withdrawal.id w = withdrawalId /\
     Bridge.Withdrawal.userAddress w = userAddress /\
     Bridge.Withdrawal.tokenAddress w = token /\
     Bridge.Withdrawal.amount w = a /\
     Bridge.Withdrawal.timestamp w = now /\
     Bridge.Withdrawal.unlockTime w = now + 604800 * 1000 /\
     (is_Some (Bridge.layer2Contract st) -> isAddress token = true ->
      a <= Bridge.MAX_UINT256 ->
      Bridge.Withdrawal.status w = "burned" /\
      Bridge.Withdrawal.proof w
      = Some (keccak256_json {|
                Bridge.pd_kind := "withdrawalId";
                Bridge.pd_id := withdrawalId;
                Bridge.pd_userAddress := userAddress;
                Bridge.pd_tokenAddress := token;
                Bridge.pd_amount := pretty a;
                Bridge.pd_timestamp := now |}) /\
      Bridge.Withdrawal.layer2TxHash w = Some ("0x" +:+ rnd1) /\
      (Bridge.validTimeValue (now + 604800 * 1000) = true ->
       fst res = Ok {| Bridge.wr_withdrawalId := withdrawalId;
                       Bridge.wr_status := "pending";
                       Bridge.wr_unlockTime := now + 604800 * 1000;
                       Bridge.wr_estimatedTime := "7 days" |})) /\
     (Bridge.layer2Contract st = None \/ isAddress token = false \/
      Bridge.MAX_UINT256 < a ->
      Bridge.Withdrawal.status w = "failed" /\
      Bridge.Withdrawal.proof w = None /\
      isThrow (fst res) = true)).
Proof.
  intros Hreach Hparse res withdrawalId token.
  destruct (reachable_invariant st Hreach) as (Hd & Hm & _ & _).
  split; [exact Hm|]. split.
  - intros Hlt. subst res. unfold Bridge.withdraw. rewrite Hparse.
    destruct (a <? Bridge.minDepositAmount st) eqn:E; [reflexivity|].
    apply Z.ltb_ge in E. lia.
  - intros Hge. subst res.
    unfold Bridge.withdraw. rewrite Hparse.
    destruct (a <? Bridge.minDepositAmount st) eqn:E; [apply Z.ltb_lt in E; lia|].
    cbv zeta. fold withdrawalId. fold token.
    unfold Bridge.burnTokensOnLayer2, Bridge.encodeTokenAmount.
    cbn [Bridge.Withdrawal.tokenAddress Bridge.Withdrawal.amount
         Bridge.layer2Contract Bridge.writeWithdrawal Bridge.setWithdrawals].
    rewrite Hd.
    assert (Hneg : (a <? 0) = false).
    { apply Z.ltb_ge. rewrite Hm in Hge. lia. }
    rewrite Hneg. cbn [orb].
    destruct (Bridge.layer2Contract st) as [c2|] eqn:E2.
    + destruct (isAddress token) eqn:Ea; cbn [negb].
      * destruct (a >? Bridge.MAX_UINT256) eqn:Eu.
        -- eexists. split; [cbn; rewrite insert_insert_eq; apply lookup_insert_eq|].
           split; [intros i Hi; cbn; rewrite insert_insert_eq;
                   now apply lookup_insert_ne|].
           cbn. repeat (split; [reflexivity|]).
           split; [intros _ _ Hle; apply Z.gtb_lt in Eu; lia|].
           intros _. repeat split.
        -- eexists. split; [cbn; rewrite insert_insert_eq; apply lookup_insert_eq|].
           split; [intros i Hi; cbn; rewrite insert_insert_eq;
                   now apply lookup_insert_ne|].
           cbn. repeat (split; [reflexivity|]).
           split.
           ++ intros _ _ _. repeat (split; [reflexivity|]).
              intros Hv. now rewrite Hv.
           ++ rewrite Z.gtb_ltb in Eu. apply Z.ltb_ge in Eu.
              intros [H|[H|H]]; [discriminate|discriminate|lia].
      * eexists. split; [cbn; rewrite insert_insert_eq; apply lookup_insert_eq|].
        split; [intros i Hi; cbn; rewrite insert_insert_eq;
                now apply lookup_insert_ne|].
        cbn. repeat (split; [reflexivity|]).
        split; [intros _ H; discriminate|].
        intros _. repeat split.
    + eexists. split; [cbn; rewrite insert_insert_eq; apply lookup_insert_eq|].
      split; [intros i Hi; cbn; rewrite insert_insert_eq;
              now apply lookup_insert_ne|].
      cbn. repeat (split; [reflexivity|]).
      split; [intros [? H]; discriminate|].
      intros _. repeat split.
Qed.

(** *** completeWithdrawal *)

Lemma completionErrors_NoDup : NoDup Bridge.completionErrors.
Proof.
  unfold Bridge.completionErrors.
  repeat (apply NoDup_cons_2;
          [rewrite ?elem_of_cons, elem_of_nil; intuition discriminate|]).
  apply NoDup_nil_2.
Qed.

(** C6.  [completeWithdrawal] refuses, with the state as it was and one of
    four different messages, an id that is not found, a withdrawal whose
    status is not burned, a burned one before its unlockTime, and a burned,
    unlocked one whose proof does not re-verify; whenever one of these holds
    the call is refused with one of the four messages.  For a burned
    withdrawal of a bridge, at or after unlockTime and with a proof that
    re-verifies, it returns completed and marks that record, and no other,
    completed; any later call on the same id is refused. *)
Theorem completeWithdrawal_spec (withdrawalId : string) (now : Z) (rnd : string)
    (st : Bridge.CrossChainBridge) :
  NoDup Bridge.completionErrors /\
  (Bridge.withdrawals st !! withdrawalId = None ->
   Bridge.completeWithdrawal withdrawalId now rnd st = (Throw "Withdrawal not found", st)) /\
  (forall w, Bridge.withdrawals st !! withdrawalId = Some w ->
   (Bridge.Withdrawal.status w <> "burned" ->
    Bridge.completeWithdrawal withdrawalId now rnd st
    = (Throw "Withdrawal not ready for completion", st)) /\
   (Bridge.Withdrawal.status w = "burned" -> now < Bridge.Withdrawal.unlockTime w ->
    Bridge.completeWithdrawal withdrawalId now rnd st
    = (Throw "Withdrawal still in delay period", st)) /\
   (Bridge.Withdrawal.status w = "burned" -> Bridge.Withdrawal.unlockTime w <= now ->
    Bridge.verifyWithdrawalProof (Bridge.Withdrawal.proof w) = false ->
    Bridge.completeWithdrawal withdrawalId now rnd st
    = (Throw "Invalid withdrawal proof", st)) /\
   (reachable st ->
    Bridge.Withdrawal.status w = "burned" -> Bridge.Withdrawal.unlockTime w <= now ->
    Bridge.verifyWithdrawalProof (Bridge.Withdrawal.proof w) = true ->
    exists r st' w',
      Bridge.completeWithdrawal withdrawalId now rnd st = (Ok r, st') /\
      Bridge.cr_status r = "completed" /\
      Bridge.withdrawals st' !! withdrawalId = Some w' /\
      Bridge.Withdrawal.status w' = "completed" /\
      Bridge.Withdrawal.unlockTime w' = Bridge.Withdrawal.unlockTime w /\
      Bridge.Withdrawal.amount w' = Bridge.Withdrawal.amount w /\
      (forall i, i <> withdrawalId ->
         Bridge.withdrawals st' !! i = Bridge.withdrawals st !! i) /\
      (forall now' rnd',
         Bridge.completeWithdrawal withdrawalId now' rnd' st'
         = (Throw "Withdrawal not ready for completion", st')))) /\
  (match Bridge.withdrawals st !! withdrawalId with
   | None => True
   | Some w =>
       Bridge.Withdrawal.status w <> "burned" \/
       now < Bridge.Withdrawal.unlockTime w \/
       Bridge.verifyWithdrawalProof (Bridge.Withdrawal.proof w) = false
   end ->
   exists msg,
     In msg Bridge.completionErrors /\
     Bridge.completeWithdrawal withdrawalId now rnd st = (Throw msg, st)).
Proof.
  split; [exact completionErrors_NoDup|]. split; [|split].
  - intros Hnone. unfold Bridge.completeWithdrawal. now rewrite Hnone.
  - intros w Hw. unfold Bridge.completeWithdrawal. rewrite Hw.
    repeat split.
    + intros Hs. apply String.eqb_neq in Hs. now rewrite Hs.
    + intros Hs Hlt. apply String.eqb_eq in Hs. rewrite Hs. simpl.
      apply Z.ltb_lt in Hlt. now rewrite Hlt.
    + intros Hs Hle Hp. apply String.eqb_eq in Hs. rewrite Hs. simpl.
      apply Z.ltb_ge in Hle. now rewrite Hle, Hp.
    + intros Hreach Hs Hle Hp.
      destruct (reachable_invariant st Hreach) as (_ & _ & H21 & Hb).
      destruct (H21 (Hb _ _ Hw Hs)) as [c1 Hc1].
      apply String.eqb_eq in Hs. rewrite Hs. simpl.
      apply Z.ltb_ge in Hle. rewrite Hle, Hp, Hc1. simpl.
      eexists. eexists. eexists. split; [reflexivity|]. simpl.
      split; [reflexivity|]. split; [apply lookup_insert_eq|].
      repeat split.
      * intros i Hi. now apply lookup_insert_ne.
      * intros now' rnd'. unfold Bridge.completeWithdrawal. simpl.
        now rewrite lookup_insert_eq.
  - unfold Bridge.completeWithdrawal, Bridge.completionErrors.
    destruct (Bridge.withdrawals st !! withdrawalId) as [w|].
    + intros Hcase.
      destruct (negb (String.eqb (Bridge.Withdrawal.status w) "burned")) eqn:Es;
        [eexists; split; [|reflexivity]; simpl; tauto|].
      destruct (now <? Bridge.Withdrawal.unlockTime w) eqn:Et;
        [eexists; split; [|reflexivity]; simpl; tauto|].
      destruct (negb (Bridge.verifyWithdrawalProof (Bridge.Withdrawal.proof w))) eqn:Ep;
        [eexists; split; [|reflexivity]; simpl; tauto|].
      exfalso. apply negb_false_iff in Es, Ep. apply String.eqb_eq in Es.
      apply Z.ltb_ge in Et. destruct Hcase as [H|[H|H]]; [congruence|lia|congruence].
    + intros _. eexists. split; [|reflexivity]. simpl. tauto.
Qed.

End BridgeFacts.

(** *** Sample runs of the bridge *)

Lemma sample_bridge_reachable :
  Bridge.reachable Sample.parseEther Sample.keccak256_json Sample.isAddress Sample.bridge.
Proof. unfold Bridge.reachable, Sample.bridge. eauto. Qed.

Lemma withdraw_spec_witness :
  Bridge.reachable Sample.parseEther Sample.keccak256_json Sample.isAddress Sample.bridge /\
  Sample.parseEther "5" = Some (5 * 10 ^ 18) /\
  Bridge.minDepositAmount Sample.bridge <= 5 * 10 ^ 18 /\
  is_Some (Bridge.layer2Contract Sample.bridge) /\
  Sample.isAddress (Bridge.orZeroAddress None) = true /\
  5 * 10 ^ 18 <= Bridge.MAX_UINT256 /\
  exists w,
    Bridge.withdrawals
      (snd (Bridge.withdraw Sample.parseEther Sample.keccak256_json Sample.isAddress
              "0xa1" None "5" ∅ 2000 "s" "s1" Sample.bridge))
      !! "withdrawal_2000_s" = Some w /\
    Bridge.Withdrawal.unlockTime w = 2000 + 604800 * 1000 /\
    Bridge.Withdrawal.status w = "burned" /\
    Bridge.Withdrawal.proof w
    = Some (Sample.keccak256_json {|
              Bridge.pd_kind := "withdrawalId";
              Bridge.pd_id := "withdrawal_2000_s";
              Bridge.pd_userAddress := "0xa1";
              Bridge.pd_tokenAddress := Bridge.ZeroAddress;
              Bridge.pd_amount := "5000000000000000000";
              Bridge.pd_timestamp := 2000 |}).
Proof.
  assert (Hmin : Bridge.minDepositAmount Sample.bridge <= 5 * 10 ^ 18)
    by (vm_compute; discriminate).
  assert (Hl2 : is_Some (Bridge.layer2Contract Sample.bridge))
    by (vm_compute; eauto).
  assert (Ha : Sample.isAddress (Bridge.orZeroAddress None) = true)
    by (vm_compute; reflexivity).
  assert (Hu : 5 * 10 ^ 18 <= Bridge.MAX_UINT256) by (vm_compute; discriminate).
  split; [exact sample_bridge_reachable|]. split; [reflexivity|].
  split; [exact Hmin|]. split; [exact Hl2|]. split; [exact Ha|]. split; [exact Hu|].
  destruct (withdraw_spec Sample.parseEther Sample.keccak256_json Sample.isAddress
              "0xa1" None "5" ∅ 2000 "s" "s1" Sample.bridge (5 * 10 ^ 18)
              sample_bridge_reachable eq_refl)
    as (_ & _ & H).
  destruct (H Hmin) as (w & Hw & _ & _ & _ & _ & _ & _ & Hunlock & Hgood & _).
  destruct (Hgood Hl2 Ha Hu) as (Hs & Hp & _).
  exists w. split; [exact Hw|]. split; [exact Hunlock|]. split; [exact Hs|exact Hp].
Defined.

(** C7, against the claim as stated.  On an initialised bridge a
    withdrawal of 5 ether for the token ["0xb2"], which is not an address,
    is above the minimum and is left failed and without a proof; so is a
    withdrawal of an amount above 2^256 - 1 for the zero address, and so is
    any withdrawal on a bridge that was not initialised.  Each call
    throws. *)
Lemma withdraw_can_leave_a_failed_record :
  (forall keccak256_json isAddress, isAddress "0xb2" = false ->
   let res := Bridge.withdraw Sample.parseEther keccak256_json isAddress
                "0xa1" (Some "0xb2") "5" ∅ 2000 "s" "s1"
                (snd (Bridge.initialize true "0x11" "0x22" Bridge.new)) in
   Bridge.minDepositAmount (snd (Bridge.initialize true "0x11" "0x22" Bridge.new))
     <= 5 * 10 ^ 18 /\
   isThrow (fst res) = true /\
   exists w, Bridge.withdrawals (snd res) !! "withdrawal_2000_s" = Some w /\
             Bridge.Withdrawal.status w = "failed" /\
             Bridge.Withdrawal.status w <> "burned" /\
             Bridge.Withdrawal.proof w = None) /\
  (forall parseEther keccak256_json isAddress,
   parseEther "1e60" = Some (2 ^ 256) ->
   let res := Bridge.withdraw parseEther keccak256_json isAddress
                "0xa1" None "1e60" ∅ 2000 "s" "s1"
                (snd (Bridge.initialize true "0x11" "0x22" Bridge.new)) in
   isThrow (fst res) = true /\
   exists w, Bridge.withdrawals (snd res) !! "withdrawal_2000_s" = Some w /\
             Bridge.Withdrawal.status w = "failed" /\
             Bridge.Withdrawal.proof w = None) /\
  (forall keccak256_json isAddress,
   let res := Bridge.withdraw Sample.parseEther keccak256_json isAddress
                "0xa1" None "5" ∅ 2000 "s" "s1" Bridge.new in
   isThrow (fst res) = true /\
   exists w, Bridge.withdrawals (snd res) !! "withdrawal_2000_s" = Some w /\
             Bridge.Withdrawal.status w = "failed" /\
             Bridge.Withdrawal.proof w = None).
Proof.
  assert (Hlt5 : (5 * 10 ^ 18 <? 10 ^ 15) = false) by (vm_compute; reflexivity).
  assert (Hlt : (2 ^ 256 <? 10 ^ 15) = false) by (vm_compute; reflexivity).
  assert (Hneg : (2 ^ 256 <? 0) = false) by (vm_compute; reflexivity).
  assert (Hgt : (2 ^ 256 >? Bridge.MAX_UINT256) = true) by (vm_compute; reflexivity).
  split; [|split].
  - intros keccak256_json isAddress Hno res. subst res.
    split; [vm_compute; discriminate|].
    unfold Bridge.withdraw, Bridge.burnTokensOnLayer2, Bridge.encodeTokenAmount.
    cbn -[Z.pow Z.mul Z.add Z.ltb]. rewrite Hlt5, Hno. cbn -[Z.pow Z.mul Z.add].
    split; [reflexivity|].
    eexists. split; [rewrite insert_insert_eq; apply lookup_insert_eq|].
    repeat split. discriminate.
  - intros parseEther keccak256_json isAddress Hparse res. subst res.
    unfold Bridge.withdraw, Bridge.burnTokensOnLayer2, Bridge.encodeTokenAmount.
    rewrite Hparse. cbn -[Z.pow Z.mul Z.add Z.ltb Z.gtb Bridge.MAX_UINT256].
    rewrite Hlt, Hneg, Hgt.
    destruct (isAddress _); cbn -[Z.pow Z.mul Z.add];
      (split; [reflexivity|]);
      (eexists; split; [rewrite insert_insert_eq; apply lookup_insert_eq|]);
      repeat split.
  - intros keccak256_json isAddress res. subst res.
    unfold Bridge.withdraw, Bridge.burnTokensOnLayer2.
    cbn -[Z.pow Z.mul Z.add Z.ltb]. rewrite Hlt5. cbn -[Z.pow Z.mul Z.add].
    split; [reflexivity|].
    eexists. split; [rewrite insert_insert_eq; apply lookup_insert_eq|].
    repeat split.
Qed.

Lemma completeWithdrawal_spec_witness :
  exists w,
    Bridge.withdrawals Sample.bridge !! "withdrawal_1000_r" = Some w /\
    Bridge.Withdrawal.status w = "burned" /\
    Bridge.Withdrawal.unlockTime w <= 604801000 /\
    Bridge.verifyWithdrawalProof (Bridge.Withdrawal.proof w) = true /\
    Bridge.completeWithdrawal "withdrawal_1000_r" 1000 "t" Sample.bridge
    = (Throw "Withdrawal still in delay period", Sample.bridge) /\
    exists r st' w',
      Bridge.completeWithdrawal "withdrawal_1000_r" 604801000 "t" Sample.bridge
      = (Ok r, st') /\
      Bridge.withdrawals st' !! "withdrawal_1000_r" = Some w' /\
      Bridge.Withdrawal.status w' = "completed" /\
      Bridge.completeWithdrawal "withdrawal_1000_r" 604802000 "u" st'
      = (Throw "Withdrawal not ready for completion", st').
Proof.
  assert (Hw : exists w, Bridge.withdrawals Sample.bridge !! "withdrawal_1000_r" = Some w /\
                 Bridge.Withdrawal.status w = "burned" /\
                 Bridge.Withdrawal.unlockTime w = 604801000 /\
                 Bridge.verifyWithdrawalProof (Bridge.Withdrawal.proof w) = true).
  { eexists. split; [vm_compute; reflexivity|]. repeat split. }
  destruct Hw as (w & Hw & Hs & Hu & Hp).
  exists w. split; [exact Hw|]. split; [exact Hs|].
  split; [rewrite Hu; lia|]. split; [exact Hp|].
  split.
  - apply (proj1 (proj2 (proj1 (proj2 (proj2 (completeWithdrawal_spec
             Sample.parseEther Sample.keccak256_json Sample.isAddress
             "withdrawal_1000_r" 1000 "t" Sample.bridge))) w Hw)) Hs).
    rewrite Hu. lia.
  - destruct (proj2 (proj2 (proj2 (proj1 (proj2 (proj2 (completeWithdrawal_spec
                Sample.parseEther Sample.keccak256_json Sample.isAddress
                "withdrawal_1000_r" 604801000 "t" Sample.bridge))) w Hw)))
                sample_bridge_reachable Hs ltac:(rewrite Hu; lia) Hp)
      as (r & st' & w' & Hrun & _ & Hw' & Hs' & _ & _ & _ & Hagain).
    exists r, st', w'.
    split; [exact Hrun|]. split; [exact Hw'|]. split; [exact Hs'|]. apply Hagain.
Defined.

(** ** ValidatorManager *)

(** The state a call of [registerValidator] leaves: the one it found, or
    the one with the three tables written. *)
Lemma registerValidator_state a k s now st :
  snd (Validators.registerValidator a k s now st) = st \/
  Validators.validators st !! a = None /\
  Validators.stakeLt s (Validators.minimumStake st) = false /\
  Validators.validatePublicKey k = true /\
  snd (Validators.registerValidator a k s now st)
  = {| Validators.validators :=
         <[a := {| Validators.address := a; Validators.publicKey := k;
                   Validators.stake := s; Validators.registeredAt := now;
                   Validators.isActive := true |}]> (Validators.validators st);
       Validators.stakes := <[a := s]> (Validators.stakes st);
       Validators.performance :=
         <[a := {| Validators.totalBatches := 0; Validators.successfulBatches := 0;
                   Validators.failedBatches := 0; Validators.uptime := (100, 1) |}]>
           (Validators.performance st);
       Validators.minimumStake := Validators.minimumStake st |}.
Proof.
  unfold Validators.registerValidator.
  destruct (Validators.validators st !! a) eqn:Ea; [now left|].
  destruct (Validators.stakeLt s _) eqn:Es; [now left|].
  destruct (Validators.validatePublicKey k) eqn:Ek; [|now left].
  right. simpl. destruct (Validators.hasToString s); auto.
Qed.

Lemma updateStake_state a s st :
  snd (Validators.updateStake a s st) = st \/
  exists v,
    Validators.validators st !! a = Some v /\
    Validators.stakeLt s (Validators.minimumStake st) = false /\
    snd (Validators.updateStake a s st)
    = {| Validators.validators :=
           <[a := {| Validators.address := Validators.address v;
                     Validators.publicKey := Validators.publicKey v;
                     Validators.stake := s;
                     Validators.registeredAt := Validators.registeredAt v;
                     Validators.isActive := Validators.isActive v |}]>
             (Validators.validators st);
         Validators.stakes := <[a := s]> (Validators.stakes st);
         Validators.performance := Validators.performance st;
         Validators.minimumStake := Validators.minimumStake st |}.
Proof.
  unfold Validators.updateStake.
  destruct (Validators.validators st !! a) as [v|] eqn:Ea; [|now left].
  destruct (Validators.stakeLt s _) eqn:Es; [now left|].
  right. exists v. simpl.
  destruct (Validators.hasToString (Validators.stake v) && Validators.hasToString s); auto.
Qed.

Lemma stakeInvariant_new (cfg : option Z) :
  Validators.stakeInvariant (Validators.new cfg).
Proof.
  intros a v H. simpl in H. now rewrite lookup_empty in H.
Qed.

Lemma register_below_minimum a k (s : Z) now st :
  s < Validators.minimumStake st ->
  exists msg, Validators.registerValidator a k s now st = (Throw msg, st).
Proof.
  intros Hlt. unfold Validators.registerValidator.
  destruct (Validators.validators st !! a); [eauto|].
  simpl. apply Z.ltb_lt in Hlt. rewrite Hlt. eauto.
Qed.

Lemma updateStake_below_minimum a (s : Z) st :
  s < Validators.minimumStake st ->
  exists msg, Validators.updateStake a s st = (Throw msg, st).
Proof.
  intros Hlt. unfold Validators.updateStake.
  destruct (Validators.validators st !! a); [|eauto].
  simpl. apply Z.ltb_lt in Hlt. rewrite Hlt. eauto.
Qed.

Lemma minimumStake_step op st :
  Validators.minimumStake (Validators.step op st) = Validators.minimumStake st.
Proof.
  destruct op; simpl.
  - destruct (registerValidator_state address publicKey stake now st)
      as [-> | (_ & _ & _ & ->)]; reflexivity.
  - unfold Validators.unregisterValidator.
    destruct (Validators.validators st !! address); reflexivity.
  - destruct (updateStake_state address newStake st) as [-> | (v & _ & _ & ->)];
      reflexivity.
  - unfold Validators.updatePerformance.
    destruct (Validators.performance st !! address); reflexivity.
Qed.

(** A call whose stake is a number keeps the invariant. *)
Lemma stakeInvariant_step op st :
  Validators.numericOp op ->
  Validators.stakeInvariant st ->
  Validators.stakeInvariant (Validators.step op st).
Proof.
  intros Hnum Hinv. destruct op; simpl.
  - (* registerValidator *)
    destruct Hnum as [z ->].
    destruct (registerValidator_state address publicKey z now st)
      as [-> | (Ea & Es & _ & ->)]; [exact Hinv|].
    intros a v. simpl. rewrite !lookup_insert. case_decide.
    + intros [= <-] _. simpl in *. split; [|reflexivity].
      apply Z.leb_le. apply Z.ltb_ge in Es. exact Es.
    + apply Hinv.
  - (* unregisterValidator *)
    unfold Validators.unregisterValidator.
    destruct (Validators.validators st !! address) as [old|] eqn:Ea; [|exact Hinv].
    intros a v. simpl. rewrite !lookup_delete. case_decide; [discriminate|].
    apply Hinv.
  - (* updateStake *)
    destruct Hnum as [z ->].
    destruct (updateStake_state address z st) as [-> | (v0 & Ea & Es & ->)];
      [exact Hinv|].
    intros a v. simpl. rewrite !lookup_insert. case_decide.
    + intros [= <-] _. simpl in *. split; [|reflexivity].
      apply Z.leb_le. apply Z.ltb_ge in Es. exact Es.
    + apply Hinv.
  - (* updatePerformance *)
    unfold Validators.updatePerformance.
    destruct (Validators.performance st !! address); exact Hinv.
Qed.

Lemma minimumStake_run ops st :
  Validators.minimumStake (Validators.run ops st) = Validators.minimumStake st.
Proof.
  revert st. induction ops as [|op ops IH]; intros st; [reflexivity|].
  simpl. now rewrite IH, minimumStake_step.
Qed.

Lemma stakeInvariant_run ops st :
  Forall Validators.numericOp ops ->
  Validators.stakeInvariant st ->
  Validators.stakeInvariant (Validators.run ops st).
Proof.
  intros Hnum. revert st. induction Hnum as [|op ops Hop _ IH]; intros st H; [exact H|].
  simpl. apply IH. now apply stakeInvariant_step.
Qed.

(** A validator is in the registry only while it is active. *)
Lemma allActive_step op st :
  (forall a v, Validators.validators st !! a = Some v -> Validators.isActive v = true) ->
  forall a v, Validators.validators (Validators.step op st) !! a = Some v ->
    Validators.isActive v = true.
Proof.
  intros Hst a v. destruct op; simpl.
  - destruct (registerValidator_state address publicKey stake now st)
      as [-> | (_ & _ & _ & ->)]; [apply Hst|]. simpl.
    rewrite lookup_insert. case_decide; [intros [= <-]; reflexivity|apply Hst].
  - unfold Validators.unregisterValidator.
    destruct (Validators.validators st !! address) as [old|] eqn:Ea; [|apply Hst]. simpl.
    rewrite lookup_delete. case_decide; [discriminate|apply Hst].
  - destruct (updateStake_state address newStake st) as [-> | (v0 & Ea & _ & ->)];
      [apply Hst|]. simpl.
    rewrite lookup_insert. case_decide; [|apply Hst].
    intros [= <-]. simpl. eapply Hst; eauto.
  - unfold Validators.updatePerformance.
    destruct (Validators.performance st !! address); apply Hst.
Qed.

Lemma allActive_run ops st :
  (forall a v, Validators.validators st !! a = Some v -> Validators.isActive v = true) ->
  forall a v, Validators.validators (Validators.run ops st) !! a = Some v ->
    Validators.isActive v = true.
Proof.
  revert st. induction ops as [|op ops IH]; intros st Hst; [exact Hst|].
  simpl. apply IH. now apply allActive_step.
Qed.

(** As long as every stake passed to the registry is a number other than
    NaN, each registered validator is active and has a stake of at least
    minimumStake, on its record and in the stakes table. *)
Lemma stake_invariant_of_numbers (cfg : option Z) (ops : list Validators.Op) :
  Forall Validators.numericOp ops ->
  forall a v,
    Validators.validators (Validators.run ops (Validators.new cfg)) !! a = Some v ->
    Validators.isActive v = true /\
    exists z, Validators.stake v = Validators.Num z /\
      Validators.minimumStake (Validators.new cfg) <= z /\
      Validators.getStake a (Validators.run ops (Validators.new cfg)) = z.
Proof.
  intros Hnum a v Hv.
  pose proof (stakeInvariant_run ops _ Hnum (stakeInvariant_new cfg)) as Hinv.
  assert (Hact : Validators.isActive v = true).
  { apply (allActive_run ops (Validators.new cfg)) with (a := a); [|exact Hv].
    intros a' v' H. simpl in H. now rewrite lookup_empty in H. }
  destruct (Hinv a v Hv Hact) as [Hge Hst].
  split; [exact Hact|].
  rewrite minimumStake_run in Hge.
  destruct (Validators.stake v) as [z| |] eqn:Es; try discriminate Hge.
  exists z. split; [reflexivity|]. split; [now apply Z.leb_le|].
  unfold Validators.getStake. now rewrite Hst.
Qed.

(** C9, where the code falls short of it.  The test
    [stake < this.minimumStake] is false for NaN, so [registerValidator]
    stores, for an address that is not registered and a well-formed key, an
    active validator whose stake is NaN, and [updateStake] gives a
    registered validator the stake NaN: that stake is not at least
    minimumStake, [getStake] reports 0 for it, and the invariant is broken.
    A stake that is a number below minimumStake is refused by both calls
    with the registry as it was. *)
Theorem nan_stake_is_accepted (a k : string) (now : Z)
    (st : Validators.ValidatorManager) :
  let reg := Validators.registerValidator a k Validators.NaN now st in
  let upd := Validators.updateStake a Validators.NaN st in
  (Validators.validators st !! a = None -> Validators.validatePublicKey k = true ->
   exists v,
     reg = (Ok v, snd reg) /\
     Validators.validators (snd reg) !! a = Some v /\
     Validators.isActive v = true /\
     Validators.stake v = Validators.NaN /\
     Validators.stakeGe (Validators.stake v) (Validators.minimumStake (snd reg)) = false /\
     Validators.getStake a (snd reg) = 0 /\
     ~ Validators.stakeInvariant (snd reg)) /\
  (forall v0, Validators.validators st !! a = Some v0 ->
   Validators.isActive v0 = true ->
   Validators.hasToString (Validators.stake v0) = true ->
   exists v,
     upd = (Ok v, snd upd) /\
     Validators.validators (snd upd) !! a = Some v /\
     Validators.isActive v = true /\
     Validators.stake v = Validators.NaN /\
     Validators.getStake a (snd upd) = 0 /\
     ~ Validators.stakeInvariant (snd upd)) /\
  (forall s : Z, s < Validators.minimumStake st ->
     (exists msg, Validators.registerValidator a k s now st = (Throw msg, st)) /\
     (exists msg, Validators.updateStake a s st = (Throw msg, st))).
Proof.
  intros reg upd. split; [|split].
  - intros Hnone Hk. subst reg. unfold Validators.registerValidator.
    rewrite Hnone, Hk. simpl.
    eexists. split; [reflexivity|].
    split; [apply lookup_insert_eq|].
    split; [reflexivity|]. split; [reflexivity|]. split; [reflexivity|].
    split.
    + unfold Validators.getStake. simpl. now rewrite lookup_insert_eq.
    + intros Hinv.
      destruct (Hinv a _ (lookup_insert_eq _ _ _) eq_refl) as [Hge _].
      discriminate Hge.
  - intros v0 Hv0 Hact Hstr. subst upd. unfold Validators.updateStake.
    rewrite Hv0. simpl. rewrite Hstr. simpl.
    eexists. split; [reflexivity|].
    split; [apply lookup_insert_eq|].
    split; [exact Hact|]. split; [reflexivity|].
    split.
    + unfold Validators.getStake. simpl. now rewrite lookup_insert_eq.
    + intros Hinv.
      destruct (Hinv a _ (lookup_insert_eq _ _ _) Hact) as [Hge _].
      discriminate Hge.
  - intros s Hlt. split.
    + now apply register_below_minimum.
    + now apply updateStake_below_minimum.
Qed.

Lemma nan_stake_is_accepted_witness :
  Validators.validators (Validators.new None) !! "0xa1" = None /\
  Validators.validatePublicKey Sample.publicKey = true /\
  (exists v,
     Validators.registerValidator "0xa1" Sample.publicKey Validators.NaN 1000
       (Validators.new None)
     = (Ok v, snd (Validators.registerValidator "0xa1" Sample.publicKey Validators.NaN
                     1000 (Validators.new None))) /\
     Validators.isActive v = true /\
     Validators.stake v = Validators.NaN /\
     Validators.stakeGe (Validators.stake v) (10 ^ 18) = false) /\
  (exists v,
     Validators.updateStake "0xa1" Validators.NaN Sample.registry
     = (Ok v, snd (Validators.updateStake "0xa1" Validators.NaN Sample.registry)) /\
     Validators.stake v = Validators.NaN) /\
  10 ^ 17 < Validators.minimumStake Sample.registry /\
  (exists msg, Validators.registerValidator "0xb2" Sample.publicKey (10 ^ 17) 2000
                 Sample.registry = (Throw msg, Sample.registry)) /\
  (exists msg, Validators.updateStake "0xa1" (10 ^ 17) Sample.registry
               = (Throw msg, Sample.registry)).
Proof.
  assert (Hlt : 10 ^ 17 < Validators.minimumStake Sample.registry)
    by (vm_compute; reflexivity).
  assert (Hk : Validators.validatePublicKey Sample.publicKey = true)
    by (vm_compute; reflexivity).
  split; [apply lookup_empty|]. split; [exact Hk|].
  split.
  - destruct (proj1 (nan_stake_is_accepted "0xa1" Sample.publicKey 1000
                       (Validators.new None)) (lookup_empty _) Hk)
      as (v & Hreg & _ & Hact & Hs & Hge & _).
    exists v. split; [exact Hreg|]. split; [exact Hact|]. split; [exact Hs|].
    rewrite Hs. reflexivity.
  - split.
    + assert (Hv0 : exists v0,
                Validators.validators Sample.registry !! "0xa1" = Some v0 /\
                Validators.isActive v0 = true /\
                Validators.hasToString (Validators.stake v0) = true).
      { eexists. split; [vm_compute; reflexivity|]. split; reflexivity. }
      destruct Hv0 as (v0 & Hv0 & Hact0 & Hstr0).
      destruct (proj1 (proj2 (nan_stake_is_accepted "0xa1" Sample.publicKey 1000
                                Sample.registry)) v0 Hv0 Hact0 Hstr0)
        as (v & Hupd & _ & _ & Hs & _).
      exists v. split; [exact Hupd|exact Hs].
    + split; [exact Hlt|]. split.
      * exact (proj1 (proj2 (proj2 (nan_stake_is_accepted "0xb2" Sample.publicKey 2000
                                      Sample.registry)) (10 ^ 17) Hlt)).
      * exact (proj2 (proj2 (proj2 (nan_stake_is_accepted "0xa1" Sample.publicKey 2000
                                      Sample.registry)) (10 ^ 17) Hlt)).
Defined.

(** ** RollupContract *)

Module RollupContractFacts.

Import RollupContract.

Ltac split_ifs H :=
  repeat match type of H with
         | (if ?c then _ else _) = Ok _ => destruct c eqn:?; try discriminate H
         | match ?x with Some _ => _ | None => _ end = Ok _ =>
             destruct x eqn:?; try discriminate H
         end.

Lemma checkedAdd_Some a b r : checkedAdd a b = Some r -> r = a + b /\ a + b <= MAX_UINT256.
Proof.
  unfold checkedAdd. destruct (a + b <=? MAX_UINT256) eqn:E; [|discriminate].
  intros [= <-]. apply Z.leb_le in E. auto.
Qed.

(** A successful call keeps the batches below the counter, their
    finalized flag and their challenged flag. *)
Lemma exec_keeps_flags c op st st' i :
  exec c op st = Ok st' ->
  i < batchCounter st ->
  i < batchCounter st' /\
  (isFinalized (batchAt st i) = true -> isFinalized (batchAt st' i) = true) /\
  (isChallenged (batchAt st i) = true -> isChallenged (batchAt st' i) = true).
Proof.
  intros Hex Hi. destruct op; simpl in Hex.
  - (* submitBatch *)
    unfold submitBatch in Hex. split_ifs Hex. injection Hex as <-.
    match goal with H : checkedAdd _ _ = Some _ |- _ =>
      apply checkedAdd_Some in H; destruct H as [-> _] end.
    unfold batchAt. simpl. rewrite lookup_insert_ne by lia.
    repeat split; auto. lia.
  - (* challengeBatch *)
    unfold challengeBatch in Hex. split_ifs Hex. injection Hex as <-.
    unfold batchAt in *. simpl. rewrite lookup_insert.
    case_decide; subst; simpl; repeat split; auto; intros; congruence.
  - (* finalizeBatch *)
    unfold finalizeBatch in Hex. split_ifs Hex. injection Hex as <-.
    unfold batchAt in *. simpl. rewrite lookup_insert.
    case_decide; subst; simpl; repeat split; auto; intros; congruence.
  - unfold registerValidator in Hex. split_ifs Hex. injection Hex as <-. auto.
  - unfold unregisterValidator in Hex. split_ifs Hex. injection Hex as <-. auto.
  - unfold updateSequencer in Hex. split_ifs Hex. injection Hex as <-. auto.
  - unfold updateChallengePeriod in Hex. split_ifs Hex. injection Hex as <-. auto.
  - unfold updateMinimumStake in Hex. split_ifs Hex. injection Hex as <-. auto.
  - unfold updateMaxBatchSize in Hex. split_ifs Hex. injection Hex as <-. auto.
  - unfold pause in Hex. split_ifs Hex. injection Hex as <-. auto.
  - unfold unpause in Hex. split_ifs Hex. injection Hex as <-. auto.
  - unfold emergencyWithdraw in Hex. split_ifs Hex. injection Hex as <-. auto.
  - unfold transferOwnership in Hex. split_ifs Hex. injection Hex as <-. auto.
  - unfold renounceOwnership in Hex. split_ifs Hex. injection Hex as <-. auto.
Qed.

Lemma run_keeps_flags calls st i :
  i < batchCounter st ->
  i < batchCounter (run calls st) /\
  (isFinalized (batchAt st i) = true -> isFinalized (batchAt (run calls st) i) = true) /\
  (isChallenged (batchAt st i) = true -> isChallenged (batchAt (run calls st) i) = true).
Proof.
  revert st. induction calls as [|[c op] calls IH]; intros st Hi; [auto|].
  change (run ((c, op) :: calls) st) with (run calls (step (c, op) st)).
  unfold step. simpl.
  destruct (exec c op st) as [st1|msg] eqn:E.
  - destruct (exec_keeps_flags c op st st1 i E Hi) as (H1 & H2 & H3).
    destruct (IH st1 H1) as (H4 & H5 & H6). auto.
  - apply IH. exact Hi.
Qed.


(** What a successful [finalizeBatch] did. *)
Lemma finalizeBatch_Ok c i st st' :
  finalizeBatch c i st = Ok st' ->
  i < batchCounter st /\ paused st = false /\
  isFinalized (batchAt st i) = false /\
  timestamp (batchAt st i) + challengePeriod st < blockTimestamp c /\
  isFinalized (batchAt st' i) = true /\
  isChallenged (batchAt st' i) = isChallenged (batchAt st i) /\
  currentStateRoot st'
  = (if isChallenged (batchAt st i) then currentStateRoot st
     else stateRoot (batchAt st i)).
Proof.
  intros Hex. unfold finalizeBatch in Hex. split_ifs Hex. injection Hex as <-.
  match goal with H : checkedAdd _ _ = Some _ |- _ =>
    apply checkedAdd_Some in H; destruct H as [-> _] end.
  repeat match goal with
         | H : negb _ = false |- _ => apply negb_false_iff in H
         end.
  repeat split.
  - now apply Z.ltb_lt.
  - match goal with H : (_ >? _) = true |- _ => apply Z.gtb_lt in H; exact H end.
  - unfold batchAt at 1. simpl. now rewrite lookup_insert_eq.
  - unfold batchAt at 1. simpl. now rewrite lookup_insert_eq.
  - simpl. now destruct (isChallenged (batchAt st i)).
Qed.


End RollupContractFacts.

(** *** Sample runs of the contract *)


(** * Further properties of the code *)

(** ** MerkleTree: proofs, height and [addLeaf] *)

Section MerkleMore.

Variable sha256 : Merkle.Encoding -> string -> string.

Local Abbreviation hashLeaf := (Merkle.hashLeaf sha256).
Local Abbreviation hashNodes := (Merkle.hashNodes sha256).
Local Abbreviation nextLevel := (Merkle.nextLevel sha256).
Local Abbreviation buildLoop := (Merkle.buildLoop sha256).
Local Abbreviation foldProof := (Merkle.foldProof sha256).

(** *** The position labels *)

Lemma foldProof_hashes (leaf : string) (p q : list Merkle.ProofNode) :
  map Merkle.hash p = map Merkle.hash q -> foldProof leaf p = foldProof leaf q.
Proof.
  unfold Merkle.foldProof. revert leaf q.
  induction p as [|n p IH]; intros leaf [|m q] H; try discriminate; [reflexivity|].
  simpl in H. injection H as Hh Ht. simpl.
  assert (E : (if String.eqb (Merkle.position n) "left"
               then hashNodes (Merkle.hash n) leaf else hashNodes leaf (Merkle.hash n))
              = (if String.eqb (Merkle.position m) "left"
                 then hashNodes (Merkle.hash m) leaf else hashNodes leaf (Merkle.hash m))).
  { rewrite Hh.
    destruct (String.eqb (Merkle.position n) "left"),
             (String.eqb (Merkle.position m) "left");
      try reflexivity; apply hashNodes_comm. }
  rewrite E. apply IH. exact Ht.
Qed.

(** X1.  [verifyProof] does not look at which side a sibling is on: two
    proofs with the same sibling digests in the same order get the same
    answer, whatever their position labels. *)
Theorem verifyProof_ignores_positions (leaf : string) (p q : list Merkle.ProofNode)
    (root : option Merkle.TreeEntry) :
  map Merkle.hash p = map Merkle.hash q ->
  Merkle.verifyProof sha256 leaf p root = Merkle.verifyProof sha256 leaf q root.
Proof.
  intros H. unfold Merkle.verifyProof. now rewrite (foldProof_hashes leaf p q H).
Qed.

(** *** Trees over 2^k leaves *)

Lemma nextLevel_nth (cur : list string) (j : nat) :
  (2 * j + 1 < List.length cur)%nat ->
  nth j (nextLevel cur) "" = hashNodes (nth (2 * j) cur "") (nth (2 * j + 1) cur "").
Proof.
  revert j. induction cur as [|a|a b cur IH] using list_pair_ind; intros j Hj.
  - simpl in Hj. lia.
  - simpl in Hj. lia.
  - destruct j as [|j].
    + reflexivity.
    + simpl in Hj. cbn [Merkle.nextLevel nth].
      replace (2 * S j)%nat with (S (S (2 * j))) by lia.
      replace (S (S (2 * j)) + 1)%nat with (S (S (2 * j + 1))) by lia.
      cbn [nth]. apply IH. lia.
Qed.

Lemma div2_S_pow2 (k : nat) : Nat.div2 (S (2 ^ S k)) = (2 ^ k)%nat.
Proof.
  rewrite Nat.pow_succ_r'. generalize (2 ^ k)%nat as n. intros n.
  replace (S (2 * n)) with (1 + 2 * n)%nat by lia.
  rewrite Nat.div2_div. replace (1 + 2 * n)%nat with (1 + n * 2)%nat by lia.
  rewrite Nat.div_add by lia. reflexivity.
Qed.

Lemma pow2_pos (k : nat) : (1 <= 2 ^ k)%nat.
Proof. induction k; simpl; lia. Qed.

Lemma proofLoop_step (level next : Merkle.TreeEntry) (rest : list Merkle.TreeEntry)
    (i : nat) :
  Merkle.proofLoop (level :: next :: rest) i
  = (if ((if Nat.even i then i + 1 else i - 1) <? Merkle.entryLength level)%nat
     then [{| Merkle.hash :=
                Merkle.entryAt level (if Nat.even i then i + 1 else i - 1)%nat;
              Merkle.position := if Nat.even i then "right" else "left" |}]
     else [])
    ++ Merkle.proofLoop (next :: rest) (i / 2).
Proof. reflexivity. Qed.

Lemma foldProof_cons (leaf : string) (n : Merkle.ProofNode) (p : list Merkle.ProofNode) :
  foldProof leaf (n :: p)
  = foldProof (if String.eqb (Merkle.position n) "left"
               then hashNodes (Merkle.hash n) leaf
               else hashNodes leaf (Merkle.hash n)) p.
Proof. reflexivity. Qed.

Lemma odd_mod2 (i : nat) : Nat.even i = false -> (i mod 2 = 1)%nat.
Proof.
  intros Hev. pose proof (Nat.mod_upper_bound i 2 ltac:(lia)) as Hub.
  pose proof (Nat.div_mod_eq i 2) as Hdm.
  destruct (i mod 2)%nat as [|[|?]] eqn:Em; try lia.
  exfalso. assert (Nat.even i = true); [|congruence].
  apply Nat.even_spec. exists (i / 2)%nat. lia.
Qed.

Lemma even_mod2 (i : nat) : Nat.even i = true -> (i mod 2 = 0)%nat.
Proof.
  intros Hev. apply Nat.even_spec in Hev. destruct Hev as [m ->].
  rewrite Nat.mul_comm. apply Nat.Div0.mod_mul.
Qed.

(** The proof of any leaf of a level of 2^k digests folds to the one digest
    of the last level built above it. *)
Lemma proof_folds_to_top (k : nat) :
  forall (cur : list string) (fuel i : nat),
    List.length cur = (2 ^ k)%nat -> (2 ^ k <= fuel)%nat -> (i < 2 ^ k)%nat ->
    exists h,
      last (cur :: buildLoop fuel cur) = Some [h] /\
      foldProof (nth i cur "")
        (Merkle.proofLoop (map Merkle.Level (cur :: buildLoop fuel cur)) i) = h.
Proof.
  induction k as [|k IH]; intros cur fuel i Hlen Hfuel Hi.
  - simpl in *. destruct cur as [|x [|? ?]]; simpl in Hlen; try lia.
    assert (i = 0)%nat by lia. subst i.
    exists x. destruct fuel; simpl; auto.
  - pose proof (pow2_pos k) as Hk.
    assert (Hlen2 : (2 ^ S k = 2 * 2 ^ k)%nat) by apply Nat.pow_succ_r'.
    destruct fuel as [|fuel]; [lia|].
    cbn [Merkle.buildLoop].
    assert (E : (1 <? List.length cur)%nat = true) by (apply Nat.ltb_lt; lia).
    rewrite E. cbv zeta.
    assert (Hn : List.length (nextLevel cur) = (2 ^ k)%nat).
    { rewrite (nextLevel_length sha256), Hlen. apply div2_S_pow2. }
    destruct (IH (nextLevel cur) fuel (i / 2)%nat Hn) as [h [Hlast Hfold]].
    { lia. }
    { apply Nat.Div0.div_lt_upper_bound. lia. }
    exists h. split.
    + destruct cur; [simpl in Hlen; lia|]. exact Hlast.
    + cbn [map] in Hfold |- *.
      rewrite proofLoop_step. cbn [Merkle.entryLength Merkle.entryAt].
      pose proof (Nat.div_mod_eq i 2) as Hdm.
      destruct (Nat.even i) eqn:Hev.
      * pose proof (even_mod2 i Hev) as Hm.
        assert (Hs : (i + 1 <? List.length cur)%nat = true) by (apply Nat.ltb_lt; lia).
        rewrite Hs. cbn [app]. rewrite foldProof_cons. cbn [Merkle.position Merkle.hash].
        change (String.eqb "right" "left") with false. cbv iota.
        rewrite <- Hfold. f_equal.
        rewrite nextLevel_nth by lia.
        replace (2 * (i / 2))%nat with i by lia. reflexivity.
      * pose proof (odd_mod2 i Hev) as Hm.
        assert (Hs : (i - 1 <? List.length cur)%nat = true) by (apply Nat.ltb_lt; lia).
        rewrite Hs. cbn [app]. rewrite foldProof_cons. cbn [Merkle.position Merkle.hash].
        change (String.eqb "left" "left") with true. cbv iota.
        rewrite <- Hfold. f_equal.
        rewrite nextLevel_nth by lia.
        replace (2 * (i / 2))%nat with (i - 1)%nat by lia.
        replace (i - 1 + 1)%nat with i by lia. reflexivity.
Qed.

(** X2.  For a tree over 2^k leaves, k >= 1, the proof that [getProof]
    returns for any valid index folds, from the digest of that leaf, to the
    digest held in the root level: [verifyProof] of the leaf and its proof
    against that digest returns true. *)
Theorem power_of_two_proofs_verify (k : nat) (data : list string) (i : Z) :
  (1 <= k)%nat -> List.length data = (2 ^ k)%nat ->
  0 <= i < Z.of_nat (List.length data) ->
  let t := Merkle.new sha256 data in
  exists proof h,
    Merkle.getProof t i = Ok proof /\
    Merkle.getRoot t = Some (Merkle.Level [h]) /\
    Merkle.verifyProof sha256 (hashLeaf (nth (Z.to_nat i) data "")) proof
      (Some (Merkle.Digest h)) = Ok true.
Proof.
  intros Hk Hlen Hi t.
  assert (Hlv : List.length (map hashLeaf data) = (2 ^ k)%nat) by now rewrite length_map.
  destruct (proof_folds_to_top k (map hashLeaf data) (List.length (map hashLeaf data))
              (Z.to_nat i) Hlv) as [h [Hlast Hfold]]; [lia | lia |].
  assert (H2 : (2 <= 2 ^ k)%nat).
  { destruct k as [|k]; [lia|]. rewrite Nat.pow_succ_r'. pose proof (pow2_pos k). lia. }
  assert (Htree : Merkle.tree t
                  = map Merkle.Level (map hashLeaf data
                                      :: buildLoop (List.length (map hashLeaf data))
                                           (map hashLeaf data))).
  { subst t. unfold Merkle.new. cbn [Merkle.tree]. unfold Merkle.buildTree.
    destruct (map hashLeaf data) as [|a [|b l]] eqn:E; simpl in Hlv; try lia.
    reflexivity. }
  exists (Merkle.proofLoop (Merkle.tree t) (Z.to_nat i)), h.
  split; [|split].
  - apply getProof_in_range. subst t. simpl. now rewrite length_map.
  - subst t. unfold Merkle.getRoot, Merkle.new in *. cbn [Merkle.root Merkle.tree] in *.
    rewrite Htree, (last_map Merkle.Level), Hlast. reflexivity.
  - unfold Merkle.verifyProof. rewrite Htree.
    rewrite (nth_indep _ "" (hashLeaf "")) in Hfold by lia.
    rewrite map_nth in Hfold. rewrite Hfold.
    now rewrite String.eqb_refl.
Qed.

(** *** Height of the tree and length of a proof *)

Lemma buildLoop_height (fuel : nat) :
  forall cur : list string,
    (List.length cur <= fuel)%nat -> (1 <= List.length cur)%nat ->
    (List.length cur <= 2 ^ List.length (buildLoop fuel cur))%nat /\
    ((2 <= List.length cur)%nat ->
     (2 ^ (List.length (buildLoop fuel cur) - 1) < List.length cur)%nat).
Proof.
  induction fuel as [|fuel IH]; intros cur Hf Hpos; [lia|].
  cbn [Merkle.buildLoop].
  destruct (1 <? List.length cur)%nat eqn:E.
  - apply Nat.ltb_lt in E. cbv zeta. cbn [List.length].
    pose proof (nextLevel_length sha256 cur) as Hn.
    pose proof (div2_S_le (List.length cur) ltac:(lia)) as Hle.
    pose proof (div2_S_pos (List.length cur) ltac:(lia)) as Hge.
    destruct (IH (nextLevel cur)) as [Hup Hlow]; [lia | lia |].
    assert (Hhalf : (List.length cur <= 2 * List.length (nextLevel cur))%nat).
    { rewrite Hn. rewrite Nat.div2_div.
      pose proof (Nat.div_mod_eq (S (List.length cur)) 2).
      pose proof (Nat.mod_upper_bound (S (List.length cur)) 2 ltac:(lia)). lia. }
    assert (Hhalf' : (2 * List.length (nextLevel cur) <= List.length cur + 1)%nat).
    { rewrite Hn. rewrite Nat.div2_div.
      pose proof (Nat.div_mod_eq (S (List.length cur)) 2). lia. }
    split.
    + rewrite Nat.pow_succ_r'. lia.
    + intros _. replace (S (List.length (buildLoop fuel (nextLevel cur))) - 1)%nat
        with (List.length (buildLoop fuel (nextLevel cur))) by lia.
      destruct (Nat.le_gt_cases 2 (List.length (nextLevel cur))) as [H2|H1].
      * specialize (Hlow H2).
        destruct (List.length (buildLoop fuel (nextLevel cur))) as [|k] eqn:Ek.
        -- simpl. lia.
        -- rewrite Nat.pow_succ_r'. simpl in Hlow. rewrite Nat.sub_0_r in Hlow. lia.
      * assert (Hone : List.length (nextLevel cur) = 1%nat) by lia.
        assert (Hk0 : buildLoop fuel (nextLevel cur) = []).
        { destruct fuel; [reflexivity|]. cbn [Merkle.buildLoop].
          rewrite Hone. reflexivity. }
        rewrite Hk0. simpl. lia.
  - apply Nat.ltb_ge in E. simpl. split; lia.
Qed.

Lemma proofLoop_length (levels : list Merkle.TreeEntry) :
  forall i, (List.length (Merkle.proofLoop levels i) <= List.length levels - 1)%nat.
Proof.
  induction levels as [|level [|next rest] IH]; intros i; [simpl; lia | simpl; lia |].
  rewrite proofLoop_step, length_app.
  specialize (IH (i / 2)%nat). cbn [List.length] in IH |- *.
  destruct (_ <? _)%nat; cbn [List.length]; lia.
Qed.

(** X3.  The tree over n >= 2 leaves has a height h (its number of levels,
    what [getStats] reports) with 2^(h-2) < n <= 2^(h-1); no leaves give
    height 0 and one leaf height 1.  A proof returned by [getProof] has at
    most h - 1 nodes. *)
Theorem tree_height_and_proof_length (data : list string) :
  let t := Merkle.new sha256 data in
  let h := MerkleOps.treeHeight (MerkleOps.getStats t) in
  MerkleOps.leafCount (MerkleOps.getStats t) = List.length data /\
  (List.length data = 0%nat -> h = 0%nat) /\
  (List.length data = 1%nat -> h = 1%nat) /\
  ((2 <= List.length data)%nat ->
   (2 <= h)%nat /\ (2 ^ (h - 2) < List.length data <= 2 ^ (h - 1))%nat) /\
  (forall i proof, Merkle.getProof t i = Ok proof ->
     (List.length proof <= h - 1)%nat).
Proof.
  intros t h. subst h t. unfold MerkleOps.getStats, Merkle.new.
  cbn [MerkleOps.treeHeight MerkleOps.leafCount Merkle.leaves Merkle.tree].
  rewrite length_map.
  split; [reflexivity|]. split; [|split; [|split]].
  - intros H0. destruct data; [reflexivity|discriminate].
  - intros H1. destruct data as [|a [|b l]]; try discriminate. reflexivity.
  - intros H2.
    remember (map hashLeaf data) as lv eqn:Elv.
    assert (Hl : List.length lv = List.length data) by (subst; apply length_map).
    destruct lv as [|a [|b lv]]; simpl in Hl; try lia.
    unfold Merkle.buildTree. rewrite length_map. cbn [List.length].
    destruct (buildLoop_height (S (S (List.length lv))) (a :: b :: lv)) as [Hup Hlow];
      [simpl; lia | simpl; lia |].
    specialize (Hlow ltac:(simpl; lia)).
    cbn [List.length] in Hup, Hlow.
    set (k := List.length (buildLoop (S (S (List.length lv))) (a :: b :: lv))) in *.
    assert (Hk : (1 <= k)%nat).
    { subst k. cbn [Merkle.buildLoop]. simpl. lia. }
    replace (S k - 2)%nat with (k - 1)%nat by lia.
    replace (S k - 1)%nat with k by lia.
    rewrite <- Hl. split; [lia|]. split; assumption.
  - intros i proof Hp. unfold Merkle.getProof in Hp. cbn [Merkle.leaves Merkle.tree] in Hp.
    destruct (_ || _); [discriminate|]. injection Hp as <-.
    apply proofLoop_length.
Qed.

(** *** addLeaf *)

(** X4.  [addLeaf] returns only on an empty tree, where it gives the tree
    over the one leaf.  On a tree of one leaf it rebuilds the tree over the
    two leaves and then throws while logging the new root; on a tree of two
    or more leaves it throws while rebuilding, leaving the new leaf in
    [leaves] but [tree] and [root] as they were. *)
Theorem addLeaf_returns_only_on_empty (data : list string) (x : string) :
  let t := Merkle.new sha256 data in
  (List.length data = 0%nat ->
   MerkleOps.addLeaf sha256 x t
   = (Ok (Some (Merkle.Digest (hashLeaf x))), Merkle.new sha256 [x])) /\
  (List.length data = 1%nat ->
   exists msg,
     MerkleOps.addLeaf sha256 x t = (Throw msg, Merkle.new sha256 (data ++ [x]))) /\
  ((2 <= List.length data)%nat ->
   exists msg,
     MerkleOps.addLeaf sha256 x t
     = (Throw msg, {| Merkle.leaves := Merkle.leaves t ++ [hashLeaf x];
                      Merkle.tree := Merkle.tree t;
                      Merkle.root := Merkle.root t |})).
Proof.
  intros t. split; [|split].
  - intros H0. destruct data; [|discriminate]. reflexivity.
  - intros H1. destruct data as [|a [|b l]]; try discriminate.
    subst t. unfold MerkleOps.addLeaf, MerkleOps.buildTreeLogged. simpl.
    eexists. reflexivity.
  - intros H2. destruct (root_is_level sha256 data H2) as [h Hh].
    unfold Merkle.getRoot in Hh. fold t in Hh.
    assert (Hl : (2 <= List.length (Merkle.leaves t))%nat).
    { subst t. simpl. now rewrite length_map. }
    clearbody t.
    unfold MerkleOps.addLeaf, MerkleOps.buildTreeLogged. cbn [Merkle.leaves Merkle.root].
    rewrite Hh.
    destruct (Merkle.leaves t) as [|a [|b l]]; simpl in Hl; try lia.
    simpl. eexists. reflexivity.
Qed.

End MerkleMore.

(** ** RollupManager: batches, queue and root *)

(** *** Ids *)

Lemma pretty_N_char_noUnderscore (x : N) : pretty_N_char x <> "_"%char.
Proof. unfold pretty_N_char. repeat case_match; discriminate. Qed.

Lemma pretty_N_go_noUnderscore (x : N) :
  forall s, RollupOps.noUnderscore s -> RollupOps.noUnderscore (pretty_N_go x s).
Proof.
  induction (N.lt_wf_0 x) as [x _ IH]; intros s Hs.
  destruct (N.eq_dec x 0%N) as [->|Hx].
  - now rewrite pretty_N_go_0.
  - rewrite pretty_N_go_step by lia. apply IH.
    + apply N.div_lt; lia.
    + split; [apply pretty_N_char_noUnderscore | exact Hs].
Qed.

Lemma pretty_N_noUnderscore (x : N) : RollupOps.noUnderscore (pretty x).
Proof.
  unfold pretty, pretty_N. case_decide.
  - simpl. split; [discriminate | exact I].
  - apply pretty_N_go_noUnderscore. exact I.
Qed.

Lemma pretty_Z_noUnderscore (z : Z) : RollupOps.noUnderscore (pretty z).
Proof.
  destruct z as [|p|p]; unfold pretty, pretty_Z.
  - simpl. split; [discriminate | exact I].
  - apply pretty_N_noUnderscore.
  - simpl. split; [discriminate | apply pretty_N_noUnderscore].
Qed.

Lemma split_at_underscore (s1 s2 t1 t2 : string) :
  RollupOps.noUnderscore s1 -> RollupOps.noUnderscore s2 ->
  s1 +:+ String "_" t1 = s2 +:+ String "_" t2 -> s1 = s2 /\ t1 = t2.
Proof.
  revert s2. induction s1 as [|c s1 IH]; intros [|d s2] H1 H2 E; simpl in *.
  - injection E as ->. auto.
  - injection E as <- _. destruct H2 as [H2 _]. congruence.
  - injection E as -> _. destruct H1 as [H1 _]. congruence.
  - injection E as -> E. destruct H1 as [_ H1], H2 as [_ H2].
    destruct (IH s2 H1 H2 E) as [-> ->]. auto.
Qed.

Section RollupMore.

Variable sha256 : Merkle.Encoding -> string -> string.
Variable JSON_stringify : gmap string JsValue -> string.
Variable toUtf8Bytes : string -> list Byte.byte.
Variable keccak256 : BytesLike -> string.
Variable concat : list BytesLike -> string.

(** [digest('hex')] returns text of hexadecimal digits. *)
Hypothesis digest_hex : forall enc data, hexDigits (sha256 enc data) = true.

Local Abbreviation createBatch :=
  (Rollup.createBatch sha256 JSON_stringify toUtf8Bytes keccak256 concat).
Local Abbreviation addTransaction :=
  (Rollup.addTransaction sha256 JSON_stringify toUtf8Bytes keccak256 concat).
Local Abbreviation step :=
  (Rollup.step sha256 JSON_stringify toUtf8Bytes keccak256 concat).
Local Abbreviation run :=
  (Rollup.run sha256 JSON_stringify toUtf8Bytes keccak256 concat).

Lemma run_app (ops ops' : list Rollup.Op) (st : Rollup.RollupManager) :
  run (ops ++ ops') st = run ops' (run ops st).
Proof. unfold Rollup.run. apply fold_left_app. Qed.

(** The state [createBatch] leaves: the queue without its first batchSize
    transactions, and nothing else changed. *)
Lemma createBatch_state (now : Z) (rnd : string) (st : Rollup.RollupManager) :
  snd (createBatch now rnd st)
  = Rollup.setPending
      (skipn (Z.to_nat (Rollup.batchSize st)) (Rollup.pendingTransactions st)) st.
Proof.
  destruct (Rollup.pendingTransactions st) as [|q qs] eqn:Eq.
  - unfold Rollup.createBatch. rewrite Eq. simpl. rewrite skipn_nil.
    destruct st; simpl in *. now subst.
  - rewrite (createBatch_nonempty sha256 JSON_stringify toUtf8Bytes keccak256 concat
               digest_hex now rnd st) by (rewrite Eq; discriminate).
    now rewrite Eq.
Qed.

(** Every call leaves the state it found, or the one [initialize] sets up,
    or the one it found with another queue. *)
Lemma step_state (op : Rollup.Op) (st : Rollup.RollupManager) :
  (exists a, op = Rollup.OpInitialize true a /\
             snd (step op st) = snd (Rollup.initialize true a st)) \/
  exists q, snd (step op st) = Rollup.setPending q st.
Proof.
  assert (Hsame : Rollup.setPending (Rollup.pendingTransactions st) st = st)
    by (destruct st; reflexivity).
  destruct op; simpl.
  - destruct providerOk; [left; eauto|]. right. eexists. symmetry. exact Hsame.
  - right. unfold Rollup.addTransaction.
    destruct (negb (Rollup.validateTransaction transaction));
      [eexists; symmetry; exact Hsame|].
    cbv zeta. destruct (_ >=? _); [|eauto].
    rewrite createBatch_state. eexists. reflexivity.
  - right. rewrite createBatch_state. eauto.
Qed.

(** *** No batch is stored *)

Lemma nothingStored_step (op : Rollup.Op) (st : Rollup.RollupManager) :
  RollupOps.nothingStored st -> RollupOps.nothingStored (snd (step op st)).
Proof.
  intros Hinv. destruct (step_state op st) as [(a & _ & ->) | (q & ->)]; exact Hinv.
Qed.

Lemma nothingStored_run (ops : list Rollup.Op) (st : Rollup.RollupManager) :
  RollupOps.nothingStored st -> RollupOps.nothingStored (run ops st).
Proof.
  revert st. induction ops as [|op ops IH]; intros st Hinv; [exact Hinv|].
  apply IH, nothingStored_step, Hinv.
Qed.

(** X5.  The coordinator never stores a batch.  After any sequence of
    calls on a new manager [getStats] reports no batch and a counter of 0,
    [getBatch] finds nothing under any id, and [createBatch] on a queue
    that is not empty throws and stores nothing. *)
Theorem no_batch_is_ever_stored (config : Rollup.Config) (ops : list Rollup.Op) :
  let st := run ops (Rollup.new config) in
  RollupOps.totalBatches (RollupOps.getStats st) = 0%nat /\
  RollupOps.statsBatchCounter (RollupOps.getStats st) = 0 /\
  (forall i, RollupOps.getBatch i st = None) /\
  forall now rnd,
    (Rollup.pendingTransactions st <> [] ->
     fst (createBatch now rnd st) = Throw "invalid BytesLike value") /\
    forall i, RollupOps.getBatch i (snd (createBatch now rnd st)) = None.
Proof.
  intros st.
  assert (Hinv : RollupOps.nothingStored st).
  { apply nothingStored_run. split; reflexivity. }
  destruct Hinv as [Hb Hc]. unfold RollupOps.getStats, RollupOps.getBatch. simpl.
  rewrite Hb, Hc. split; [apply map_size_empty|]. split; [reflexivity|].
  split; [intros i; apply lookup_empty|].
  intros now rnd. split.
  - intros Hq.
    now rewrite (createBatch_nonempty sha256 JSON_stringify toUtf8Bytes keccak256 concat
                   digest_hex now rnd st Hq).
  - intros i. rewrite createBatch_state. simpl. rewrite Hb. apply lookup_empty.
Qed.

(** *** The queue *)

Lemma queueInvariant_createBatch (size now : Z) (rnd : string)
    (s : Rollup.RollupManager) :
  1 <= size ->
  Rollup.batchSize s = size ->
  Z.of_nat (List.length (Rollup.pendingTransactions s)) <= size ->
  RollupOps.queueInvariant size (snd (createBatch now rnd s)) /\
  Rollup.pendingTransactions (snd (createBatch now rnd s)) = [].
Proof.
  intros Hsize Hbs Hlen. rewrite createBatch_state.
  assert (Hnil : skipn (Z.to_nat (Rollup.batchSize s)) (Rollup.pendingTransactions s) = []).
  { apply skipn_all2. lia. }
  unfold RollupOps.queueInvariant. simpl. rewrite Hnil. simpl.
  split; [split; [exact Hbs|lia]|reflexivity].
Qed.

Lemma queueInvariant_step (size : Z) (op : Rollup.Op) (st : Rollup.RollupManager) :
  1 <= size ->
  RollupOps.queueInvariant size st ->
  RollupOps.queueInvariant size (snd (step op st)).
Proof.
  intros Hsize Hinv. pose proof Hinv as (Hbs & Hlen).
  destruct op; simpl.
  - unfold Rollup.initialize. destruct providerOk; exact Hinv.
  - unfold Rollup.addTransaction.
    destruct (negb (Rollup.validateTransaction transaction)); [exact Hinv|].
    cbv zeta. destruct (_ >=? _) eqn:E.
    + apply queueInvariant_createBatch; try assumption.
      simpl. rewrite length_app. simpl. lia.
    + unfold RollupOps.queueInvariant. simpl in *.
      split; [exact Hbs|]. lia.
  - apply queueInvariant_createBatch; try assumption. lia.
Qed.

Lemma queueInvariant_run (size : Z) (ops : list Rollup.Op) (st : Rollup.RollupManager) :
  1 <= size ->
  RollupOps.queueInvariant size st ->
  RollupOps.queueInvariant size (run ops st).
Proof.
  intros Hsize. revert st. induction ops as [|op ops IH]; intros st Hinv; [exact Hinv|].
  apply IH, queueInvariant_step; assumption.
Qed.

(** X6.  With a batch size of at least one, after any sequence of calls on
    a new manager the pending queue is shorter than batchSize, and
    [createBatch] leaves the queue empty: it takes every queued transaction
    off, and those are then in no batch. *)
Theorem queue_stays_below_batch_size (config : Rollup.Config)
    (ops : list Rollup.Op) :
  1 <= Rollup.cfg_batchSize config ->
  let st := run ops (Rollup.new config) in
  Z.of_nat (RollupOps.pendingCount (RollupOps.getStats st))
    < Rollup.cfg_batchSize config /\
  forall now rnd,
    Rollup.pendingTransactions (snd (createBatch now rnd st)) = [] /\
    Rollup.batches (snd (createBatch now rnd st)) = ∅.
Proof.
  intros Hsize st.
  assert (Hinv : RollupOps.queueInvariant (Rollup.cfg_batchSize config) st).
  { apply queueInvariant_run; [exact Hsize|].
    unfold RollupOps.queueInvariant. simpl. split; [reflexivity|lia]. }
  assert (Hnone : RollupOps.nothingStored st).
  { apply nothingStored_run. split; reflexivity. }
  pose proof Hinv as (Hbs & Hlen).
  split; [exact Hlen|].
  intros now rnd. split.
  - apply (queueInvariant_createBatch (Rollup.cfg_batchSize config));
      try assumption. lia.
  - rewrite createBatch_state. simpl. apply Hnone.
Qed.

(** *** The state root *)

Lemma rootInvariant_step (op : Rollup.Op) (st : Rollup.RollupManager) :
  RollupOps.rootInvariant st ->
  RollupOps.rootInvariant (snd (step op st)).
Proof.
  intros Hinv. destruct (step_state op st) as [(a & _ & ->) | (q & ->)].
  - reflexivity.
  - exact Hinv.
Qed.

Lemma rootInvariant_run (ops : list Rollup.Op) (st : Rollup.RollupManager) :
  RollupOps.rootInvariant st -> RollupOps.rootInvariant (run ops st).
Proof.
  revert st. induction ops as [|op ops IH]; intros st Hinv; [exact Hinv|].
  apply IH, rootInvariant_step, Hinv.
Qed.

(** X7.  The manager's root never advances.  After any sequence of calls
    on a new manager the root that [getStats] reports is null while no
    [initialize] has succeeded, and the zero hash that [loadState] sets
    once one has. *)
Theorem state_root_provenance (config : Rollup.Config) (ops : list Rollup.Op) :
  let st := run ops (Rollup.new config) in
  (Rollup.contract st = None ->
   RollupOps.statsStateRoot (RollupOps.getStats st) = None) /\
  (Rollup.contract st <> None ->
   RollupOps.statsStateRoot (RollupOps.getStats st) = Some Rollup.ZeroHash).
Proof.
  intros st.
  assert (Hinv : RollupOps.rootInvariant st) by (apply rootInvariant_run; reflexivity).
  unfold RollupOps.rootInvariant in Hinv. simpl.
  destruct (Rollup.contract st); split; congruence.
Qed.

(** *** An accepted transaction *)

(** X8.  When [addTransaction] returns without throwing, the transaction
    was valid and is the last of the pending queue, after those that were
    there, the queue is still shorter than batchSize, and nothing else has
    changed. *)
Theorem accepted_transaction_is_kept (tx : gmap string JsValue) (now : Z)
    (rnd rnd1 : string) (st : Rollup.RollupManager) :
  let res := addTransaction tx now rnd rnd1 st in
  fst res = Ok () ->
  Rollup.validateTransaction tx = true /\
  snd res
  = Rollup.setPending (Rollup.pendingTransactions st ++ [Rollup.queued tx now rnd]) st /\
  last (Rollup.pendingTransactions (snd res)) = Some (Rollup.queued tx now rnd) /\
  Z.of_nat (List.length (Rollup.pendingTransactions (snd res))) < Rollup.batchSize st.
Proof.
  intros res. subst res. unfold Rollup.addTransaction.
  destruct (Rollup.validateTransaction tx) eqn:Ev; simpl negb; cbv iota; [|discriminate].
  cbv zeta.
  set (appended := Rollup.pendingTransactions st ++ [Rollup.queued tx now rnd]).
  set (st1 := Rollup.setPending appended st).
  change (Rollup.pendingTransactions st1) with appended.
  change (Rollup.batchSize st1) with (Rollup.batchSize st).
  destruct (Z.of_nat (List.length appended) >=? Rollup.batchSize st) eqn:E.
  - assert (Hq : Rollup.pendingTransactions st1 <> []).
    { simpl. unfold appended. destruct (Rollup.pendingTransactions st); discriminate. }
    rewrite (createBatch_nonempty sha256 JSON_stringify toUtf8Bytes keccak256 concat
               digest_hex now rnd1 st1 Hq).
    discriminate.
  - intros _. rewrite Z.geb_leb in E. apply Z.leb_gt in E. simpl.
    split; [reflexivity|]. split; [reflexivity|].
    split; [apply last_snoc|exact E].
Qed.

End RollupMore.

(** ** CrossChainBridge: deposits, records and the event log *)

Section BridgeMore.

Variable parseEther : string -> option Z.
Variable keccak256_json : Bridge.ProofData -> string.
Variable isAddress : string -> bool.

Local Abbreviation withdraw := (Bridge.withdraw parseEther keccak256_json isAddress).
Local Abbreviation deposit := (Bridge.deposit parseEther keccak256_json isAddress).
Local Abbreviation bstep := (Bridge.step parseEther keccak256_json isAddress).
Local Abbreviation brun := (Bridge.run parseEther keccak256_json isAddress).
Local Abbreviation reachable := (Bridge.reachable parseEther keccak256_json isAddress).

Local Arguments Bridge.proofWellFormed : simpl never.
Local Arguments Bridge.generateDepositId : simpl never.
Local Arguments Bridge.generateWithdrawalId : simpl never.

(** *** The event log *)

Lemma addBridgeEvent_log (t d : string) (now : Z) (st : Bridge.CrossChainBridge) :
  let st' := Bridge.addBridgeEvent t d now st in
  let e := {| Bridge.type := t; Bridge.data := d; Bridge.timestamp := now |} in
  (List.length (Bridge.bridgeEvents st') <= 1000)%nat /\
  last (Bridge.bridgeEvents st') = Some e /\
  forall P : Bridge.BridgeEvent -> Prop,
    Forall P (Bridge.bridgeEvents st) -> P e -> Forall P (Bridge.bridgeEvents st').
Proof.
  intros st' e. subst st'. unfold Bridge.addBridgeEvent. cbv zeta. simpl.
  fold e. rewrite length_app. simpl.
  destruct (1000 <? List.length (Bridge.bridgeEvents st) + 1)%nat eqn:E.
  - apply Nat.ltb_lt in E. split; [rewrite length_skipn, length_app; simpl; lia|].
    split.
    + rewrite drop_app_le by lia. apply last_snoc.
    + intros P HP He. apply Forall_drop, Forall_app. auto.
  - apply Nat.ltb_ge in E. split; [rewrite length_app; simpl; lia|].
    split; [apply last_snoc|].
    intros P HP He. apply Forall_app. auto.
Qed.

(** *** Encoding the call data *)

Lemma encodeTokenAmount_spec (isAddress' : string -> bool) (token : string) (a : Z) :
  Bridge.encodeTokenAmount isAddress' token a
  = if isAddress' token && (0 <=? a) && (a <=? Bridge.MAX_UINT256)
    then Ok ()
    else Throw (if isAddress' token then "value out-of-bounds" else "invalid address").
Proof.
  unfold Bridge.encodeTokenAmount.
  destruct (isAddress' token); simpl; [|reflexivity].
  rewrite Z.gtb_ltb.
  destruct (Z.ltb_spec a 0), (Z.leb_spec 0 a), (Z.leb_spec a Bridge.MAX_UINT256),
    (Z.ltb_spec Bridge.MAX_UINT256 a); simpl; try reflexivity; lia.
Qed.

(** *** deposit *)

(** What an accepted [deposit] does. *)
Lemma deposit_effect (userAddress : string) (tokenAddress : option string)
    (amount : string) (options : gmap string JsValue) (now : Z)
    (rnd rnd1 rnd2 : string) (st : Bridge.CrossChainBridge) (a : Z) :
  parseEther amount = Some a ->
  Bridge.minDepositAmount st <= a <= Bridge.maxDepositAmount st ->
  let res := deposit userAddress tokenAddress amount options now rnd rnd1 rnd2 st in
  let depositId := Bridge.generateDepositId now rnd in
  let pf := keccak256_json {|
    Bridge.pd_kind := "depositId";
    Bridge.pd_id := depositId;
    Bridge.pd_userAddress := userAddress;
    Bridge.pd_tokenAddress := Bridge.orZeroAddress tokenAddress;
    Bridge.pd_amount := pretty a;
    Bridge.pd_timestamp := now |} in
  exists d,
    Bridge.deposits (snd res) = <[depositId := d]> (Bridge.deposits st) /\
    Bridge.Deposit.id d = depositId /\
    Bridge.Deposit.userAddress d = userAddress /\
    Bridge.Deposit.tokenAddress d = Bridge.orZeroAddress tokenAddress /\
    Bridge.Deposit.amount d = a /\
    Bridge.Deposit.timestamp d = now /\
    Bridge.withdrawals (snd res) = Bridge.withdrawals st /\
    Bridge.minDepositAmount (snd res) = Bridge.minDepositAmount st /\
    Bridge.maxDepositAmount (snd res) = Bridge.maxDepositAmount st /\
    Bridge.withdrawalDelay (snd res) = Bridge.withdrawalDelay st /\
    if isAddress (Bridge.orZeroAddress tokenAddress) && (0 <=? a)
         && (a <=? Bridge.MAX_UINT256) &&
       bool_decide (is_Some (Bridge.layer1Contract st)) &&
       bool_decide (is_Some (Bridge.layer2Contract st)) &&
       Bridge.proofWellFormed (Some pf)
    then
      fst res = Ok {| Bridge.dr_depositId := depositId;
                      Bridge.dr_status := "pending";
                      Bridge.dr_estimatedTime := "2-5 minutes" |} /\
      Bridge.Deposit.status d = "completed" /\
      Bridge.Deposit.proof d = Some pf /\
      Bridge.Deposit.layer1TxHash d = Some ("0x" +:+ rnd1) /\
      Bridge.Deposit.layer2TxHash d = Some ("0x" +:+ rnd2) /\
      Bridge.bridgeEvents (snd res)
        = Bridge.bridgeEvents
            (Bridge.addBridgeEvent "deposit_completed" depositId now st)
    else
      isThrow (fst res) = true /\
      Bridge.Deposit.status d = "failed" /\
      Bridge.Deposit.layer2TxHash d = None /\
      Bridge.bridgeEvents (snd res) = Bridge.bridgeEvents st.
Proof.
  intros Hparse [Hlo Hhi] res depositId pf. subst res.
  unfold Bridge.deposit. rewrite Hparse.
  destruct (a <? Bridge.minDepositAmount st) eqn:E1; [apply Z.ltb_lt in E1; lia|].
  destruct (a >? Bridge.maxDepositAmount st) eqn:E2; [apply Z.gtb_lt in E2; lia|].
  cbv zeta. unfold Bridge.submitDepositToLayer1. simpl.
  destruct (Bridge.layer1Contract st) eqn:Ec1; simpl.
  2: { rewrite andb_false_r.
       eexists. split; [apply insert_insert_eq|]. repeat split. }
  rewrite (encodeTokenAmount_spec isAddress).
  destruct (isAddress (Bridge.orZeroAddress tokenAddress) && (0 <=? a)
            && (a <=? Bridge.MAX_UINT256)) eqn:Eenc; simpl.
  2: { eexists. split; [apply insert_insert_eq|]. repeat split. }
  unfold Bridge.processDepositOnLayer2, Bridge.verifyDepositProof,
    Bridge.generateDepositProof. simpl.
  fold depositId. fold pf.
  destruct (Bridge.proofWellFormed (Some pf)) eqn:Epf; simpl.
  2: { rewrite andb_false_r.
       eexists. split; [rewrite !insert_insert_eq; reflexivity|]. repeat split. }
  destruct (Bridge.layer2Contract st) eqn:Ec2; simpl.
  2: { eexists. split; [rewrite !insert_insert_eq; reflexivity|]. repeat split. }
  rewrite ?bool_decide_eq_true_2 by eauto. simpl.
  eexists. split; [rewrite !insert_insert_eq; reflexivity|]. repeat split.
Qed.

Lemma deposit_rejected (userAddress : string) (tokenAddress : option string)
    (amount : string) (options : gmap string JsValue) (now : Z)
    (rnd rnd1 rnd2 : string) (st : Bridge.CrossChainBridge) :
  match parseEther amount with
  | None => True
  | Some a => a < Bridge.minDepositAmount st \/ Bridge.maxDepositAmount st < a
  end ->
  exists msg,
    deposit userAddress tokenAddress amount options now rnd rnd1 rnd2 st
    = (Throw msg, st).
Proof.
  unfold Bridge.deposit. destruct (parseEther amount) as [a|]; [|eauto].
  destruct (a <? Bridge.minDepositAmount st) eqn:E1; [eauto|].
  destruct (a >? Bridge.maxDepositAmount st) eqn:E2; [eauto|].
  apply Z.ltb_ge in E1. intros [H|H]; [lia|].
  rewrite Z.gtb_ltb in E2. apply Z.ltb_ge in E2. lia.
Qed.

(** X9.  [deposit] rejects an amount below minDepositAmount or above
    maxDepositAmount with the state as it was.  An amount in range is stored
    under the new id with the caller's address, the token (the zero address
    when none is given), the parsed amount and the instant; no other deposit
    and no withdrawal is touched.  On a bridge with both contract handles
    set up, for a token that is an address, an amount that is a uint256 and
    a 66-character proof digest, the call returns status pending although
    the stored record is already completed, with both transaction digests
    and the proof, and a deposit_completed event is the last of the log;
    when one of these fails the call throws, the record is stored as failed
    and no event is logged. *)
Theorem deposit_spec (userAddress : string) (tokenAddress : option string)
    (amount : string) (options : gmap string JsValue) (now : Z)
    (rnd rnd1 rnd2 : string) (st : Bridge.CrossChainBridge) (a : Z) :
  parseEther amount = Some a ->
  let res := deposit userAddress tokenAddress amount options now rnd rnd1 rnd2 st in
  let depositId := Bridge.generateDepositId now rnd in
  let token := Bridge.orZeroAddress tokenAddress in
  let pf := keccak256_json {|
    Bridge.pd_kind := "depositId";
    Bridge.pd_id := depositId;
    Bridge.pd_userAddress := userAddress;
    Bridge.pd_tokenAddress := token;
    Bridge.pd_amount := pretty a;
    Bridge.pd_timestamp := now |} in
  (a < Bridge.minDepositAmount st ->
   res = (Throw "Deposit amount too small", st)) /\
  (Bridge.minDepositAmount st <= a -> Bridge.maxDepositAmount st < a ->
   res = (Throw "Deposit amount too large", st)) /\
  (Bridge.minDepositAmount st <= a <= Bridge.maxDepositAmount st ->
   exists d,
     BridgeOps.getDeposit depositId (snd res) = Some d /\
     Bridge.Deposit.id d = depositId /\
     Bridge.Deposit.userAddress d = userAddress /\
     Bridge.Deposit.tokenAddress d = token /\
     Bridge.Deposit.amount d = a /\
     Bridge.Deposit.timestamp d = now /\
     (forall i, i <> depositId ->
        BridgeOps.getDeposit i (snd res) = BridgeOps.getDeposit i st) /\
     Bridge.withdrawals (snd res) = Bridge.withdrawals st /\
     (is_Some (Bridge.layer1Contract st) -> is_Some (Bridge.layer2Contract st) ->
      isAddress token = true -> 0 <= a <= Bridge.MAX_UINT256 ->
      String.length pf = 66%nat ->
      fst res = Ok {| Bridge.dr_depositId := depositId;
                      Bridge.dr_status := "pending";
                      Bridge.dr_estimatedTime := "2-5 minutes" |} /\
      Bridge.Deposit.status d = "completed" /\
      Bridge.Deposit.proof d = Some pf /\
      Bridge.Deposit.layer1TxHash d = Some ("0x" +:+ rnd1) /\
      Bridge.Deposit.layer2TxHash d = Some ("0x" +:+ rnd2) /\
      last (Bridge.bridgeEvents (snd res))
        = Some {| Bridge.type := "deposit_completed";
                  Bridge.data := depositId;
                  Bridge.timestamp := now |}) /\
     (Bridge.layer1Contract st = None \/ Bridge.layer2Contract st = None \/
      isAddress token = false \/ a < 0 \/ Bridge.MAX_UINT256 < a \/
      String.length pf <> 66%nat ->
      isThrow (fst res) = true /\
      Bridge.Deposit.status d = "failed" /\
      Bridge.Deposit.layer2TxHash d = None /\
      Bridge.bridgeEvents (snd res) = Bridge.bridgeEvents st)).
Proof.
  intros Hparse res depositId token pf. split; [|split].
  - intros Hlt. subst res. unfold Bridge.deposit. rewrite Hparse.
    destruct (a <? Bridge.minDepositAmount st) eqn:E; [reflexivity|].
    apply Z.ltb_ge in E. lia.
  - intros Hge Hgt. subst res. unfold Bridge.deposit. rewrite Hparse.
    destruct (a <? Bridge.minDepositAmount st) eqn:E; [apply Z.ltb_lt in E; lia|].
    destruct (a >? Bridge.maxDepositAmount st) eqn:E2; [reflexivity|].
    rewrite Z.gtb_ltb in E2. apply Z.ltb_ge in E2. lia.
  - intros Hrange.
    destruct (deposit_effect userAddress tokenAddress amount options now
                rnd rnd1 rnd2 st a Hparse Hrange)
      as (d & Hd & Hid & Hu & Ht & Ha & Hts & Hw & _ & _ & _ & Hcase).
    fold res depositId token pf in Hd, Hid, Ht, Hw, Hcase.
    exists d. unfold BridgeOps.getDeposit. rewrite Hd.
    split; [apply lookup_insert_eq|].
    repeat (split; [assumption|]).
    split; [intros i Hi; now apply lookup_insert_ne|].
    split; [exact Hw|]. split.
    + intros H1 H2 Haddr [Ha0 Hamax] Hlen.
      assert (Hwf : Bridge.proofWellFormed (Some pf) = true).
      { unfold Bridge.proofWellFormed. rewrite Hlen.
        destruct pf; [discriminate Hlen|reflexivity]. }
      apply Z.leb_le in Ha0, Hamax.
      rewrite Hwf, Haddr, Ha0, Hamax, !bool_decide_eq_true_2 in Hcase by assumption.
      simpl in Hcase.
      destruct Hcase as (Hr & Hs & Hp & Hl1 & Hl2 & He).
      repeat (split; [assumption|]).
      rewrite He. apply addBridgeEvent_log.
    + intros Hbad.
      assert (Hf : isAddress token && (0 <=? a) && (a <=? Bridge.MAX_UINT256) &&
                   bool_decide (is_Some (Bridge.layer1Contract st)) &&
                   bool_decide (is_Some (Bridge.layer2Contract st)) &&
                   Bridge.proofWellFormed (Some pf) = false).
      { rewrite !andb_false_iff.
        destruct Hbad as [H|[H|[H|[H|[H|H]]]]].
        - left. left. right. rewrite bool_decide_eq_false_2; [reflexivity|].
          rewrite H. intros [? ?]. discriminate.
        - left. right. rewrite bool_decide_eq_false_2; [reflexivity|].
          rewrite H. intros [? ?]. discriminate.
        - do 5 left. exact H.
        - do 4 left. right. now apply Z.leb_gt.
        - do 3 left. right. now apply Z.leb_gt.
        - right. unfold Bridge.proofWellFormed.
          rewrite andb_false_iff. right. now apply Nat.eqb_neq. }
      rewrite Hf in Hcase. exact Hcase.
Qed.

(** *** withdraw *)

(** What an accepted [withdraw] does. *)
Lemma withdraw_effect (userAddress : string) (tokenAddress : option string)
    (amount : string) (options : gmap string JsValue) (now : Z)
    (rnd rnd1 : string) (st : Bridge.CrossChainBridge) (a : Z) :
  parseEther amount = Some a ->
  Bridge.minDepositAmount st <= a ->
  let res := withdraw userAddress tokenAddress amount options now rnd rnd1 st in
  exists w,
    Bridge.withdrawals (snd res)
      = <[Bridge.generateWithdrawalId now rnd := w]> (Bridge.withdrawals st) /\
    Bridge.Withdrawal.id w = Bridge.generateWithdrawalId now rnd /\
    Bridge.Withdrawal.amount w = a /\
    Bridge.Withdrawal.timestamp w = now /\
    Bridge.Withdrawal.unlockTime w = now + Bridge.withdrawalDelay st * 1000 /\
    Bridge.Withdrawal.layer1TxHash w = None /\
    Bridge.deposits (snd res) = Bridge.deposits st /\
    Bridge.minDepositAmount (snd res) = Bridge.minDepositAmount st /\
    Bridge.maxDepositAmount (snd res) = Bridge.maxDepositAmount st /\
    Bridge.withdrawalDelay (snd res) = Bridge.withdrawalDelay st /\
    match Bridge.layer2Contract st,
          Bridge.encodeTokenAmount isAddress (Bridge.orZeroAddress tokenAddress) a with
    | Some _, Ok _ =>
        Bridge.Withdrawal.status w = "burned" /\
        is_Some (Bridge.Withdrawal.proof w) /\
        is_Some (Bridge.Withdrawal.layer2TxHash w) /\
        Bridge.bridgeEvents (snd res)
          = Bridge.bridgeEvents
              (Bridge.addBridgeEvent "withdrawal_initiated"
                 (Bridge.generateWithdrawalId now rnd) now st)
    | _, _ =>
        Bridge.Withdrawal.status w = "failed" /\
        Bridge.Withdrawal.proof w = None /\
        Bridge.Withdrawal.layer2TxHash w = None /\
        Bridge.bridgeEvents (snd res) = Bridge.bridgeEvents st
    end.
Proof.
  intros Hparse Hlo res. subst res.
  unfold Bridge.withdraw. rewrite Hparse.
  destruct (a <? Bridge.minDepositAmount st) eqn:E1; [apply Z.ltb_lt in E1; lia|].
  cbv zeta. unfold Bridge.burnTokensOnLayer2. simpl.
  destruct (Bridge.layer2Contract st) eqn:Ec2;
    [destruct (Bridge.encodeTokenAmount _ _ _) eqn:Ee|]; simpl;
    (eexists; split; [rewrite !insert_insert_eq; reflexivity|]);
    repeat split; eauto.
Qed.

(** *** The records of a bridge *)

Lemma recordsInvariant_new : BridgeOps.recordsInvariant Bridge.new.
Proof.
  unfold BridgeOps.recordsInvariant. simpl.
  split; [reflexivity|]. split; [reflexivity|]. split; [reflexivity|].
  split; [intros i d H; now rewrite lookup_empty in H|].
  split; [intros i w H; now rewrite lookup_empty in H|].
  split; [lia|constructor].
Qed.

Lemma recordsInvariant_step (op : Bridge.Op) (st : Bridge.CrossChainBridge) :
  BridgeOps.recordsInvariant st -> BridgeOps.recordsInvariant (bstep op st).
Proof.
  intros Hinv. pose proof Hinv as (Hmin & Hmax & Hdel & Hdep & Hwd & Hlen & Hty).
  destruct op; simpl.
  - (* initialize *)
    unfold Bridge.initialize. destruct providerOk; exact Hinv.
  - (* deposit *)
    destruct (parseEther amount) as [a|] eqn:Hparse.
    2: { destruct (deposit_rejected userAddress tokenAddress amount options now
                     rnd rnd1 rnd2 st) as [msg ->]; [now rewrite Hparse|exact Hinv]. }
    destruct (Z_lt_ge_dec a (Bridge.minDepositAmount st)) as [Hlt|Hge].
    { destruct (deposit_rejected userAddress tokenAddress amount options now
                  rnd rnd1 rnd2 st) as [msg ->]; [rewrite Hparse; now left|exact Hinv]. }
    destruct (Z_lt_ge_dec (Bridge.maxDepositAmount st) a) as [Hgt|Hle].
    { destruct (deposit_rejected userAddress tokenAddress amount options now
                  rnd rnd1 rnd2 st) as [msg ->]; [rewrite Hparse; now right|exact Hinv]. }
    destruct (deposit_effect userAddress tokenAddress amount options now
                rnd rnd1 rnd2 st a Hparse)
      as (d & Hd & Hid & _ & _ & Ha & _ & Hw & Emin & Emax & Edel & Hcase); [lia|].
    unfold BridgeOps.recordsInvariant. rewrite Hd, Hw, Emin, Emax, Edel.
    split; [exact Hmin|]. split; [exact Hmax|]. split; [exact Hdel|].
    assert (Hev : (List.length (Bridge.bridgeEvents
                     (deposit userAddress tokenAddress amount options now
                        rnd rnd1 rnd2 st).2) <= 1000)%nat /\
                  Forall (fun e => In (Bridge.type e) BridgeOps.eventTypes)
                    (Bridge.bridgeEvents
                       (deposit userAddress tokenAddress amount options now
                          rnd rnd1 rnd2 st).2) /\
                  BridgeOps.depositOk (Bridge.generateDepositId now rnd) d).
    { unfold BridgeOps.depositOk. rewrite Ha.
      destruct (_ && _ && _) eqn:Ecase.
      - destruct Hcase as (_ & Hs & Hp & Hl1 & Hl2 & He). rewrite He, Hs, Hp, Hl1, Hl2.
        destruct (addBridgeEvent_log "deposit_completed"
                    (Bridge.generateDepositId now rnd) now st) as (H1 & _ & H2).
        split; [exact H1|]. split; [apply H2; [exact Hty|simpl; auto]|].
        split; [exact Hid|]. split; [lia|]. split; [now left|].
        intros _. apply andb_true_iff in Ecase. destruct Ecase as [_ Hwf].
        split; [exact Hwf|]. split; eauto.
      - destruct Hcase as (_ & Hs & Hl2 & He). rewrite He, Hs.
        split; [exact Hlen|]. split; [exact Hty|].
        split; [exact Hid|]. split; [lia|]. split; [now right|]. discriminate. }
    destruct Hev as (Hev1 & Hev2 & Hok).
    split; [|split; [exact Hwd|split; [exact Hev1|exact Hev2]]].
    intros i d'. rewrite lookup_insert. case_decide.
    + intros [= <-]. subst i. exact Hok.
    + apply Hdep.
  - (* withdraw *)
    destruct (parseEther amount) as [a|] eqn:Hparse.
    2: { unfold Bridge.withdraw. rewrite Hparse. exact Hinv. }
    destruct (a <? Bridge.minDepositAmount st) eqn:E.
    { unfold Bridge.withdraw. rewrite Hparse, E. exact Hinv. }
    apply Z.ltb_ge in E.
    destruct (withdraw_effect userAddress tokenAddress amount options now
                rnd rnd1 st a Hparse E)
      as (w & Hw & Hid & Ha & Hts & Hun & Hl1 & Hd & Emin & Emax & Edel & Hcase).
    unfold BridgeOps.recordsInvariant. rewrite Hw, Hd, Emin, Emax, Edel.
    split; [exact Hmin|]. split; [exact Hmax|]. split; [exact Hdel|].
    split; [exact Hdep|].
    assert (Hev : (List.length (Bridge.bridgeEvents
                     (withdraw userAddress tokenAddress amount options now
                        rnd rnd1 st).2) <= 1000)%nat /\
                  Forall (fun e => In (Bridge.type e) BridgeOps.eventTypes)
                    (Bridge.bridgeEvents
                       (withdraw userAddress tokenAddress amount options now
                          rnd rnd1 st).2) /\
                  BridgeOps.withdrawalOk (Bridge.generateWithdrawalId now rnd) w).
    { unfold BridgeOps.withdrawalOk. rewrite Ha, Hun, Hts, Hdel, Hl1.
      assert (Hcase' :
        (Bridge.Withdrawal.status w = "burned" /\
         is_Some (Bridge.Withdrawal.proof w) /\
         is_Some (Bridge.Withdrawal.layer2TxHash w) /\
         Bridge.bridgeEvents
           (withdraw userAddress tokenAddress amount options now rnd rnd1 st).2
         = Bridge.bridgeEvents
             (Bridge.addBridgeEvent "withdrawal_initiated"
                (Bridge.generateWithdrawalId now rnd) now st)) \/
        (Bridge.Withdrawal.status w = "failed" /\
         Bridge.Withdrawal.proof w = None /\
         Bridge.Withdrawal.layer2TxHash w = None /\
         Bridge.bridgeEvents
           (withdraw userAddress tokenAddress amount options now rnd rnd1 st).2
         = Bridge.bridgeEvents st)).
      { destruct (Bridge.layer2Contract st);
          [destruct (Bridge.encodeTokenAmount _ _ _)|]; auto. }
      clear Hcase. destruct Hcase' as [Hcase|Hcase].
      - destruct Hcase as (Hs & Hp & Hl2 & He). rewrite He, Hs.
        destruct (addBridgeEvent_log "withdrawal_initiated"
                    (Bridge.generateWithdrawalId now rnd) now st) as (H1 & _ & H2).
        split; [exact H1|]. split; [apply H2; [exact Hty|simpl; auto]|].
        split; [exact Hid|]. split; [lia|]. split; [lia|]. split; [now left|].
        split; [discriminate|]. split; [auto|discriminate].
      - destruct Hcase as (Hs & Hp & Hl2 & He). rewrite He, Hs.
        split; [exact Hlen|]. split; [exact Hty|].
        split; [exact Hid|]. split; [lia|]. split; [lia|]. split; [auto|].
        split; [discriminate|]. split; [discriminate|auto]. }
    destruct Hev as (Hev1 & Hev2 & Hok).
    split; [|split; [exact Hev1|exact Hev2]].
    intros i w'. rewrite lookup_insert. case_decide.
    + intros [= <-]. subst i. exact Hok.
    + apply Hwd.
  - (* completeWithdrawal *)
    unfold Bridge.completeWithdrawal.
    destruct (Bridge.withdrawals st !! withdrawalId) as [w|] eqn:Ew; [|exact Hinv].
    destruct (negb (String.eqb _ _)) eqn:Es; [exact Hinv|].
    destruct (now <? _); [exact Hinv|].
    destruct (negb (Bridge.verifyWithdrawalProof _)) eqn:Ev; [exact Hinv|].
    destruct (Bridge.layer1Contract st) eqn:E1; [|exact Hinv].
    cbn [snd].
    destruct (addBridgeEvent_log "withdrawal_completed"
                (Bridge.Withdrawal.id w) now
                (Bridge.setWithdrawals
                   (<[withdrawalId :=
                        Bridge.withdrawalWith w "completed"
                          (Bridge.Withdrawal.layer2TxHash w)
                          (Some ("0x" +:+ rnd)) (Bridge.Withdrawal.proof w)]>
                      (Bridge.withdrawals st)) st)) as (H1 & _ & H2).
    apply negb_false_iff in Es, Ev. apply String.eqb_eq in Es.
    destruct (Hwd _ _ Ew) as (Hid & Ha & Hun & _ & _ & Hburned & _).
    destruct (Hburned Es) as (_ & Hl2 & _).
    split; [exact Hmin|]. split; [exact Hmax|]. split; [exact Hdel|].
    split; [exact Hdep|].
    split; [|split; [exact H1|apply H2; [exact Hty|simpl; auto]]].
    intros i w'. simpl. rewrite lookup_insert. case_decide; [|apply Hwd].
    intros [= <-]. subst i. unfold BridgeOps.withdrawalOk. simpl.
    split; [exact Hid|]. split; [exact Ha|]. split; [exact Hun|].
    split; [auto|]. split; [intros _; split; [exact Ev|split; eauto]|].
    split; discriminate.
Qed.

Lemma recordsInvariant_run (ops : list Bridge.Op) (st : Bridge.CrossChainBridge) :
  BridgeOps.recordsInvariant st -> BridgeOps.recordsInvariant (brun ops st).
Proof.
  revert st. induction ops as [|op ops IH]; intros st H; [exact H|].
  simpl. apply IH. now apply recordsInvariant_step.
Qed.

Lemma reachable_records (st : Bridge.CrossChainBridge) :
  reachable st -> BridgeOps.recordsInvariant st.
Proof.
  intros [ops ->]. apply recordsInvariant_run, recordsInvariant_new.
Qed.

(** *** getBridgeEvents *)

Lemma slice_suffix {A : Type} (start : Z) (l : list A) :
  exists older, l = older ++ BridgeOps.slice start l.
Proof.
  unfold BridgeOps.slice. cbv zeta.
  eexists. symmetry. apply firstn_skipn.
Qed.

(** X10.  The event log of a bridge never holds more than 1000 events, and
    every event is of one of the three kinds.  [getBridgeEvents(limit)]
    returns a suffix of the log: for a positive limit the last
    min(limit, length) events, and for limit 0 the whole log, not an empty
    list. *)
Theorem bridge_events_bounded (st : Bridge.CrossChainBridge) (limit : Z) :
  reachable st ->
  let events := Bridge.bridgeEvents st in
  (List.length events <= 1000)%nat /\
  Forall (fun e => In (Bridge.type e) BridgeOps.eventTypes) events /\
  (exists older, events = older ++ BridgeOps.getBridgeEvents limit st) /\
  (0 < limit ->
   Z.of_nat (List.length (BridgeOps.getBridgeEvents limit st))
   = Z.min limit (Z.of_nat (List.length events))) /\
  (limit = 0 -> BridgeOps.getBridgeEvents limit st = events).
Proof.
  intros Hreach events.
  destruct (reachable_records st Hreach) as (_ & _ & _ & _ & _ & Hlen & Hty).
  split; [exact Hlen|]. split; [exact Hty|].
  split; [apply slice_suffix|]. split.
  - intros Hpos. unfold BridgeOps.getBridgeEvents, BridgeOps.slice. cbv zeta.
    fold events. destruct (- limit <? 0) eqn:E; [|apply Z.ltb_ge in E; lia].
    rewrite length_skipn. lia.
  - intros ->. unfold BridgeOps.getBridgeEvents, BridgeOps.slice. cbv zeta.
    fold events. simpl. rewrite Z.min_l by lia. reflexivity.
Qed.

(** *** Withdrawal and deposit records *)

(** X11.  Every withdrawal record of a bridge is stored under its own id,
    is of at least 10^15 wei, unlocks no earlier than 604800000 ms after
    its timestamp, and has status burned, failed or completed; a completed
    one carries a well-formed proof and both transaction digests.  No call
    of [completeWithdrawal] earlier than 604800000 ms after the record's
    timestamp completes it: the call throws and the state is as it was. *)
Theorem withdrawal_records (st : Bridge.CrossChainBridge) (i : string)
    (w : Bridge.Withdrawal.t) :
  reachable st ->
  BridgeOps.getWithdrawal i st = Some w ->
  Bridge.Withdrawal.id w = i /\
  10 ^ 15 <= Bridge.Withdrawal.amount w /\
  Bridge.Withdrawal.timestamp w + 604800000 <= Bridge.Withdrawal.unlockTime w /\
  (Bridge.Withdrawal.status w = "burned" \/ Bridge.Withdrawal.status w = "failed" \/
   Bridge.Withdrawal.status w = "completed") /\
  (Bridge.Withdrawal.status w = "completed" ->
   Bridge.proofWellFormed (Bridge.Withdrawal.proof w) = true /\
   is_Some (Bridge.Withdrawal.layer2TxHash w) /\
   is_Some (Bridge.Withdrawal.layer1TxHash w)) /\
  forall now rnd,
    now < Bridge.Withdrawal.timestamp w + 604800000 ->
    isThrow (fst (Bridge.completeWithdrawal i now rnd st)) = true /\
    snd (Bridge.completeWithdrawal i now rnd st) = st.
Proof.
  intros Hreach Hw.
  destruct (reachable_records st Hreach) as (_ & _ & _ & _ & Hwd & _).
  destruct (Hwd i w Hw) as (Hid & Ha & Hun & Hst & Hc & _).
  split; [exact Hid|]. split; [exact Ha|]. split; [lia|].
  split; [exact Hst|]. split; [exact Hc|].
  intros now rnd Hearly. unfold Bridge.completeWithdrawal.
  unfold BridgeOps.getWithdrawal in Hw. rewrite Hw.
  destruct (negb (String.eqb _ _)); [auto|].
  destruct (now <? Bridge.Withdrawal.unlockTime w) eqn:E; [auto|].
  apply Z.ltb_ge in E. lia.
Qed.

(** X12.  Every deposit record of a bridge is stored under its own id, is
    of between 10^15 and 10^21 wei, and has status completed or failed,
    never pending or confirmed; a completed one carries a well-formed proof
    and both transaction digests. *)
Theorem deposit_records (st : Bridge.CrossChainBridge) (i : string)
    (d : Bridge.Deposit.t) :
  reachable st ->
  BridgeOps.getDeposit i st = Some d ->
  Bridge.Deposit.id d = i /\
  10 ^ 15 <= Bridge.Deposit.amount d <= 10 ^ 21 /\
  (Bridge.Deposit.status d = "completed" \/ Bridge.Deposit.status d = "failed") /\
  (Bridge.Deposit.status d = "completed" ->
   Bridge.proofWellFormed (Bridge.Deposit.proof d) = true /\
   is_Some (Bridge.Deposit.layer1TxHash d) /\
   is_Some (Bridge.Deposit.layer2TxHash d)).
Proof.
  intros Hreach Hd.
  destruct (reachable_records st Hreach) as (_ & _ & _ & Hdep & _).
  destruct (Hdep i d Hd) as (Hid & Ha & Hst & Hc).
  split; [exact Hid|]. split; [lia|]. split; [exact Hst|exact Hc].
Qed.

End BridgeMore.

(** ** ValidatorManager: the three tables *)

Lemma registryInvariant_new (cfg : option Z) :
  ValidatorOps.registryInvariant (Validators.new cfg).
Proof. intros a. simpl. rewrite !lookup_empty. auto. Qed.

Lemma registryInvariant_step (op : Validators.Op) (st : Validators.ValidatorManager) :
  ValidatorOps.registryInvariant st ->
  ValidatorOps.registryInvariant (Validators.step op st).
Proof.
  intros Hinv. destruct op; simpl.
  - (* registerValidator *)
    destruct (registerValidator_state address publicKey stake now st)
      as [-> | (_ & _ & _ & ->)]; [exact Hinv|].
    intros a. simpl. rewrite !lookup_insert. case_decide.
    + subst a. simpl. eauto.
    + apply Hinv.
  - (* unregisterValidator *)
    unfold Validators.unregisterValidator.
    destruct (Validators.validators st !! address) as [old|] eqn:Ea; [|exact Hinv].
    intros a. simpl. rewrite !lookup_delete. case_decide; [auto|apply Hinv].
  - (* updateStake *)
    destruct (updateStake_state address newStake st) as [-> | (old & Ea & _ & ->)];
      [exact Hinv|].
    intros a. simpl. rewrite !lookup_insert. case_decide.
    + subst a. simpl. pose proof (Hinv address) as H. rewrite Ea in H.
      destruct H as (Haddr & Hact & _ & Hperf). auto.
    + apply Hinv.
  - (* updatePerformance *)
    unfold Validators.updatePerformance.
    destruct (Validators.performance st !! address) as [perf|] eqn:Ea; [|exact Hinv].
    intros a. simpl. rewrite lookup_insert. pose proof (Hinv a) as H.
    case_decide; [|exact H]. subst a.
    destruct (Validators.validators st !! address).
    + destruct H as (? & ? & ? & ?). eauto.
    + destruct H as [_ H]. congruence.
Qed.

Lemma registryInvariant_run (ops : list Validators.Op) (st : Validators.ValidatorManager) :
  ValidatorOps.registryInvariant st ->
  ValidatorOps.registryInvariant (Validators.run ops st).
Proof.
  revert st. induction ops as [|op ops IH]; intros st H; [exact H|].
  simpl. apply IH. now apply registryInvariant_step.
Qed.

(** X13.  After any sequence of calls on a new registry the three tables
    hold the same addresses: an address has a validator record exactly when
    [isValidator] answers true, exactly when it has a stake entry and
    exactly when it has a performance record; a record is stored under its
    own address, and [getStake] of an address that is not registered is 0. *)
Theorem registry_tables_agree (cfg : option Z) (ops : list Validators.Op)
    (a : string) :
  let st := Validators.run ops (Validators.new cfg) in
  (ValidatorOps.isValidator a st = true <-> is_Some (ValidatorOps.getValidator a st)) /\
  (is_Some (ValidatorOps.getValidator a st) <-> is_Some (Validators.stakes st !! a)) /\
  (is_Some (ValidatorOps.getValidator a st)
   <-> is_Some (ValidatorOps.getPerformance a st)) /\
  (forall v, ValidatorOps.getValidator a st = Some v -> Validators.address v = a) /\
  (ValidatorOps.getValidator a st = None -> Validators.getStake a st = 0).
Proof.
  intros st.
  pose proof (registryInvariant_run ops _ (registryInvariant_new cfg) a) as H.
  fold st in H.
  unfold ValidatorOps.isValidator, ValidatorOps.getValidator,
    ValidatorOps.getPerformance, Validators.getStake.
  destruct (Validators.validators st !! a) as [v|].
  - destruct H as (Haddr & Hact & Hst & Hperf). rewrite Hst.
    repeat split; eauto; try congruence.
  - destruct H as [Hst Hperf]. rewrite Hst, Hperf.
    repeat split; try discriminate; try (intros [? ?]; discriminate); auto.
Qed.

(** X14.  Registering an address that is not registered and unregistering
    it again gives back the registry exactly as it was before: the
    validator, its stake entry and its performance record are all gone, and
    no other entry has changed. *)
Theorem register_then_unregister (cfg : option Z) (ops : list Validators.Op)
    (a k : string) (s now : Z) :
  let st := Validators.run ops (Validators.new cfg) in
  ValidatorOps.getValidator a st = None ->
  Validators.minimumStake st <= s ->
  Validators.validatePublicKey k = true ->
  exists v,
    Validators.registerValidator a k s now st
      = (Ok v, snd (Validators.registerValidator a k s now st)) /\
    Validators.unregisterValidator a (snd (Validators.registerValidator a k s now st))
      = (Ok true, st).
Proof.
  intros st.
  pose proof (registryInvariant_run ops _ (registryInvariant_new cfg) a) as H.
  fold st in H. clearbody st. intros Hnone Hs Hk.
  unfold ValidatorOps.getValidator in Hnone. rewrite Hnone in H.
  destruct H as [Hst Hperf].
  unfold Validators.registerValidator. rewrite Hnone. simpl Validators.stakeLt.
  destruct (s <? Validators.minimumStake st) eqn:E; [apply Z.ltb_lt in E; lia|].
  rewrite Hk. simpl. eexists. split; [reflexivity|].
  unfold Validators.unregisterValidator. simpl. rewrite lookup_insert_eq.
  f_equal. destruct st as [vs ss ps m]. simpl in *.
  rewrite !delete_insert_id by assumption. reflexivity.
Qed.

(** *** Performance counters *)




(** ** RollupContract: who may change what *)

Module RollupContractMore.

Import RollupContract.
Import RollupContractOps.

(** Every way a call can succeed, with the state it leaves. *)
Ltac unfold_exec Hex :=
  cbv beta delta [exec submitBatch challengeBatch finalizeBatch registerValidator
                  unregisterValidator updateSequencer updateChallengePeriod
                  updateMinimumStake updateMaxBatchSize pause unpause
                  emergencyWithdraw transferOwnership renounceOwnership] in Hex;
  cbv iota zeta in Hex.

Ltac exec_cases Hex :=
  unfold_exec Hex; RollupContractFacts.split_ifs Hex; injection Hex as <-.

Lemma step_cases (c : Call) (op : Op) (st : State) :
  (exists st', exec c op st = Ok st' /\ step (c, op) st = st') \/
  ((exists msg, exec c op st = Throw msg) /\ step (c, op) st = st).
Proof.
  unfold step. simpl. destruct (exec c op st) as [st'|msg]; eauto.
Qed.

Lemma onlyOwner_false (c : Call) (st : State) :
  sender c <> owner st -> onlyOwner c st = false.
Proof. intros H. unfold onlyOwner. now apply Z.eqb_neq. Qed.

Lemma exec_non_owner (c : Call) (op : Op) (st st' : State) :
  sender c <> owner st ->
  exec c op st = Ok st' ->
  sequencerAddr st' = sequencerAddr st /\
  challengePeriod st' = challengePeriod st /\
  minimumStake st' = minimumStake st /\
  maxBatchSize st' = maxBatchSize st /\
  owner st' = owner st /\
  paused st' = paused st.
Proof.
  intros Hno Hex. apply onlyOwner_false in Hno.
  destruct op; unfold_exec Hex; rewrite ?Hno in Hex; simpl in Hex;
    try discriminate Hex;
    RollupContractFacts.split_ifs Hex; injection Hex as <-; repeat split;
    simpl; congruence.
Qed.

(** X16.  Whatever callers other than the owner call, in any order, the
    sequencer address, the challenge period, the minimum stake, the maximum
    batch size, the owner and the paused flag stay as they are. *)
Theorem only_owner_changes_configuration (calls : list (Call * Op)) (st : State) :
  Forall (fun call => sender (fst call) <> owner st) calls ->
  let st' := run calls st in
  sequencerAddr st' = sequencerAddr st /\
  challengePeriod st' = challengePeriod st /\
  minimumStake st' = minimumStake st /\
  maxBatchSize st' = maxBatchSize st /\
  owner st' = owner st /\
  paused st' = paused st.
Proof.
  revert st. induction calls as [|[c op] calls IH]; intros st Hall st'.
  { subst st'. simpl. repeat split. }
  subst st'. change (run ((c, op) :: calls) st) with (run calls (step (c, op) st)).
  inversion Hall as [|x xs Hc Hrest]; subst. simpl in Hc.
  destruct (step_cases c op st) as [(st1 & Hex & ->)|[_ ->]].
  - destruct (exec_non_owner c op st st1 Hc Hex) as (H1 & H2 & H3 & H4 & H5 & H6).
    rewrite <- H1, <- H2, <- H3, <- H4, <- H5, <- H6. apply IH.
    rewrite H5. exact Hrest.
  - apply IH. exact Hrest.
Qed.

Lemma exec_paused (c : Call) (op : Op) (st st' : State) :
  paused st = true ->
  exec c op st = Ok st' ->
  batches st' = batches st /\
  validators st' = validators st /\
  validatorStakes st' = validatorStakes st /\
  currentStateRoot st' = currentStateRoot st /\
  batchCounter st' = batchCounter st /\
  (op <> OpUnpause -> paused st' = true).
Proof.
  intros Hp Hex.
  destruct op; exec_cases Hex; simpl; try congruence;
    repeat split; try reflexivity; try congruence.
Qed.

(** X17.  While the contract is paused nothing that is called, short of
    [unpause], changes a batch, a validator, a stake, the current state
    root or the batch counter, and the contract stays paused. *)
Theorem paused_contract_is_frozen (calls : list (Call * Op)) (st : State) :
  paused st = true ->
  Forall (fun call => snd call <> OpUnpause) calls ->
  let st' := run calls st in
  batches st' = batches st /\
  validators st' = validators st /\
  validatorStakes st' = validatorStakes st /\
  currentStateRoot st' = currentStateRoot st /\
  batchCounter st' = batchCounter st /\
  paused st' = true.
Proof.
  revert st. induction calls as [|[c op] calls IH]; intros st Hp Hall st'.
  { subst st'. simpl. repeat split. exact Hp. }
  subst st'. change (run ((c, op) :: calls) st) with (run calls (step (c, op) st)).
  inversion Hall as [|x xs Hc Hrest]; subst. simpl in Hc.
  destruct (step_cases c op st) as [(st1 & Hex & ->)|[_ ->]].
  - destruct (exec_paused c op st st1 Hp Hex) as (H1 & H2 & H3 & H4 & H5 & H6).
    rewrite <- H1, <- H2, <- H3, <- H4, <- H5. apply IH; auto.
  - apply IH; auto.
Qed.

(** *** Batches *)

(** A successful call keeps the contents of every submitted batch. *)
Lemma exec_keeps_contents (c : Call) (op : Op) (st st' : State) (i : Z) :
  exec c op st = Ok st' ->
  i < batchCounter st ->
  stateRoot (batchAt st' i) = stateRoot (batchAt st i) /\
  merkleRoot (batchAt st' i) = merkleRoot (batchAt st i) /\
  timestamp (batchAt st' i) = timestamp (batchAt st i) /\
  sequencer (batchAt st' i) = sequencer (batchAt st i).
Proof.
  intros Hex Hi. destruct op; exec_cases Hex; try (repeat split; reflexivity).
  - unfold batchAt. simpl. rewrite lookup_insert_ne by lia. repeat split.
  - unfold batchAt. simpl. rewrite lookup_insert.
    case_decide; subst; repeat split.
  - unfold batchAt. simpl. rewrite lookup_insert.
    case_decide; subst; repeat split.
Qed.

Lemma run_keeps_contents (calls : list (Call * Op)) (st : State) (i : Z) :
  i < batchCounter st ->
  stateRoot (batchAt (run calls st) i) = stateRoot (batchAt st i) /\
  merkleRoot (batchAt (run calls st) i) = merkleRoot (batchAt st i) /\
  timestamp (batchAt (run calls st) i) = timestamp (batchAt st i) /\
  sequencer (batchAt (run calls st) i) = sequencer (batchAt st i).
Proof.
  revert st. induction calls as [|[c op] calls IH]; intros st Hi; [repeat split|].
  change (run ((c, op) :: calls) st) with (run calls (step (c, op) st)).
  destruct (step_cases c op st) as [(st1 & Hex & ->)|[_ ->]]; [|now apply IH].
  destruct (exec_keeps_contents c op st st1 i Hex Hi) as (H1 & H2 & H3 & H4).
  destruct (RollupContractFacts.exec_keeps_flags c op st st1 i Hex Hi) as (Hi1 & _).
  destruct (IH st1 Hi1) as (H5 & H6 & H7 & H8).
  repeat split; congruence.
Qed.

(** X18.  A successful [submitBatch] comes from the sequencer of a contract
    that is not paused, with non-zero roots and between 1 and
    maxBatchSize * 32 bytes of data.  It stores the batch under the old
    counter with the roots given, the block time and the sender, neither
    challenged nor finalized, adds one to the counter and leaves
    currentStateRoot alone.  Whatever is called afterwards, the roots, the
    time and the sequencer of that batch never change. *)
Theorem submitBatch_spec (c : Call) (sroot mroot len : Z) (st st' : State) :
  submitBatch c sroot mroot len st = Ok st' ->
  sender c = sequencerAddr st /\ paused st = false /\
  sroot <> 0 /\ mroot <> 0 /\ 0 < len <= maxBatchSize st * 32 /\
  batchCounter st' = batchCounter st + 1 /\
  batchAt st' (batchCounter st)
  = {| stateRoot := sroot; merkleRoot := mroot;
       timestamp := blockTimestamp c; sequencer := sender c;
       isChallenged := false; isFinalized := false |} /\
  currentStateRoot st' = currentStateRoot st /\
  forall calls,
    let b := batchAt (run calls st') (batchCounter st) in
    stateRoot b = sroot /\ merkleRoot b = mroot /\
    timestamp b = blockTimestamp c /\ sequencer b = sender c.
Proof.
  intros Hex.
  assert (Hat : batchAt st' (batchCounter st)
                = {| stateRoot := sroot; merkleRoot := mroot;
                     timestamp := blockTimestamp c; sequencer := sender c;
                     isChallenged := false; isFinalized := false |} /\
                batchCounter st' = batchCounter st + 1).
  { unfold submitBatch in Hex. RollupContractFacts.split_ifs Hex. injection Hex as <-.
    match goal with H : checkedAdd _ _ = Some _ |- _ =>
      apply RollupContractFacts.checkedAdd_Some in H; destruct H as [-> _] end.
    unfold batchAt. simpl. now rewrite lookup_insert_eq. }
  destruct Hat as [Hat Hcnt].
  assert (Hrest : sender c = sequencerAddr st /\ paused st = false /\
                  sroot <> 0 /\ mroot <> 0 /\ 0 < len <= maxBatchSize st * 32 /\
                  currentStateRoot st' = currentStateRoot st).
  { unfold submitBatch in Hex. RollupContractFacts.split_ifs Hex. injection Hex as <-.
    repeat match goal with
           | H : negb _ = false |- _ => apply negb_false_iff in H
           end.
    match goal with H : checkedMul _ _ = Some _ |- _ =>
      unfold checkedMul in H;
      destruct (_ <=? MAX_UINT256); [injection H as <-|discriminate H] end.
    repeat match goal with
           | H : (_ =? _) = true |- _ => apply Z.eqb_eq in H
           | H : (_ =? _) = false |- _ => apply Z.eqb_neq in H
           | H : (_ <=? _) = true |- _ => apply Z.leb_le in H
           | H : (_ >? _) = true |- _ => apply Z.gtb_lt in H
           end.
    repeat split; auto. }
  destruct Hrest as (H1 & H2 & H3 & H4 & H5 & H6).
  repeat (split; [assumption|]).
  intros calls b. subst b.
  destruct (run_keeps_contents calls st' (batchCounter st)) as (E1 & E2 & E3 & E4);
    [lia|].
  rewrite E1, E2, E3, E4, Hat. repeat split.
Qed.

Lemma challengeBatch_flagged (c : Call) (i : Z) (st : State) :
  isChallenged (batchAt st i) = true \/ isFinalized (batchAt st i) = true ->
  exists msg, challengeBatch c i st = Throw msg.
Proof.
  intros Hf. unfold challengeBatch.
  destruct (negb (isValidator st (sender c))); [eauto|].
  destruct (negb (i <? batchCounter st)); [eauto|].
  destruct (paused st); [eauto|].
  destruct (isChallenged (batchAt st i)); [eauto|].
  destruct (isFinalized (batchAt st i)); [eauto|].
  destruct Hf; discriminate.
Qed.

(** X19.  A successful [challengeBatch] comes from a registered validator,
    on a submitted batch that is neither challenged nor finalized, no later
    than its timestamp plus the challenge period; it sets isChallenged and
    leaves currentStateRoot alone.  A batch that is challenged or finalized
    can never be challenged, whatever is called in between. *)
Theorem challengeBatch_spec (c : Call) (i : Z) (st : State) :
  (forall st', challengeBatch c i st = Ok st' ->
     isValidator st (sender c) = true /\ i < batchCounter st /\
     paused st = false /\
     isChallenged (batchAt st i) = false /\ isFinalized (batchAt st i) = false /\
     blockTimestamp c <= timestamp (batchAt st i) + challengePeriod st /\
     isChallenged (batchAt st' i) = true /\
     isFinalized (batchAt st' i) = false /\
     currentStateRoot st' = currentStateRoot st /\
     forall calls c', exists msg, challengeBatch c' i (run calls st') = Throw msg) /\
  (i < batchCounter st ->
   isChallenged (batchAt st i) = true \/ isFinalized (batchAt st i) = true ->
   forall calls c', exists msg, challengeBatch c' i (run calls st) = Throw msg).
Proof.
  assert (Hnever : forall s, i < batchCounter s ->
            isChallenged (batchAt s i) = true \/ isFinalized (batchAt s i) = true ->
            forall calls c', exists msg, challengeBatch c' i (run calls s) = Throw msg).
  { intros s Hi Hf calls c'. apply challengeBatch_flagged.
    destruct (RollupContractFacts.run_keeps_flags calls s i Hi) as (_ & H2 & H3).
    destruct Hf; auto. }
  split; [|apply Hnever].
  intros st' Hex.
  assert (Hfacts : isValidator st (sender c) = true /\ i < batchCounter st /\
                   paused st = false /\
                   isChallenged (batchAt st i) = false /\
                   isFinalized (batchAt st i) = false /\
                   blockTimestamp c <= timestamp (batchAt st i) + challengePeriod st /\
                   isChallenged (batchAt st' i) = true /\
                   isFinalized (batchAt st' i) = false /\
                   currentStateRoot st' = currentStateRoot st /\
                   batchCounter st' = batchCounter st).
  { unfold challengeBatch in Hex. RollupContractFacts.split_ifs Hex. injection Hex as <-.
    match goal with H : checkedAdd _ _ = Some _ |- _ =>
      apply RollupContractFacts.checkedAdd_Some in H; destruct H as [-> _] end.
    repeat match goal with
           | H : negb _ = false |- _ => apply negb_false_iff in H
           end.
    repeat match goal with
           | H : (_ <? _) = true |- _ => apply Z.ltb_lt in H
           | H : (_ <=? _) = true |- _ => apply Z.leb_le in H
           end.
    repeat split; auto;
      unfold batchAt; simpl; rewrite lookup_insert_eq; reflexivity. }
  destruct Hfacts as (H1 & H2 & H3 & H4 & H5 & H6 & H7 & H8 & H9 & H10).
  repeat (split; [assumption|]).
  apply Hnever; [lia|auto].
Qed.

(** *** The current state root *)

Lemma exec_rootProvenance (c : Call) (op : Op) (st st' : State) :
  exec c op st = Ok st' -> rootProvenance st -> rootProvenance st'.
Proof.
  intros Hex Hinv.
  assert (Hkeep : currentStateRoot st' = currentStateRoot st ->
                  (forall i, i < batchCounter st ->
                     isFinalized (batchAt st i) = true ->
                     batchAt st' i = batchAt st i) ->
                  batchCounter st <= batchCounter st' ->
                  rootProvenance st').
  { intros Hr Hb Hc. unfold rootProvenance. rewrite Hr.
    destruct Hinv as [H0|(i & Hi & Hf & Hch & Hs)]; [now left|].
    right. exists i. rewrite (Hb i Hi Hf). split; [lia|auto]. }
  destruct op; pose proof Hex as Hex'; exec_cases Hex;
    try (apply Hkeep; [reflexivity | intros; reflexivity | simpl; lia]).
  - (* submitBatch *)
    match goal with H : checkedAdd _ _ = Some _ |- _ =>
      apply RollupContractFacts.checkedAdd_Some in H; destruct H as [-> _] end.
    apply Hkeep; [reflexivity| |simpl; lia].
    intros i Hi _. unfold batchAt. simpl. now rewrite lookup_insert_ne by lia.
  - (* challengeBatch *)
    apply Hkeep; [reflexivity| |simpl; lia].
    intros i Hi Hf. unfold batchAt. simpl. rewrite lookup_insert.
    case_decide; [|reflexivity]. subst. congruence.
  - (* finalizeBatch *)
    destruct (RollupContractFacts.finalizeBatch_Ok _ _ _ _ Hex')
      as (Hi & _ & Hnf & _ & Hf' & Hc' & Hr').
    destruct (isChallenged (batchAt st batchIndex)) eqn:Ech.
    + apply Hkeep; [exact Hr'| |simpl; lia].
      intros i Hi' Hf. unfold batchAt. simpl. rewrite lookup_insert.
      case_decide; [|reflexivity]. subst. congruence.
    + right. exists batchIndex. split; [simpl; lia|].
      rewrite Hf', Hc', Hr'. split; [reflexivity|]. split; [reflexivity|].
      unfold batchAt at 1. simpl. now rewrite lookup_insert_eq.
Qed.

(** X20.  In a contract made by its constructor, after any sequence of
    calls, currentStateRoot is zero or the stateRoot of a submitted batch
    that is finalized and was never challenged. *)
Theorem current_root_is_of_a_finalized_batch (c0 : Call)
    (sequencer0 period0 stake0 : Z) (st0 : State) (calls : list (Call * Op)) :
  constructor c0 sequencer0 period0 stake0 = Ok st0 ->
  let st := run calls st0 in
  currentStateRoot st = 0 \/
  exists i, i < batchCounter st /\
    isFinalized (batchAt st i) = true /\ isChallenged (batchAt st i) = false /\
    stateRoot (batchAt st i) = currentStateRoot st.
Proof.
  intros Hc st.
  assert (H0 : rootProvenance st0).
  { unfold constructor in Hc. RollupContractFacts.split_ifs Hc. injection Hc as <-.
    now left. }
  clear Hc. subst st. revert st0 H0.
  induction calls as [|[c op] calls IH]; intros st0 H0; [exact H0|].
  change (run ((c, op) :: calls) st0) with (run calls (step (c, op) st0)).
  destruct (step_cases c op st0) as [(st1 & Hex & ->)|[_ ->]]; [|now apply IH].
  apply IH. exact (exec_rootProvenance c op st0 st1 Hex H0).
Qed.

(** *** Validators and their stakes *)

Lemma exec_stakesRecorded (c : Call) (op : Op) (st st' : State) :
  exec c op st = Ok st' -> stakesRecorded st -> stakesRecorded st'.
Proof.
  intros Hex [Hmin Hinv].
  destruct op; exec_cases Hex; try (split; [exact Hmin|exact Hinv]).
  - (* registerValidator *)
    split; [exact Hmin|]. intros a. unfold isValidator, getValidatorStake. simpl.
    rewrite !lookup_insert. case_decide; [|apply Hinv]. simpl.
    match goal with H : negb (_ >=? _) = false |- _ =>
      apply negb_false_iff in H; apply Z.geb_le in H end. lia.
  - (* unregisterValidator *)
    split; [exact Hmin|]. intros a. unfold isValidator, getValidatorStake. simpl.
    rewrite !lookup_insert. case_decide; [reflexivity|apply Hinv].
  - (* updateMinimumStake *)
    split; [|exact Hinv]. simpl.
    match goal with H : negb (_ >=? _) = false |- _ =>
      apply negb_false_iff in H; apply Z.geb_le in H end. lia.
Qed.

(** X21.  In a contract made by its constructor, after any sequence of
    calls, minimumStake is at least 1 ether, every registered validator has
    at least 1 ether recorded as its stake, and an address that is not
    registered has none. *)
Theorem validator_stakes_recorded (c0 : Call) (sequencer0 period0 stake0 : Z)
    (st0 : State) (calls : list (Call * Op)) (a : Z) :
  constructor c0 sequencer0 period0 stake0 = Ok st0 ->
  let st := run calls st0 in
  MIN_STAKE <= minimumStake st /\
  (isValidator st a = true -> MIN_STAKE <= getValidatorStake st a) /\
  (isValidator st a = false -> getValidatorStake st a = 0).
Proof.
  intros Hc st.
  assert (H0 : stakesRecorded st0).
  { unfold constructor in Hc. RollupContractFacts.split_ifs Hc. injection Hc as <-.
    split.
    - simpl. match goal with H : negb (_ >=? _) = false |- _ =>
        apply negb_false_iff in H; apply Z.geb_le in H end. lia.
    - intros a'. unfold isValidator, getValidatorStake. simpl.
      now rewrite !lookup_empty. }
  assert (H : stakesRecorded st).
  { clear Hc. subst st. revert st0 H0.
    induction calls as [|[c op] calls IH]; intros st0 H0; [exact H0|].
    change (run ((c, op) :: calls) st0) with (run calls (step (c, op) st0)).
    destruct (step_cases c op st0) as [(st1 & Hex & ->)|[_ ->]]; [|now apply IH].
    apply IH. exact (exec_stakesRecorded c op st0 st1 Hex H0). }
  destruct H as [Hmin Hall]. split; [exact Hmin|].
  specialize (Hall a). destruct (isValidator st a); split; auto; discriminate.
Qed.

(** X22.  A successful [emergencyWithdraw] comes from the owner, empties
    the balance and leaves every validator registered with its recorded
    stake; with the balance at zero, [unregisterValidator] then fails for
    every caller, so no stake can be taken out. *)
Theorem emergencyWithdraw_locks_stakes (c : Call) (transferOk : bool)
    (st st' : State) :
  emergencyWithdraw c transferOk st = Ok st' ->
  sender c = owner st /\ 0 < balance st /\
  balance st' = 0 /\
  validators st' = validators st /\
  validatorStakes st' = validatorStakes st /\
  forall c' ok', exists msg, unregisterValidator c' ok' st' = Throw msg.
Proof.
  intros Hex. unfold emergencyWithdraw in Hex.
  RollupContractFacts.split_ifs Hex. injection Hex as <-.
  repeat match goal with
         | H : negb _ = false |- _ => apply negb_false_iff in H
         end.
  split; [now apply Z.eqb_eq|]. split; [now apply Z.gtb_lt|].
  repeat (split; [reflexivity|]).
  intros c' ok'. unfold unregisterValidator.
  destruct (negb (isValidator _ _)); [eauto|].
  destruct (paused _); [eauto|].
  destruct (negb (getValidatorStake _ _ >? 0)) eqn:E; [eauto|].
  apply negb_false_iff, Z.gtb_lt in E.
  replace (balance _ <? getValidatorStake _ _) with true.
  - rewrite orb_true_r. eauto.
  - symmetry. apply Z.ltb_lt. simpl. exact E.
Qed.

End RollupContractMore.

(** ** BridgeContract: ether, limits and deposit proofs *)

Module BridgeContractFacts.

Import BridgeContract.

Section Digests.

Variable keccakId : Z -> Z -> Z -> Z -> Z.
Variable keccakDepositProof : Z -> Z -> Z -> Z -> Z -> Z.
Variable keccakWithdrawalProof : Z -> Z -> Z -> Z -> Z.

Local Abbreviation exec :=
  (BridgeContract.exec keccakId keccakDepositProof keccakWithdrawalProof).
Local Abbreviation step :=
  (BridgeContract.step keccakId keccakDepositProof keccakWithdrawalProof).
Local Abbreviation run :=
  (BridgeContract.run keccakId keccakDepositProof keccakWithdrawalProof).
Local Abbreviation completeWithdrawal :=
  (BridgeContract.completeWithdrawal keccakId keccakWithdrawalProof).
Local Abbreviation generateDepositProof :=
  (BridgeContract.generateDepositProof keccakDepositProof).
Local Abbreviation depositETH := (BridgeContract.depositETH keccakId).
Local Abbreviation depositsInvariant :=
  (BridgeContract.depositsInvariant keccakDepositProof).

Ltac unfold_calls Hex :=
  cbv beta delta [BridgeContract.exec BridgeContract.depositETH
                  BridgeContract.depositToken BridgeContract.completeWithdrawal
                  BridgeContract.verifyWithdrawalProof
                  addSupportedToken removeSupportedToken updateLayer2Bridge
                  updateWithdrawalDelay updateDepositLimits pause unpause
                  emergencyWithdraw transferOwnership renounceOwnership] in Hex;
  cbv iota zeta in Hex.

Ltac call_cases Hex :=
  unfold_calls Hex;
  repeat match type of Hex with
         | (if ?c then _ else _) = Ok _ => destruct c eqn:?; try discriminate Hex
         | match ?x with Some _ => _ | None => _ end = Ok _ =>
             destruct x eqn:?; try discriminate Hex
         | match (if ?c then _ else _) with Some _ => _ | None => _ end = Ok _ =>
             destruct c eqn:?; try discriminate Hex
         end;
  try (injection Hex as <-).

Ltac to_props :=
  repeat match goal with
         | H : negb _ = false |- _ => apply negb_false_iff in H
         | H : negb _ = true |- _ => apply negb_true_iff in H
         end;
  repeat match goal with
         | H : (_ =? _) = true |- _ => apply Z.eqb_eq in H
         | H : (_ =? _) = false |- _ => apply Z.eqb_neq in H
         | H : (_ <=? _) = true |- _ => apply Z.leb_le in H
         | H : (_ <? _) = true |- _ => apply Z.ltb_lt in H
         | H : (_ <? _) = false |- _ => apply Z.ltb_ge in H
         | H : (_ >? _) = true |- _ => apply Z.gtb_lt in H
         | H : (_ >=? _) = true |- _ => apply Z.geb_le in H
         | H : checkedAdd _ _ = Some _ |- _ =>
             unfold checkedAdd in H;
             destruct (_ <=? MAX_UINT256); [injection H as <-|discriminate H]
         end.

Lemma bridge_step_cases (c : Call) (op : Op) (st : State) :
  (exists st', exec c op st = Ok st' /\ step (c, op) st = st') \/
  ((exists msg, exec c op st = Throw msg) /\ step (c, op) st = st).
Proof.
  unfold BridgeContract.step. simpl. destruct (exec c op st) as [st'|msg]; eauto.
Qed.

(** What a successful [generateDepositProof] did. *)
Lemma generateDepositProof_Ok (c : Call) (id pf : Z) (st st' : State) :
  generateDepositProof c id st = Ok (pf, st') ->
  sender c = layer2Bridge st /\
  DepositInfo.user (depositAt st id) <> 0 /\
  DepositInfo.isProcessed (depositAt st id) = false /\
  pf = keccakDepositProof id (DepositInfo.user (depositAt st id))
         (DepositInfo.token (depositAt st id))
         (DepositInfo.amount (depositAt st id))
         (DepositInfo.timestamp (depositAt st id)) /\
  st' = setDeposit id {|
          DepositInfo.user := DepositInfo.user (depositAt st id);
          DepositInfo.token := DepositInfo.token (depositAt st id);
          DepositInfo.amount := DepositInfo.amount (depositAt st id);
          DepositInfo.timestamp := DepositInfo.timestamp (depositAt st id);
          DepositInfo.isProcessed := true;
          DepositInfo.proof := pf |} st.
Proof.
  unfold BridgeContract.generateDepositProof. cbv zeta.
  destruct (negb (sender c =? layer2Bridge st)) eqn:E1; [discriminate|].
  destruct (DepositInfo.user (depositAt st id) =? 0) eqn:E2; [discriminate|].
  destruct (DepositInfo.isProcessed (depositAt st id)) eqn:E3; [discriminate|].
  intros [= <- <-]. to_props. repeat split; auto.
Qed.

(** *** Ether *)

Lemma completeWithdrawal_zero_token (c : Call) (user amount proof held : Z)
    (sent : bool) (st : State) :
  exists msg, completeWithdrawal c user 0 amount proof held sent st = Throw msg.
Proof.
  unfold BridgeContract.completeWithdrawal.
  destruct (negb (sender c =? layer2Bridge st)); simpl; eauto.
Qed.

Lemma exec_ether (c : Call) (op : Op) (st st' : State) :
  exec c op st = Ok st' ->
  getTokenBalance st 0 <= getTokenBalance st' 0 /\
  (isEmergencyWithdraw op = false -> ethBalance st <= ethBalance st').
Proof.
  intros Hex. destruct op.
  3: { simpl in Hex.
       destruct (generateDepositProof c depositId st) as [[pf st1]|msg] eqn:Eg;
         [|discriminate].
       injection Hex as <-.
       apply generateDepositProof_Ok in Eg. destruct Eg as (_ & _ & _ & _ & ->).
       split; [reflexivity|]. intros _. reflexivity. }
  all: call_cases Hex; to_props; unfold getTokenBalance; simpl;
    rewrite ?lookup_insert_eq, ?lookup_insert_ne by lia; simpl;
    try (split; [|intros; try discriminate]; fold (getTokenBalance st 0); lia).
Qed.

(** X23.  Ether cannot be paid out by [completeWithdrawal]: with the zero
    address for the token the call always reverts.  So, whatever is called,
    the balance accounted for ether never goes down, and the ether the
    contract holds goes down only in [emergencyWithdraw]. *)
Theorem ether_leaves_only_by_emergencyWithdraw :
  (forall c user amount proof held sent st,
     exists msg, completeWithdrawal c user 0 amount proof held sent st = Throw msg) /\
  (forall calls st, getTokenBalance st 0 <= getTokenBalance (run calls st) 0) /\
  (forall calls st,
     Forall (fun call => isEmergencyWithdraw (snd call) = false) calls ->
     ethBalance st <= ethBalance (run calls st)).
Proof.
  split; [apply completeWithdrawal_zero_token|]. split.
  - induction calls as [|[c op] calls IH]; intros st; [simpl; lia|].
    change (run ((c, op) :: calls) st) with (run calls (step (c, op) st)).
    destruct (bridge_step_cases c op st) as [(st1 & Hex & ->)|[_ ->]]; [|apply IH].
    destruct (exec_ether c op st st1 Hex) as [H _].
    specialize (IH st1). lia.
  - induction calls as [|[c op] calls IH]; intros st Hall; [simpl; lia|].
    change (run ((c, op) :: calls) st) with (run calls (step (c, op) st)).
    inversion Hall as [|x xs Hc Hrest]; subst. simpl in Hc.
    destruct (bridge_step_cases c op st) as [(st1 & Hex & ->)|[_ ->]]; [|now apply IH].
    destruct (exec_ether c op st st1 Hex) as [_ H].
    specialize (IH st1 Hrest). specialize (H Hc). lia.
Qed.

(** *** Limits and deposits *)

Lemma depositAt_found (st : State) (id : Z) :
  DepositInfo.user (depositAt st id) <> 0 ->
  deposits st !! id = Some (depositAt st id).
Proof.
  unfold depositAt. destruct (deposits st !! id); simpl; [reflexivity|].
  intros H. now contradiction H.
Qed.

Lemma exec_depositsInvariant (c : Call) (op : Op) (st st' : State) :
  exec c op st = Ok st' -> depositsInvariant st -> depositsInvariant st'.
Proof.
  intros Hex (Hmin & Hmax & Hdel & Hdep). destruct op.
  3: { simpl in Hex.
       destruct (generateDepositProof c depositId st) as [[pf st1]|msg] eqn:Eg;
         [|discriminate].
       injection Hex as <-.
       apply generateDepositProof_Ok in Eg.
       destruct Eg as (_ & Hu & _ & -> & ->).
       apply depositAt_found in Hu.
       split; [exact Hmin|]. split; [exact Hmax|]. split; [exact Hdel|].
       intros id d. simpl. rewrite lookup_insert. case_decide; [|apply Hdep].
       intros [= <-]. subst id. simpl.
       split; [apply (Hdep _ _ Hu)|reflexivity]. }
  all: call_cases Hex; to_props;
    try (split; [|split; [|split]]; simpl; try assumption; try lia).
  - intros id d. rewrite lookup_insert. case_decide; [|apply Hdep].
    intros [= <-]. simpl. split; [lia|reflexivity].
  - intros id d. rewrite lookup_insert. case_decide; [|apply Hdep].
    intros [= <-]. simpl. split; [lia|reflexivity].
Qed.

(** X24.  In a contract made by its constructor, after any sequence of
    calls, the deposit limits are within 0.001 and 1000 ether and the
    withdrawal delay is at most 30 days; every stored deposit is of an
    amount between 0.001 and 1000 ether, and its proof is zero until it is
    processed and the digest of its id, user, token, amount and timestamp
    afterwards. *)
Theorem deposits_within_limits (c0 : Call) (bridge0 delay0 min0 max0 : Z)
    (st0 : State) (calls : list (Call * Op)) :
  constructor c0 bridge0 delay0 min0 max0 = Ok st0 ->
  let st := run calls st0 in
  MIN_DEPOSIT <= minimumDeposit st /\
  maximumDeposit st <= MAX_DEPOSIT /\
  withdrawalDelay st <= MAX_WITHDRAWAL_DELAY /\
  forall id d, deposits st !! id = Some d ->
    MIN_DEPOSIT <= DepositInfo.amount d <= MAX_DEPOSIT /\
    DepositInfo.proof d
    = (if DepositInfo.isProcessed d
       then keccakDepositProof id (DepositInfo.user d) (DepositInfo.token d)
              (DepositInfo.amount d) (DepositInfo.timestamp d)
       else 0).
Proof.
  intros Hc st.
  assert (H0 : depositsInvariant st0).
  { unfold constructor in Hc.
    repeat match type of Hc with
           | (if ?c then _ else _) = Ok _ => destruct c eqn:?; try discriminate Hc
           end.
    injection Hc as <-. to_props.
    split; [|split; [|split]]; simpl; try lia.
    intros id d H. now rewrite lookup_empty in H. }
  clear Hc. subst st. revert st0 H0.
  induction calls as [|[c op] calls IH]; intros st0 H0; [exact H0|].
  change (run ((c, op) :: calls) st0) with (run calls (step (c, op) st0)).
  destruct (bridge_step_cases c op st0) as [(st1 & Hex & ->)|[_ ->]]; [|now apply IH].
  apply IH. exact (exec_depositsInvariant c op st0 st1 Hex H0).
Qed.

(** X25.  [generateDepositProof] succeeds exactly for the layer-2 bridge on
    a stored deposit that is not yet processed, paused or not.  It returns
    and stores the digest of the id, user, token, amount and timestamp,
    marks the deposit processed and changes nothing else; a second call for
    the same deposit reverts. *)
Theorem generateDepositProof_spec (c : Call) (id : Z) (st : State) :
  let d := depositAt st id in
  let pf := keccakDepositProof id (DepositInfo.user d) (DepositInfo.token d)
              (DepositInfo.amount d) (DepositInfo.timestamp d) in
  (sender c = layer2Bridge st -> DepositInfo.user d <> 0 ->
   DepositInfo.isProcessed d = false ->
   exists st',
     generateDepositProof c id st = Ok (pf, st') /\
     depositAt st' id
     = {| DepositInfo.user := DepositInfo.user d;
          DepositInfo.token := DepositInfo.token d;
          DepositInfo.amount := DepositInfo.amount d;
          DepositInfo.timestamp := DepositInfo.timestamp d;
          DepositInfo.isProcessed := true;
          DepositInfo.proof := pf |} /\
     (forall j, j <> id -> depositAt st' j = depositAt st j) /\
     (forall j, j <> id -> deposits st' !! j = deposits st !! j) /\
     withdrawals st' = withdrawals st /\
     supportedTokens st' = supportedTokens st /\
     tokenBalances st' = tokenBalances st /\
     layer2Bridge st' = layer2Bridge st /\
     withdrawalDelay st' = withdrawalDelay st /\
     minimumDeposit st' = minimumDeposit st /\
     maximumDeposit st' = maximumDeposit st /\
     depositCounter st' = depositCounter st /\
     withdrawalCounter st' = withdrawalCounter st /\
     owner st' = owner st /\
     paused st' = paused st /\
     ethBalance st' = ethBalance st /\
     forall c', exists msg, generateDepositProof c' id st' = Throw msg) /\
  (sender c <> layer2Bridge st \/ DepositInfo.user d = 0 \/
   DepositInfo.isProcessed d = true ->
   exists msg, generateDepositProof c id st = Throw msg).
Proof.
  intros d pf. split.
  - intros Hs Hu Hp. eexists. split; [|split; [|split; [|split]]].
    + unfold BridgeContract.generateDepositProof. cbv zeta. fold d.
      apply Z.eqb_eq in Hs. apply Z.eqb_neq in Hu. rewrite Hs, Hu, Hp. simpl.
      fold pf. reflexivity.
    + unfold depositAt at 1. simpl. now rewrite lookup_insert_eq.
    + intros j Hj. unfold depositAt. simpl. now rewrite lookup_insert_ne by auto.
    + intros j Hj. simpl. now rewrite lookup_insert_ne by auto.
    + repeat (split; [reflexivity|]).
      intros c'. unfold BridgeContract.generateDepositProof. cbv zeta.
      destruct (negb (sender c' =? _)); [eauto|].
      unfold depositAt at 1 2. simpl. rewrite lookup_insert_eq. simpl.
      destruct (DepositInfo.user d =? 0); eauto.
  - intros Hbad. unfold BridgeContract.generateDepositProof. cbv zeta. fold d.
    destruct (negb (sender c =? layer2Bridge st)) eqn:E1; [eauto|].
    destruct (DepositInfo.user d =? 0) eqn:E2; [eauto|].
    destruct (DepositInfo.isProcessed d) eqn:E3; [eauto|].
    to_props. destruct Hbad as [H|[H|H]]; congruence.
Qed.

End Digests.

End BridgeContractFacts.

(** ** ConsensusManager: votes, tallies and execution *)

Module ConsensusFacts.

Import Consensus.

Lemma proposalIdOf_inj (c c' now now' : Z) :
  proposalIdOf c now = proposalIdOf c' now' -> c = c' /\ now = now'.
Proof.
  unfold proposalIdOf. intros E.
  assert (E' : pretty c +:+ String "_" (pretty now)
               = pretty c' +:+ String "_" (pretty now')).
  { simpl in E. injection E as E. exact E. }
  apply split_at_underscore in E'; try apply pretty_Z_noUnderscore.
  destruct E' as [Ec En].
  split; [exact (pretty_Z_inj _ _ Ec) | exact (pretty_Z_inj _ _ En)].
Qed.

Lemma choice_cases (choice : string) :
  existsb (String.eqb choice) choices = true ->
  choice = "for" \/ choice = "against" \/ choice = "abstain".
Proof.
  unfold choices. simpl. rewrite !orb_true_iff, !String.eqb_eq.
  intuition discriminate.
Qed.

Lemma consensusInvariant_new : consensusInvariant new.
Proof.
  unfold consensusInvariant. simpl. split; [reflexivity|]. split; [lia|].
  split; [reflexivity|]. split; [intros; apply lookup_empty|].
  intros i p H. now rewrite lookup_empty in H.
Qed.

(** The id of a new proposal is not in use. *)
Lemma fresh_proposal_id (st : ConsensusManager) (now : Z) :
  consensusInvariant st -> proposals st !! generateProposalId st now = None.
Proof.
  intros (_ & _ & _ & _ & Hp).
  destruct (proposals st !! generateProposalId st now) as [p|] eqn:E; [|reflexivity].
  destruct (Hp _ _ E) as ((c & n & Hc & Eid) & _).
  apply proposalIdOf_inj in Eid. lia.
Qed.

Lemma consensusInvariant_step (op : Op) (st : ConsensusManager) :
  consensusInvariant st -> consensusInvariant (step op st).
Proof.
  intros Hinv. pose proof Hinv as (Hvp & Hc0 & Hsz & Hnone & Hp).
  destruct op; simpl.
  - (* createProposal *)
    pose proof (fresh_proposal_id st now Hinv) as Hfresh.
    unfold consensusInvariant. simpl.
    split; [exact Hvp|]. split; [lia|].
    split; [rewrite map_size_insert_None by exact Hfresh; lia|].
    split.
    + intros i. rewrite !lookup_insert. case_decide; [discriminate|apply Hnone].
    + intros i p. rewrite !lookup_insert. case_decide.
      * intros [= <-]. subst i. split.
        -- exists (proposalCounter st), now. split; [lia|reflexivity].
        -- exists ∅. split; [reflexivity|].
           unfold proposalOk. simpl. rewrite Hvp.
           split; [reflexivity|]. split; [reflexivity|]. split; [reflexivity|].
           split; [auto|]. split; [split; [discriminate|intros [? ?]; discriminate]|].
           split.
           ++ intros v. rewrite lookup_empty, elem_of_empty.
              split; [intros []|intros [? ?]; discriminate].
           ++ intros v r. rewrite lookup_empty. discriminate.
      * intros Hi. destruct (Hp _ _ Hi) as ((c & n & Hc & Eid) & cast & Hcast & Hok).
        split; [exists c, n; split; [lia|exact Eid]|]. exists cast. auto.
  - (* vote *)
    unfold vote.
    destruct (proposals st !! proposalId) as [p|] eqn:Ep; [|exact Hinv].
    destruct (negb (String.eqb _ _)) eqn:Es; [exact Hinv|].
    destruct (now >? _) eqn:Et; [exact Hinv|].
    destruct (bool_decide _) eqn:Ev; [exact Hinv|].
    destruct (negb (existsb _ _)) eqn:Ec; [exact Hinv|].
    destruct (votes st !! proposalId) as [cast|] eqn:Ecast; [|exact Hinv].
    apply negb_false_iff in Es, Ec. apply String.eqb_eq in Es.
    apply bool_decide_eq_false in Ev.
    destruct (Hp _ _ Ep) as (Hid & cast0 & Hcast0 & Hok).
    rewrite Ecast in Hcast0. injection Hcast0 as <-.
    destruct Hok as (Hi & Hend & Htot & Hst & Hex & Hvoters & Hrec).
    unfold consensusInvariant. simpl.
    split; [exact Hvp|]. split; [exact Hc0|].
    split; [rewrite map_size_insert_Some by eauto; exact Hsz|].
    split.
    + intros i. rewrite !lookup_insert. case_decide; [discriminate|apply Hnone].
    + intros i p'. rewrite !lookup_insert. case_decide; [|apply Hp].
      intros [= <-]. subst i. split; [exact Hid|].
      eexists. split; [reflexivity|].
      unfold proposalOk. simpl.
      split; [exact Hi|]. split; [exact Hend|].
      split; [destruct (choice_cases _ Ec) as [-> | [-> | ->] ]; simpl; lia|].
      split; [exact Hst|]. split; [exact Hex|]. split.
      * intros v. rewrite lookup_insert. case_decide.
        -- subst v. split; [eauto|].
           intros _. apply elem_of_union_l, elem_of_singleton. reflexivity.
        -- rewrite <- Hvoters, elem_of_union, elem_of_singleton.
           intuition congruence.
      * intros v r. rewrite lookup_insert. case_decide; [|apply Hrec].
        intros [= <-]. simpl. split; [auto|].
        destruct (choice_cases _ Ec) as [-> | [-> | ->] ]; simpl; auto.
  - (* checkProposalPassed *)
    unfold checkProposalPassed.
    destruct (proposals st !! proposalId) as [p|] eqn:Ep; [|exact Hinv].
    destruct (negb (String.eqb _ _)) eqn:Es; [exact Hinv|].
    destruct (_ =? 0); [exact Hinv|].
    destruct (reachesQuorum _ _); [|exact Hinv].
    apply negb_false_iff, String.eqb_eq in Es.
    destruct (Hp _ _ Ep) as (Hid & cast & Hcast & Hok).
    destruct Hok as (Hi & Hend & Htot & Hst & Hex & Hvoters & Hrec).
    unfold consensusInvariant. simpl.
    split; [exact Hvp|]. split; [exact Hc0|].
    split; [rewrite map_size_insert_Some by eauto; exact Hsz|].
    split.
    + intros i Hi'. apply Hnone. rewrite lookup_insert in Hi'.
      case_decide; [discriminate|exact Hi'].
    + intros i p'. rewrite lookup_insert. case_decide; [|apply Hp].
      intros [= <-]. subst i. split; [exact Hid|].
      exists cast. split; [exact Hcast|].
      unfold proposalOk. simpl.
      split; [exact Hi|]. split; [exact Hend|]. split; [exact Htot|].
      split; [auto|]. split; [|split; [exact Hvoters|exact Hrec]].
      split; [discriminate|]. intros Hsome. apply Hex in Hsome. congruence.
  - (* executeProposal *)
    unfold executeProposal.
    destruct (proposals st !! proposalId) as [p|] eqn:Ep; [|exact Hinv].
    destruct (negb (String.eqb _ _)) eqn:Es; [exact Hinv|].
    destruct (executeProposalByType p); [|exact Hinv].
    destruct (Hp _ _ Ep) as (Hid & cast & Hcast & Hok).
    destruct Hok as (Hi & Hend & Htot & Hst & Hex & Hvoters & Hrec).
    unfold consensusInvariant. simpl.
    split; [exact Hvp|]. split; [exact Hc0|].
    split; [rewrite map_size_insert_Some by eauto; exact Hsz|].
    split.
    + intros i Hi'. apply Hnone. rewrite lookup_insert in Hi'.
      case_decide; [discriminate|exact Hi'].
    + intros i p'. rewrite lookup_insert. case_decide; [|apply Hp].
      intros [= <-]. subst i. split; [exact Hid|].
      exists cast. split; [exact Hcast|].
      unfold proposalOk. simpl.
      split; [exact Hi|]. split; [exact Hend|]. split; [exact Htot|].
      split; [auto|]. split; [|split; [exact Hvoters|exact Hrec]].
      split; eauto.
Qed.

Lemma consensusInvariant_run (ops : list Op) (st : ConsensusManager) :
  consensusInvariant st -> consensusInvariant (run ops st).
Proof.
  revert st. induction ops as [|op ops IH]; intros st H; [exact H|].
  simpl. apply IH. now apply consensusInvariant_step.
Qed.

Lemma reachable_consensus (st : ConsensusManager) :
  reachable st -> consensusInvariant st.
Proof. intros [ops ->]. apply consensusInvariant_run, consensusInvariant_new. Qed.

(** A proposal stays, its voters stay, and executed is for ever. *)
Lemma step_keeps_proposal (op : Op) (st : ConsensusManager) (i : string)
    (p : Proposal.t) :
  consensusInvariant st -> proposals st !! i = Some p ->
  exists p', proposals (step op st) !! i = Some p' /\
    Proposal.voters p ⊆ Proposal.voters p' /\
    (Proposal.status p = "executed" -> Proposal.status p' = "executed").
Proof.
  intros Hinv Hi. destruct op; simpl.
  - pose proof (fresh_proposal_id st now Hinv) as Hfresh.
    exists p. rewrite lookup_insert_ne by congruence. auto.
  - unfold vote.
    destruct (proposals st !! proposalId) as [q|] eqn:Ep; [|eauto].
    destruct (negb (String.eqb _ _)) eqn:Es; [eauto|].
    destruct (now >? _); [eauto|].
    destruct (bool_decide _); [eauto|].
    destruct (negb (existsb _ _)); [eauto|].
    destruct (votes st !! proposalId); [|eauto].
    simpl. rewrite lookup_insert. case_decide; [|eauto].
    subst i. rewrite Ep in Hi. injection Hi as ->.
    eexists. split; [reflexivity|]. simpl. split; [apply union_subseteq_r|auto].
  - unfold checkProposalPassed.
    destruct (proposals st !! proposalId) as [q|] eqn:Ep; [|eauto].
    destruct (negb (String.eqb _ _)) eqn:Es; [eauto|].
    destruct (_ =? 0); [eauto|].
    destruct (reachesQuorum _ _); [|eauto].
    simpl. rewrite lookup_insert. case_decide; [|eauto].
    subst i. rewrite Ep in Hi. injection Hi as ->.
    apply negb_false_iff, String.eqb_eq in Es.
    eexists. split; [reflexivity|]. simpl. split; [reflexivity|congruence].
  - unfold executeProposal.
    destruct (proposals st !! proposalId) as [q|] eqn:Ep; [|eauto].
    destruct (negb (String.eqb _ _)) eqn:Es; [eauto|].
    destruct (executeProposalByType q); [|eauto].
    simpl. rewrite lookup_insert. case_decide; [|eauto].
    subst i. rewrite Ep in Hi. injection Hi as ->.
    eexists. split; [reflexivity|]. simpl. auto.
Qed.

Lemma run_keeps_proposal (ops : list Op) (st : ConsensusManager) (i : string)
    (p : Proposal.t) :
  consensusInvariant st -> proposals st !! i = Some p ->
  exists p', proposals (run ops st) !! i = Some p' /\
    Proposal.voters p ⊆ Proposal.voters p' /\
    (Proposal.status p = "executed" -> Proposal.status p' = "executed").
Proof.
  revert st p. induction ops as [|op ops IH]; intros st p Hinv Hi; [eauto|].
  simpl. destruct (step_keeps_proposal op st i p Hinv Hi) as (p1 & H1 & Hv1 & Hs1).
  destruct (IH _ p1 (consensusInvariant_step op st Hinv) H1) as (p2 & H2 & Hv2 & Hs2).
  exists p2. split; [exact H2|]. split; [etransitivity; eassumption|auto].
Qed.

(** X26.  A vote is cast at most once per voter and proposal.  A
    successful [vote] is on an active proposal, no later than votingEndsAt,
    by someone who has not voted on it, with one of the three choices; it
    returns and records the vote with the voter, the choice, the weight and
    the instant, adds the voter to those of the proposal, which stays
    active, and after it every [vote] of that voter on that proposal
    throws, whatever is called in between. *)
Theorem one_vote_per_voter (st st' : ConsensusManager) (i voter choice : string)
    (w now : Z) (r : VoteRecord.t) :
  reachable st ->
  vote i voter choice w now st = (Ok r, st') ->
  (exists p p',
     getProposal i st = Some p /\ Proposal.status p = "active" /\
     now <= Proposal.votingEndsAt p /\ (voter ∉ Proposal.voters p) /\
     In choice choices /\
     getProposal i st' = Some p' /\
     Proposal.status p' = "active" /\
     Proposal.voters p' = {[voter]} ∪ Proposal.voters p /\
     voter ∈ Proposal.voters p') /\
  r = {| VoteRecord.voter := voter; VoteRecord.vote := choice;
         VoteRecord.weight := w; VoteRecord.timestamp := now |} /\
  In r (getProposalVotes i st') /\
  forall ops choice' w' now',
    isThrow (fst (vote i voter choice' w' now' (run ops st'))) = true.
Proof.
  intros Hreach Hvote.
  pose proof (reachable_consensus st Hreach) as Hinv.
  assert (Hinv' : consensusInvariant st').
  { change st' with (snd (Ok r, st')). rewrite <- Hvote.
    exact (consensusInvariant_step (OpVote i voter choice w now) st Hinv). }
  unfold vote in Hvote.
  destruct (proposals st !! i) as [p|] eqn:Ep; [|discriminate].
  destruct (negb (String.eqb _ _)) eqn:Es; [discriminate|].
  destruct (now >? _) eqn:Et; [discriminate|].
  destruct (bool_decide _) eqn:Ev; [discriminate|].
  destruct (negb (existsb _ _)) eqn:Ec; [discriminate|].
  destruct (votes st !! i) as [cast|] eqn:Ecast; [|discriminate].
  injection Hvote as <- <-.
  apply negb_false_iff in Es, Ec. apply String.eqb_eq in Es.
  apply bool_decide_eq_false in Ev.
  rewrite Z.gtb_ltb in Et. apply Z.ltb_ge in Et.
  split; [|split; [reflexivity|split] ].
  - exists p, (counted p voter choice w). unfold getProposal. simpl.
    rewrite lookup_insert_eq.
    repeat (split; [first [assumption | reflexivity]|]).
    split.
    + destruct (choice_cases _ Ec) as [-> | [-> | ->] ]; simpl; auto.
    + split; [reflexivity|]. split; [exact Es|]. split; [reflexivity|].
      apply elem_of_union_l, elem_of_singleton. reflexivity.
  - unfold getProposalVotes. simpl. rewrite lookup_insert_eq.
    apply in_map_iff. eexists (voter, _). split; [reflexivity|].
    apply list_elem_of_In, elem_of_map_to_list, lookup_insert_eq.
  - intros ops choice' w' now'.
    destruct (run_keeps_proposal ops _ i (counted p voter choice w) Hinv')
      as (p2 & H2 & Hv2 & _).
    { simpl. apply lookup_insert_eq. }
    unfold vote. rewrite H2.
    destruct (negb (String.eqb _ _)); [reflexivity|].
    destruct (now' >? _); [reflexivity|].
    rewrite bool_decide_eq_true_2; [reflexivity|].
    apply Hv2. simpl. apply elem_of_union_l, elem_of_singleton. reflexivity.
Qed.

(** X27.  In every state of a manager a proposal is stored under its own
    id, its voting ends no earlier than 604800000 ms after its creation,
    its status is active, passed or executed, and the votes recorded for it
    are those of its voters, one each, each for one of the three choices.
    There are as many proposals as the counter says. *)
Theorem proposal_records (st : ConsensusManager) (i : string) (p : Proposal.t) :
  reachable st ->
  getProposal i st = Some p ->
  Z.of_nat (size (proposals st)) = proposalCounter st /\
  Proposal.id p = i /\
  Proposal.createdAt p + 604800000 <= Proposal.votingEndsAt p /\
  (Proposal.status p = "active" \/ Proposal.status p = "passed" \/
   Proposal.status p = "executed") /\
  (forall v, v ∈ Proposal.voters p <->
     exists r, In r (getProposalVotes i st) /\ VoteRecord.voter r = v) /\
  List.length (getProposalVotes i st) = size (Proposal.voters p) /\
  Forall (fun r => In (VoteRecord.vote r) choices) (getProposalVotes i st).
Proof.
  intros Hreach Hp.
  destruct (reachable_consensus st Hreach) as (_ & _ & Hsz & _ & Hall).
  destruct (Hall i p Hp) as (_ & cast & Hcast & Hok).
  destruct Hok as (Hi & Hend & Htot & Hst & _ & Hvoters & Hrec).
  split; [exact Hsz|]. split; [exact Hi|]. split; [lia|].
  split; [exact Hst|].
  unfold getProposalVotes. rewrite Hcast.
  split; [|split].
  - intros v. rewrite Hvoters. split.
    + intros [r Hr]. exists r. split; [|apply (Hrec v r Hr)].
      apply in_map_iff. exists (v, r). split; [reflexivity|].
      now apply list_elem_of_In, elem_of_map_to_list.
    + intros (r & Hin & Hv). apply in_map_iff in Hin.
      destruct Hin as ([v' r'] & Heq & Hin). simpl in Heq. subst r'.
      apply list_elem_of_In, elem_of_map_to_list in Hin.
      destruct (Hrec v' r Hin) as (Hv' & _). rewrite Hv' in Hv. subst v'. eauto.
  - rewrite length_map, length_map_to_list.
    replace (Proposal.voters p) with (dom cast); [now rewrite size_dom|].
    apply set_eq. intros v. rewrite elem_of_dom. symmetry. apply Hvoters.
  - apply Forall_forall. intros r Hin. apply list_elem_of_In, in_map_iff in Hin.
    destruct Hin as ([v' r'] & Heq & Hin). simpl in Heq. subst r'.
    apply list_elem_of_In, elem_of_map_to_list in Hin.
    apply (Hrec v' r Hin).
Qed.

(** X28.  [executeProposal] succeeds only on a proposal whose status is
    passed and whose type is one of the four known ones, and marks it
    executed.  From then on, whatever is called, the proposal stays
    executed: it cannot be executed again, it takes no vote, and
    [checkProposalPassed] answers false for it. *)
Theorem executeProposal_once (st st' : ConsensusManager) (i : string) (now : Z)
    (r : ExecutionResult) :
  reachable st ->
  executeProposal i now st = (Ok r, st') ->
  (exists p,
     getProposal i st = Some p /\ Proposal.status p = "passed" /\
     In (Proposal.type p) proposalTypes /\
     r = {| success := true; executed := Proposal.type p |} /\
     getProposal i st' = Some (withStatus p "executed" (Some now))) /\
  forall ops,
    (exists p', getProposal i (run ops st') = Some p' /\
                Proposal.status p' = "executed") /\
    (forall now', isThrow (fst (executeProposal i now' (run ops st'))) = true) /\
    (forall v c w now', isThrow (fst (vote i v c w now' (run ops st'))) = true) /\
    fst (checkProposalPassed i (run ops st')) = false.
Proof.
  intros Hreach Hex.
  pose proof (reachable_consensus st Hreach) as Hinv.
  assert (Hinv' : consensusInvariant st').
  { change st' with (snd (Ok r, st')). rewrite <- Hex.
    exact (consensusInvariant_step (OpExecuteProposal i now) st Hinv). }
  unfold executeProposal in Hex.
  destruct (proposals st !! i) as [p|] eqn:Ep; [|discriminate].
  destruct (negb (String.eqb _ _)) eqn:Es; [discriminate|].
  unfold executeProposalByType in Hex.
  destruct (existsb _ proposalTypes) eqn:Et; [|discriminate].
  injection Hex as <- <-.
  apply negb_false_iff, String.eqb_eq in Es.
  split.
  - exists p. unfold getProposal. simpl. rewrite lookup_insert_eq.
    split; [exact Ep|]. split; [exact Es|]. split; [|split; reflexivity].
    apply existsb_exists in Et. destruct Et as (t & Hin & Heq).
    apply String.eqb_eq in Heq. now subst t.
  - intros ops.
    destruct (run_keeps_proposal ops _ i (withStatus p "executed" (Some now)) Hinv')
      as (p2 & H2 & _ & Hs2).
    { simpl. apply lookup_insert_eq. }
    specialize (Hs2 eq_refl).
    split; [exists p2; split; [exact H2|exact Hs2]|].
    split; [|split].
    + intros now'. unfold executeProposal. rewrite H2, Hs2. reflexivity.
    + intros v c w now'. unfold vote. rewrite H2, Hs2. reflexivity.
    + unfold checkProposalPassed. rewrite H2, Hs2. reflexivity.
Qed.

(** X29.  Neither the end of the voting period nor a number of voters is
    waited for: on a new proposal, one vote in favour of a positive weight
    followed by [checkProposalPassed] gives true at once and marks the
    proposal passed, after which every further vote on it is refused. *)
Theorem proposal_passes_on_first_vote (st : ConsensusManager)
    (proposer title description type : string) (parameters : gmap string JsValue)
    (now : Z) (voter : string) (w now1 : Z) :
  0 < w -> now1 <= now + votingPeriod st ->
  let i := generateProposalId st now in
  let st1 := snd (createProposal proposer title description type parameters now st) in
  let st2 := snd (vote i voter "for" w now1 st1) in
  let st3 := snd (checkProposalPassed i st2) in
  isThrow (fst (vote i voter "for" w now1 st1)) = false /\
  fst (checkProposalPassed i st2) = true /\
  (exists p, getProposal i st3 = Some p /\ Proposal.status p = "passed" /\
             Proposal.totalVotes p = w /\ Proposal.votesFor p = w) /\
  forall v c w' now',
    fst (vote i v c w' now' st3) = Throw "Proposal is not active".
Proof.
  intros Hw Hnow i st1 st2 st3.
  assert (Hgt : (now1 >? now + votingPeriod st) = false).
  { rewrite Z.gtb_ltb. apply Z.ltb_ge. lia. }
  assert (Hvote : vote i voter "for" w now1 st1
          = (Ok {| VoteRecord.voter := voter; VoteRecord.vote := "for";
                   VoteRecord.weight := w; VoteRecord.timestamp := now1 |},
             snd (vote i voter "for" w now1 st1))).
  { subst st1 i. unfold vote, createProposal. simpl.
    rewrite !lookup_insert_eq. simpl. rewrite Hgt.
    rewrite bool_decide_eq_false_2 by apply not_elem_of_empty. reflexivity. }
  assert (H2 : proposals st2 !! i
               = Some (counted
                  {| Proposal.id := i; Proposal.proposer := proposer;
                     Proposal.title := title; Proposal.description := description;
                     Proposal.type := type; Proposal.parameters := parameters;
                     Proposal.status := "active"; Proposal.createdAt := now;
                     Proposal.votingEndsAt := now + votingPeriod st;
                     Proposal.votesFor := 0; Proposal.votesAgainst := 0;
                     Proposal.votesAbstain := 0; Proposal.totalVotes := 0;
                     Proposal.voters := ∅; Proposal.executedAt := None |}
                  voter "for" w)).
  { subst st2 st1 i. unfold vote, createProposal. simpl.
    rewrite !lookup_insert_eq. simpl. rewrite Hgt.
    rewrite bool_decide_eq_false_2 by apply not_elem_of_empty. simpl.
    now rewrite lookup_insert_eq. }
  assert (Hq : reachesQuorum w w = true).
  { unfold reachesQuorum, quorumBound. change (2 ^ 54) with 18014398509481984.
    destruct (0 <? w) eqn:E; [apply Z.leb_le; lia|].
    apply Z.ltb_ge in E. lia. }
  assert (Hz : (0 + w =? 0) = false) by (apply Z.eqb_neq; lia).
  split; [now rewrite Hvote|].
  assert (Hcheck : checkProposalPassed i st2
                   = (true, snd (checkProposalPassed i st2)) /\
                   exists p, proposals (snd (checkProposalPassed i st2)) !! i = Some p /\
                     Proposal.status p = "passed" /\ Proposal.totalVotes p = w /\
                     Proposal.votesFor p = w).
  { unfold checkProposalPassed. rewrite H2. simpl. rewrite Hz. simpl.
    replace (0 + w) with w by lia. rewrite Hq. simpl.
    split; [reflexivity|]. eexists. rewrite lookup_insert_eq.
    split; [reflexivity|]. simpl. repeat split; lia. }
  destruct Hcheck as [Hcheck (p & H3 & Hs & Ht & Hf)].
  split; [now rewrite Hcheck|]. split; [exists p; auto|].
  intros v c w' now'. unfold vote. fold st3 in H3. rewrite H3, Hs. reflexivity.
Qed.

End ConsensusFacts.

(** ** Sample runs of the further properties *)

Lemma verifyProof_ignores_positions_witness :
  Merkle.verifyProof Sample.sha256 "a"
    [{| Merkle.hash := "b"; Merkle.position := "left" |}] (Some (Merkle.Digest "r"))
  = Merkle.verifyProof Sample.sha256 "a"
      [{| Merkle.hash := "b"; Merkle.position := "right" |}] (Some (Merkle.Digest "r")).
Proof. apply verifyProof_ignores_positions. reflexivity. Defined.

Lemma power_of_two_proofs_verify_witness :
  exists proof h,
    Merkle.getProof (Merkle.new Sample.sha256 ["a"; "b"; "c"; "d"]) 2 = Ok proof /\
    Merkle.getRoot (Merkle.new Sample.sha256 ["a"; "b"; "c"; "d"])
      = Some (Merkle.Level [h]) /\
    Merkle.verifyProof Sample.sha256 (Merkle.hashLeaf Sample.sha256 "c") proof
      (Some (Merkle.Digest h)) = Ok true.
Proof.
  apply (power_of_two_proofs_verify Sample.sha256 2 ["a"; "b"; "c"; "d"] 2);
    [lia | reflexivity | simpl; lia].
Defined.

Lemma tree_height_and_proof_length_witness :
  (2 <= List.length ["a"; "b"; "c"])%nat /\
  Merkle.getProof (Merkle.new Sample.sha256 ["a"; "b"; "c"]) 0
    = Ok [{| Merkle.hash := "u(b)"; Merkle.position := "right" |};
          {| Merkle.hash := "h(u(c)u(c))"; Merkle.position := "right" |}] /\
  (2 ^ (MerkleOps.treeHeight
          (MerkleOps.getStats (Merkle.new Sample.sha256 ["a"; "b"; "c"])) - 2)
   < 3 <= 2 ^ (MerkleOps.treeHeight
                 (MerkleOps.getStats (Merkle.new Sample.sha256 ["a"; "b"; "c"])) - 1))%nat /\
  (2 <= MerkleOps.treeHeight
          (MerkleOps.getStats (Merkle.new Sample.sha256 ["a"; "b"; "c"])) - 1)%nat.
Proof.
  pose proof (tree_height_and_proof_length Sample.sha256 ["a"; "b"; "c"]) as H.
  cbv zeta in H. destruct H as (_ & _ & _ & H2 & Hp).
  assert (Hlen : (2 <= List.length ["a"; "b"; "c"])%nat) by (simpl; lia).
  assert (Hproof : Merkle.getProof (Merkle.new Sample.sha256 ["a"; "b"; "c"]) 0
            = Ok [{| Merkle.hash := "u(b)"; Merkle.position := "right" |};
                  {| Merkle.hash := "h(u(c)u(c))"; Merkle.position := "right" |}])
    by reflexivity.
  split; [exact Hlen|]. split; [exact Hproof|].
  split; [exact (proj2 (H2 Hlen))|].
  exact (Hp 0 _ Hproof).
Defined.

Lemma addLeaf_returns_only_on_empty_witness :
  MerkleOps.addLeaf Sample.sha256 "a" (Merkle.new Sample.sha256 [])
  = (Ok (Some (Merkle.Digest "u(a)")), Merkle.new Sample.sha256 ["a"]) /\
  (exists msg,
     MerkleOps.addLeaf Sample.sha256 "b" (Merkle.new Sample.sha256 ["a"])
     = (Throw msg, Merkle.new Sample.sha256 ["a"; "b"])) /\
  (exists msg,
     MerkleOps.addLeaf Sample.sha256 "c" (Merkle.new Sample.sha256 ["a"; "b"])
     = (Throw msg,
        {| Merkle.leaves := ["u(a)"; "u(b)"; "u(c)"];
           Merkle.tree := Merkle.tree (Merkle.new Sample.sha256 ["a"; "b"]);
           Merkle.root := Merkle.root (Merkle.new Sample.sha256 ["a"; "b"]) |})).
Proof.
  split; [|split].
  - exact (proj1 (addLeaf_returns_only_on_empty Sample.sha256 [] "a") eq_refl).
  - exact (proj1 (proj2 (addLeaf_returns_only_on_empty Sample.sha256 ["a"] "b")) eq_refl).
  - apply (proj2 (proj2 (addLeaf_returns_only_on_empty Sample.sha256 ["a"; "b"] "c"))).
    simpl. lia.
Defined.

Lemma no_batch_is_ever_stored_witness :
  (forall enc data, hexDigits (Sample.sha256hex enc data) = true) /\
  RollupOps.totalBatches (RollupOps.getStats MoreSamples.rollupManager) = 0%nat /\
  RollupOps.getBatch "batch_0_5" MoreSamples.rollupManager = None /\
  Rollup.pendingTransactions MoreSamples.rollupManager = [] /\
  fst (Rollup.addTransaction Sample.sha256hex Sample.JSON_stringify Sample.toUtf8Bytes
         Sample.keccak256 Sample.concat Sample.sampleTx 5 "r" "s"
         (Rollup.run Sample.sha256hex Sample.JSON_stringify Sample.toUtf8Bytes
            Sample.keccak256 Sample.concat (firstn 1 MoreSamples.rollupOps)
            (Rollup.new Sample.sampleConfig)))
  = Throw "invalid BytesLike value".
Proof.
  split; [exact sample_digest_hex|].
  pose proof (no_batch_is_ever_stored Sample.sha256hex Sample.JSON_stringify
                Sample.toUtf8Bytes Sample.keccak256 Sample.concat sample_digest_hex
                Sample.sampleConfig MoreSamples.rollupOps) as H.
  cbv zeta in H. fold MoreSamples.rollupManager in H. destruct H as (Hn & _ & Hb & _).
  split; [exact Hn|]. split; [apply Hb|]. split; reflexivity.
Defined.

Lemma queue_stays_below_batch_size_witness :
  (forall enc data, hexDigits (Sample.sha256hex enc data) = true) /\
  1 <= Rollup.cfg_batchSize Sample.sampleConfig /\
  Z.of_nat (RollupOps.pendingCount (RollupOps.getStats MoreSamples.rollupManager)) < 1 /\
  Rollup.pendingTransactions
    (snd (Rollup.createBatch Sample.sha256hex Sample.JSON_stringify Sample.toUtf8Bytes
            Sample.keccak256 Sample.concat 9 "f" MoreSamples.rollupManager)) = [].
Proof.
  split; [exact sample_digest_hex|].
  assert (H1 : 1 <= Rollup.cfg_batchSize Sample.sampleConfig) by (simpl; lia).
  pose proof (queue_stays_below_batch_size Sample.sha256hex Sample.JSON_stringify
                Sample.toUtf8Bytes Sample.keccak256 Sample.concat sample_digest_hex
                Sample.sampleConfig MoreSamples.rollupOps H1) as H.
  cbv zeta in H. fold MoreSamples.rollupManager in H. destruct H as (Hq & Hc).
  split; [exact H1|]. split; [exact Hq|]. apply Hc.
Defined.

Lemma state_root_provenance_witness :
  (forall enc data, hexDigits (Sample.sha256hex enc data) = true) /\
  Rollup.contract MoreSamples.rollupManager <> None /\
  RollupOps.statsStateRoot (RollupOps.getStats MoreSamples.rollupManager)
  = Some Rollup.ZeroHash.
Proof.
  split; [exact sample_digest_hex|].
  assert (H1 : Rollup.contract MoreSamples.rollupManager <> None)
    by (vm_compute; discriminate).
  split; [exact H1|].
  exact (proj2 (state_root_provenance Sample.sha256hex Sample.JSON_stringify
                  Sample.toUtf8Bytes Sample.keccak256 Sample.concat sample_digest_hex
                  Sample.sampleConfig MoreSamples.rollupOps) H1).
Defined.

Lemma accepted_transaction_is_kept_witness :
  (forall enc data, hexDigits (Sample.sha256hex enc data) = true) /\
  fst (Rollup.addTransaction Sample.sha256hex Sample.JSON_stringify
         Sample.toUtf8Bytes Sample.keccak256 Sample.concat
         Sample.sampleTx 5 "r" "s" (Rollup.setPending [] Sample.manager)) = Ok () /\
  snd (Rollup.addTransaction Sample.sha256hex Sample.JSON_stringify
         Sample.toUtf8Bytes Sample.keccak256 Sample.concat
         Sample.sampleTx 5 "r" "s" (Rollup.setPending [] Sample.manager))
  = Rollup.setPending [Rollup.queued Sample.sampleTx 5 "r"] Sample.manager.
Proof.
  split; [exact sample_digest_hex|].
  assert (Hok : fst (Rollup.addTransaction Sample.sha256hex Sample.JSON_stringify
                       Sample.toUtf8Bytes Sample.keccak256 Sample.concat
                       Sample.sampleTx 5 "r" "s" (Rollup.setPending [] Sample.manager))
                = Ok ()) by reflexivity.
  split; [exact Hok|].
  destruct (accepted_transaction_is_kept Sample.sha256hex Sample.JSON_stringify
              Sample.toUtf8Bytes Sample.keccak256 Sample.concat sample_digest_hex
              Sample.sampleTx 5 "r" "s" (Rollup.setPending [] Sample.manager) Hok)
    as (_ & Hst & _).
  exact Hst.
Defined.

Lemma more_bridge_reachable :
  Bridge.reachable Sample.parseEther Sample.keccak256_json Sample.isAddress MoreSamples.bridge.
Proof. exists MoreSamples.bridgeOps. reflexivity. Qed.

Lemma deposit_spec_witness :
  Sample.parseEther "5" = Some (5 * 10 ^ 18) /\
  Sample.parseEther "0.0001" = Some (10 ^ 14) /\
  Sample.isAddress (Bridge.orZeroAddress None) = true /\
  0 <= 5 * 10 ^ 18 <= Bridge.MAX_UINT256 /\
  Bridge.deposit Sample.parseEther Sample.keccak256_json Sample.isAddress "0xa1" None "0.0001" ∅
    2000 "d" "d1" "d2" MoreSamples.initialized
  = (Throw "Deposit amount too small", MoreSamples.initialized) /\
  exists d,
    BridgeOps.getDeposit "deposit_2000_d"
      (snd (Bridge.deposit Sample.parseEther Sample.keccak256_json Sample.isAddress "0xa1" None "5" ∅
              2000 "d" "d1" "d2" MoreSamples.initialized)) = Some d /\
    Bridge.Deposit.amount d = 5 * 10 ^ 18 /\
    Bridge.Deposit.status d = "completed" /\
    fst (Bridge.deposit Sample.parseEther Sample.keccak256_json Sample.isAddress "0xa1" None "5" ∅
           2000 "d" "d1" "d2" MoreSamples.initialized)
    = Ok {| Bridge.dr_depositId := "deposit_2000_d"; Bridge.dr_status := "pending";
            Bridge.dr_estimatedTime := "2-5 minutes" |}.
Proof.
  assert (H5 : Sample.parseEther "5" = Some (5 * 10 ^ 18)) by reflexivity.
  assert (H1 : Sample.parseEther "0.0001" = Some (10 ^ 14)) by reflexivity.
  split; [exact H5|]. split; [exact H1|].
  split; [vm_compute; reflexivity|]. split; [split; vm_compute; discriminate|].
  split.
  - apply (proj1 (deposit_spec Sample.parseEther Sample.keccak256_json Sample.isAddress "0xa1" None
                    "0.0001" ∅ 2000 "d" "d1" "d2" MoreSamples.initialized _ H1)).
    vm_compute. reflexivity.
  - pose proof (deposit_spec Sample.parseEther Sample.keccak256_json Sample.isAddress "0xa1" None
                  "5" ∅ 2000 "d" "d1" "d2" MoreSamples.initialized _ H5) as H.
    cbv zeta in H. destruct H as (_ & _ & H).
    destruct H as (d & Hd & _ & _ & _ & Ha & _ & _ & _ & Hok & _).
    { split; vm_compute; discriminate. }
    destruct Hok as (Hr & Hs & _);
      [vm_compute; eauto | vm_compute; eauto | vm_compute; reflexivity
      | split; vm_compute; discriminate | reflexivity |].
    exists d. split; [exact Hd|]. split; [exact Ha|]. split; [exact Hs|exact Hr].
Defined.

Lemma bridge_events_bounded_witness :
  (List.length (Bridge.bridgeEvents MoreSamples.bridge) <= 1000)%nat /\
  Z.of_nat (List.length (BridgeOps.getBridgeEvents 1 MoreSamples.bridge))
  = Z.min 1 (Z.of_nat (List.length (Bridge.bridgeEvents MoreSamples.bridge))) /\
  BridgeOps.getBridgeEvents 0 MoreSamples.bridge = Bridge.bridgeEvents MoreSamples.bridge.
Proof.
  pose proof (bridge_events_bounded Sample.parseEther Sample.keccak256_json Sample.isAddress
                MoreSamples.bridge 1 more_bridge_reachable) as H1.
  pose proof (bridge_events_bounded Sample.parseEther Sample.keccak256_json Sample.isAddress
                MoreSamples.bridge 0 more_bridge_reachable) as H0.
  cbv zeta in H1, H0.
  destruct H1 as (Hlen & _ & _ & Hpos & _). destruct H0 as (_ & _ & _ & _ & Hzero).
  split; [exact Hlen|]. split; [apply Hpos; lia|apply Hzero; reflexivity].
Defined.

Lemma withdrawal_records_witness :
  exists w,
    BridgeOps.getWithdrawal "withdrawal_3000_w" MoreSamples.bridge = Some w /\
    Bridge.Withdrawal.timestamp w + 604800000 <= Bridge.Withdrawal.unlockTime w /\
    Bridge.Withdrawal.timestamp w = 3000 /\
    isThrow (fst (Bridge.completeWithdrawal "withdrawal_3000_w" 604802999 "t"
                    MoreSamples.bridge)) = true.
Proof.
  destruct (BridgeOps.getWithdrawal "withdrawal_3000_w" MoreSamples.bridge)
    as [w|] eqn:E; [|vm_compute in E; discriminate].
  assert (Ht : Bridge.Withdrawal.timestamp w = 3000).
  { vm_compute in E. injection E as <-. reflexivity. }
  destruct (withdrawal_records Sample.parseEther Sample.keccak256_json Sample.isAddress
              MoreSamples.bridge "withdrawal_3000_w" w more_bridge_reachable E)
    as (_ & _ & Hu & _ & _ & Hearly).
  exists w. split; [reflexivity|]. split; [exact Hu|]. split; [exact Ht|].
  apply Hearly. rewrite Ht. lia.
Defined.

Lemma deposit_records_witness :
  exists d,
    BridgeOps.getDeposit "deposit_2000_d" MoreSamples.bridge = Some d /\
    10 ^ 15 <= Bridge.Deposit.amount d <= 10 ^ 21 /\
    (Bridge.Deposit.status d = "completed" \/ Bridge.Deposit.status d = "failed").
Proof.
  destruct (BridgeOps.getDeposit "deposit_2000_d" MoreSamples.bridge)
    as [d|] eqn:E; [|vm_compute in E; discriminate].
  destruct (deposit_records Sample.parseEther Sample.keccak256_json Sample.isAddress
              MoreSamples.bridge "deposit_2000_d" d more_bridge_reachable E)
    as (_ & Ha & Hs & _).
  exists d. split; [reflexivity|]. split; [exact Ha|exact Hs].
Defined.

Lemma registry_tables_agree_witness :
  ValidatorOps.isValidator "0xa1"
    (Validators.run MoreSamples.registryOps (Validators.new None)) = true /\
  is_Some (ValidatorOps.getPerformance "0xa1"
             (Validators.run MoreSamples.registryOps (Validators.new None))) /\
  ValidatorOps.getValidator "0xb2"
    (Validators.run MoreSamples.registryOps (Validators.new None)) = None /\
  Validators.getStake "0xb2"
    (Validators.run MoreSamples.registryOps (Validators.new None)) = 0.
Proof.
  pose proof (registry_tables_agree None MoreSamples.registryOps "0xa1") as Ha.
  pose proof (registry_tables_agree None MoreSamples.registryOps "0xb2") as Hb.
  cbv zeta in Ha, Hb.
  destruct Ha as (H1 & _ & H3 & _). destruct Hb as (_ & _ & _ & _ & H5).
  assert (Hv : ValidatorOps.isValidator "0xa1"
                 (Validators.run MoreSamples.registryOps (Validators.new None)) = true)
    by (vm_compute; reflexivity).
  assert (Hn : ValidatorOps.getValidator "0xb2"
                 (Validators.run MoreSamples.registryOps (Validators.new None)) = None)
    by (vm_compute; reflexivity).
  split; [exact Hv|]. split; [apply H3, H1, Hv|]. split; [exact Hn|apply H5, Hn].
Defined.

Lemma register_then_unregister_witness :
  ValidatorOps.getValidator "0xb2"
    (Validators.run MoreSamples.registryOps (Validators.new None)) = None /\
  Validators.validatePublicKey Sample.publicKey = true /\
  Validators.unregisterValidator "0xb2"
    (snd (Validators.registerValidator "0xb2" Sample.publicKey (3 * 10 ^ 18) 2000
            (Validators.run MoreSamples.registryOps (Validators.new None))))
  = (Ok true, Validators.run MoreSamples.registryOps (Validators.new None)).
Proof.
  assert (Hn : ValidatorOps.getValidator "0xb2"
                 (Validators.run MoreSamples.registryOps (Validators.new None)) = None)
    by (vm_compute; reflexivity).
  assert (Hk : Validators.validatePublicKey Sample.publicKey = true)
    by (vm_compute; reflexivity).
  split; [exact Hn|]. split; [exact Hk|].
  destruct (register_then_unregister None MoreSamples.registryOps "0xb2"
              Sample.publicKey (3 * 10 ^ 18) 2000 Hn) as (v & _ & H).
  - vm_compute. discriminate.
  - exact Hk.
  - exact H.
Defined.


Lemma sample_constructor :
  RollupContract.constructor MoreSamples.owner1 2 100 (10 ^ 18) = Ok Sample.deployed.
Proof. reflexivity. Qed.

Lemma only_owner_changes_configuration_witness :
  Forall (fun call => RollupContract.sender (fst call)
                      <> RollupContract.owner Sample.deployed) MoreSamples.byOthers /\
  RollupContract.batchCounter (RollupContract.run MoreSamples.byOthers Sample.deployed) = 1 /\
  RollupContract.sequencerAddr (RollupContract.run MoreSamples.byOthers Sample.deployed)
  = RollupContract.sequencerAddr Sample.deployed /\
  RollupContract.paused (RollupContract.run MoreSamples.byOthers Sample.deployed)
  = RollupContract.paused Sample.deployed.
Proof.
  assert (H : Forall (fun call => RollupContract.sender (fst call)
                                  <> RollupContract.owner Sample.deployed)
                MoreSamples.byOthers).
  { repeat constructor; simpl; lia. }
  pose proof (RollupContractMore.only_owner_changes_configuration
                MoreSamples.byOthers Sample.deployed H) as Hc.
  cbv zeta in Hc. destruct Hc as (H1 & _ & _ & _ & _ & H6).
  split; [exact H|]. split; [reflexivity|]. split; [exact H1|exact H6].
Defined.

Lemma paused_contract_is_frozen_witness :
  RollupContract.paused MoreSamples.pausedContract = true /\
  Forall (fun call => snd call <> RollupContract.OpUnpause) MoreSamples.whilePaused /\
  RollupContract.batches (RollupContract.run MoreSamples.whilePaused MoreSamples.pausedContract)
  = RollupContract.batches MoreSamples.pausedContract /\
  RollupContract.batchCounter
    (RollupContract.run MoreSamples.whilePaused MoreSamples.pausedContract)
  = RollupContract.batchCounter MoreSamples.pausedContract /\
  RollupContract.sequencerAddr
    (RollupContract.run MoreSamples.whilePaused MoreSamples.pausedContract) = 4.
Proof.
  assert (Hp : RollupContract.paused MoreSamples.pausedContract = true) by reflexivity.
  assert (H : Forall (fun call => snd call <> RollupContract.OpUnpause)
                MoreSamples.whilePaused).
  { repeat constructor; simpl; discriminate. }
  pose proof (RollupContractMore.paused_contract_is_frozen
                MoreSamples.whilePaused MoreSamples.pausedContract Hp H) as Hc.
  cbv zeta in Hc. destruct Hc as (H1 & _ & _ & _ & H5 & _).
  split; [exact Hp|]. split; [exact H|]. split; [exact H1|]. split; [exact H5|].
  reflexivity.
Defined.

Lemma submitBatch_spec_witness :
  exists st',
    RollupContract.submitBatch
      {| RollupContract.sender := 2; RollupContract.blockTimestamp := 10 |} 5 6 32
      Sample.deployed = Ok st' /\
    RollupContract.batchCounter st' = 1 /\
    RollupContract.stateRoot
      (RollupContract.batchAt
         (RollupContract.run Sample.challengedThenFinalized st') 0) = 5.
Proof.
  destruct (RollupContract.submitBatch
              {| RollupContract.sender := 2; RollupContract.blockTimestamp := 10 |} 5 6 32
              Sample.deployed) as [st'|msg] eqn:E; [|vm_compute in E; discriminate].
  destruct (RollupContractMore.submitBatch_spec _ _ _ _ _ _ E)
    as (_ & _ & _ & _ & _ & Hc & _ & _ & Hkeep).
  exists st'. split; [reflexivity|]. split; [exact Hc|].
  exact (proj1 (Hkeep Sample.challengedThenFinalized)).
Defined.

Lemma challengeBatch_spec_witness :
  exists st',
    RollupContract.challengeBatch
      {| RollupContract.sender := 3; RollupContract.blockTimestamp := 12 |} 0
      Sample.submitted = Ok st' /\
    RollupContract.isChallenged (RollupContract.batchAt st' 0) = true /\
    exists msg,
      RollupContract.challengeBatch
        {| RollupContract.sender := 3; RollupContract.blockTimestamp := 13 |} 0
        st' = Throw msg.
Proof.
  destruct (RollupContract.challengeBatch
              {| RollupContract.sender := 3; RollupContract.blockTimestamp := 12 |} 0
              Sample.submitted) as [st'|msg] eqn:E; [|vm_compute in E; discriminate].
  destruct (proj1 (RollupContractMore.challengeBatch_spec
                     {| RollupContract.sender := 3; RollupContract.blockTimestamp := 12 |}
                     0 Sample.submitted) st' E)
    as (_ & _ & _ & _ & _ & _ & Hch & _ & _ & Hnever).
  exists st'. split; [reflexivity|]. split; [exact Hch|].
  exact (Hnever [] {| RollupContract.sender := 3; RollupContract.blockTimestamp := 13 |}).
Defined.

Lemma current_root_is_of_a_finalized_batch_witness :
  RollupContract.constructor MoreSamples.owner1 2 100 (10 ^ 18) = Ok Sample.deployed /\
  RollupContract.currentStateRoot
    (RollupContract.run MoreSamples.finalizedUnchallenged Sample.deployed) = 5 /\
  exists i,
    i < RollupContract.batchCounter
          (RollupContract.run MoreSamples.finalizedUnchallenged Sample.deployed) /\
    RollupContract.isFinalized
      (RollupContract.batchAt
         (RollupContract.run MoreSamples.finalizedUnchallenged Sample.deployed) i) = true /\
    RollupContract.stateRoot
      (RollupContract.batchAt
         (RollupContract.run MoreSamples.finalizedUnchallenged Sample.deployed) i) = 5.
Proof.
  split; [exact sample_constructor|].
  assert (H5 : RollupContract.currentStateRoot
                 (RollupContract.run MoreSamples.finalizedUnchallenged Sample.deployed) = 5)
    by reflexivity.
  split; [exact H5|].
  destruct (RollupContractMore.current_root_is_of_a_finalized_batch
              MoreSamples.owner1 2 100 (10 ^ 18) Sample.deployed
              MoreSamples.finalizedUnchallenged sample_constructor)
    as [H0|(i & Hi & Hf & _ & Hs)].
  - rewrite H5 in H0. discriminate.
  - exists i. split; [exact Hi|]. split; [exact Hf|]. now rewrite Hs.
Defined.

Lemma validator_stakes_recorded_witness :
  RollupContract.isValidator
    (RollupContract.run MoreSamples.finalizedUnchallenged Sample.deployed) 3 = true /\
  RollupContract.MIN_STAKE
  <= RollupContract.getValidatorStake
       (RollupContract.run MoreSamples.finalizedUnchallenged Sample.deployed) 3 /\
  RollupContract.getValidatorStake
    (RollupContract.run MoreSamples.finalizedUnchallenged Sample.deployed) 4 = 0.
Proof.
  assert (H3 : RollupContract.isValidator
                 (RollupContract.run MoreSamples.finalizedUnchallenged Sample.deployed) 3
               = true) by reflexivity.
  split; [exact H3|]. split.
  - apply (RollupContractMore.validator_stakes_recorded MoreSamples.owner1 2 100 (10 ^ 18)
             Sample.deployed MoreSamples.finalizedUnchallenged 3 sample_constructor).
    exact H3.
  - apply (RollupContractMore.validator_stakes_recorded MoreSamples.owner1 2 100 (10 ^ 18)
             Sample.deployed MoreSamples.finalizedUnchallenged 4 sample_constructor).
    reflexivity.
Defined.

Lemma emergencyWithdraw_locks_stakes_witness :
  exists st',
    RollupContract.emergencyWithdraw MoreSamples.owner1 true Sample.submitted = Ok st' /\
    RollupContract.balance st' = 0 /\
    RollupContract.getValidatorStake st' 3 = 10 ^ 18 /\
    exists msg,
      RollupContract.unregisterValidator
        {| RollupContract.sender := 3; RollupContract.blockTimestamp := 20 |} true st'
      = Throw msg.
Proof.
  destruct (RollupContract.emergencyWithdraw MoreSamples.owner1 true Sample.submitted)
    as [st'|msg] eqn:E; [|vm_compute in E; discriminate].
  destruct (RollupContractMore.emergencyWithdraw_locks_stakes _ _ _ _ E)
    as (_ & _ & Hb & _ & Hs & Hlock).
  exists st'. split; [reflexivity|]. split; [exact Hb|]. split.
  - unfold RollupContract.getValidatorStake. rewrite Hs. reflexivity.
  - apply Hlock.
Defined.

Lemma sample_bridge_constructor :
  BridgeContract.constructor MoreSamples.bridgeOwner 2 100 (10 ^ 15) (1000 * 10 ^ 18)
  = Ok MoreSamples.bridgeDeployed.
Proof. vm_compute. reflexivity. Qed.

Lemma ether_leaves_only_by_emergencyWithdraw_witness :
  Forall (fun call => BridgeContract.isEmergencyWithdraw (snd call) = false)
    MoreSamples.bridgeCalls /\
  BridgeContract.ethBalance MoreSamples.bridgeContract = 10 ^ 18 /\
  BridgeContract.ethBalance MoreSamples.bridgeDeployed
  <= BridgeContract.ethBalance MoreSamples.bridgeContract /\
  exists msg,
    BridgeContract.completeWithdrawal MoreSamples.keccakId
      MoreSamples.keccakWithdrawalProof MoreSamples.layer2 7 0 (10 ^ 18) 5 0 true
      MoreSamples.bridgeDeployed
    = Throw msg.
Proof.
  assert (Hall : Forall (fun call => BridgeContract.isEmergencyWithdraw (snd call) = false)
                   MoreSamples.bridgeCalls) by (repeat constructor).
  destruct (BridgeContractFacts.ether_leaves_only_by_emergencyWithdraw
              MoreSamples.keccakId MoreSamples.keccakDepositProof
              MoreSamples.keccakWithdrawalProof) as (Hzero & _ & Heth).
  split; [exact Hall|]. split; [vm_compute; reflexivity|].
  split; [apply Heth, Hall|apply Hzero].
Defined.

Lemma deposits_within_limits_witness :
  exists d,
    BridgeContract.deposits MoreSamples.bridgeContract !! 1 = Some d /\
    BridgeContract.MIN_DEPOSIT <= BridgeContract.DepositInfo.amount d
      <= BridgeContract.MAX_DEPOSIT /\
    BridgeContract.DepositInfo.isProcessed d = false /\
    BridgeContract.DepositInfo.proof d = 0.
Proof.
  pose proof (BridgeContractFacts.deposits_within_limits
                MoreSamples.keccakId MoreSamples.keccakDepositProof
                MoreSamples.keccakWithdrawalProof
                MoreSamples.bridgeOwner 2 100 (10 ^ 15) (1000 * 10 ^ 18)
                MoreSamples.bridgeDeployed MoreSamples.bridgeCalls
                sample_bridge_constructor) as H.
  cbv zeta in H. fold MoreSamples.bridgeContract in H. destruct H as (_ & _ & _ & Hdep).
  destruct (BridgeContract.deposits MoreSamples.bridgeContract !! 1) as [d|] eqn:E;
    [|vm_compute in E; discriminate].
  exists d. destruct (Hdep 1 d E) as [Ha Hp].
  assert (Hf : BridgeContract.DepositInfo.isProcessed d = false).
  { vm_compute in E. injection E as <-. reflexivity. }
  split; [reflexivity|]. split; [exact Ha|]. split; [exact Hf|].
  rewrite Hp, Hf. reflexivity.
Defined.

Lemma generateDepositProof_spec_witness :
  exists st',
    BridgeContract.generateDepositProof MoreSamples.keccakDepositProof MoreSamples.layer2 1
      MoreSamples.bridgeContract
    = Ok (10 ^ 18 + 59, st') /\
    BridgeContract.DepositInfo.isProcessed (BridgeContract.depositAt st' 1) = true /\
    (exists msg,
       BridgeContract.generateDepositProof MoreSamples.keccakDepositProof
         MoreSamples.layer2 1 st' = Throw msg) /\
    exists msg,
      BridgeContract.generateDepositProof MoreSamples.keccakDepositProof
        MoreSamples.bridgeOwner 1 MoreSamples.bridgeContract
      = Throw msg.
Proof.
  assert (Hl2 : BridgeContract.layer2Bridge MoreSamples.bridgeContract = 2)
    by (vm_compute; reflexivity).
  assert (Hd : BridgeContract.depositAt MoreSamples.bridgeContract 1
               = {| BridgeContract.DepositInfo.user := 7;
                    BridgeContract.DepositInfo.token := 0;
                    BridgeContract.DepositInfo.amount := 10 ^ 18;
                    BridgeContract.DepositInfo.timestamp := 50;
                    BridgeContract.DepositInfo.isProcessed := false;
                    BridgeContract.DepositInfo.proof := 0 |})
    by (vm_compute; reflexivity).
  pose proof (BridgeContractFacts.generateDepositProof_spec
                MoreSamples.keccakDepositProof MoreSamples.layer2 1
                MoreSamples.bridgeContract) as Hgood.
  pose proof (BridgeContractFacts.generateDepositProof_spec
                MoreSamples.keccakDepositProof MoreSamples.bridgeOwner 1
                MoreSamples.bridgeContract) as Hbad.
  cbv zeta in Hgood, Hbad. destruct Hgood as [Hgood _]. destruct Hbad as [_ Hbad].
  rewrite Hd in Hgood. cbn [BridgeContract.DepositInfo.user BridgeContract.DepositInfo.token
    BridgeContract.DepositInfo.amount BridgeContract.DepositInfo.timestamp
    BridgeContract.DepositInfo.isProcessed] in Hgood.
  destruct Hgood as (st' & Hrun & Hat & _ & _ & _ & _ & _ & _ & _ & _ & _ & _ & _ & _ & _ & _
                        & Hagain).
  - rewrite Hl2. reflexivity.
  - discriminate.
  - reflexivity.
  - exists st'. split.
    + rewrite Hrun. vm_compute. reflexivity.
    + split; [rewrite Hat; reflexivity|]. split; [apply Hagain|].
      apply Hbad. left. rewrite Hl2. discriminate.
Defined.

Lemma sample_proposed_reachable : Consensus.reachable MoreSamples.proposed.
Proof. exists (firstn 1 MoreSamples.consensusOps). reflexivity. Qed.

Lemma sample_voted_reachable : Consensus.reachable MoreSamples.voted.
Proof. exists MoreSamples.consensusOps. reflexivity. Qed.

Lemma sample_passed_reachable : Consensus.reachable MoreSamples.passed.
Proof.
  exists (MoreSamples.consensusOps
          ++ [Consensus.OpCheckProposalPassed "proposal_0_1000"]).
  reflexivity.
Qed.

Lemma one_vote_per_voter_witness :
  exists r st',
    Consensus.vote "proposal_0_1000" "0xb2" "for" 3 2000 MoreSamples.proposed
    = (Ok r, st') /\
    In r (Consensus.getProposalVotes "proposal_0_1000" st') /\
    isThrow (fst (Consensus.vote "proposal_0_1000" "0xb2" "against" 1 3000 st')) = true.
Proof.
  destruct (Consensus.vote "proposal_0_1000" "0xb2" "for" 3 2000 MoreSamples.proposed)
    as [[r|msg] st'] eqn:E; [|vm_compute in E; discriminate].
  destruct (ConsensusFacts.one_vote_per_voter _ _ _ _ _ _ _ _
              sample_proposed_reachable E) as (_ & _ & Hin & Hnever).
  exists r, st'. split; [reflexivity|]. split; [exact Hin|].
  exact (Hnever [] "against" 1 3000).
Defined.

Lemma proposal_records_witness :
  exists p,
    Consensus.getProposal "proposal_0_1000" MoreSamples.voted = Some p /\
    Consensus.Proposal.id p = "proposal_0_1000" /\
    ("0xb2" ∈ Consensus.Proposal.voters p <->
     exists r, In r (Consensus.getProposalVotes "proposal_0_1000" MoreSamples.voted) /\
               Consensus.VoteRecord.voter r = "0xb2") /\
    List.length (Consensus.getProposalVotes "proposal_0_1000" MoreSamples.voted)
      = size (Consensus.Proposal.voters p).
Proof.
  destruct (Consensus.getProposal "proposal_0_1000" MoreSamples.voted)
    as [p|] eqn:E; [|vm_compute in E; discriminate].
  destruct (ConsensusFacts.proposal_records MoreSamples.voted "proposal_0_1000" p
              sample_voted_reachable E) as (_ & Hid & _ & _ & Hvoters & Hlen & _).
  exists p. split; [reflexivity|]. split; [exact Hid|].
  split; [apply Hvoters|exact Hlen].
Defined.

Lemma executeProposal_once_witness :
  exists r st',
    Consensus.executeProposal "proposal_0_1000" 5000 MoreSamples.passed = (Ok r, st') /\
    isThrow (fst (Consensus.executeProposal "proposal_0_1000" 6000 st')) = true /\
    fst (Consensus.checkProposalPassed "proposal_0_1000" st') = false.
Proof.
  destruct (Consensus.executeProposal "proposal_0_1000" 5000 MoreSamples.passed)
    as [[r|msg] st'] eqn:E; [|vm_compute in E; discriminate].
  destruct (ConsensusFacts.executeProposal_once _ _ _ _ _
              sample_passed_reachable E) as (_ & Hafter).
  destruct (Hafter []) as (_ & Hex & _ & Hcheck).
  exists r, st'. split; [reflexivity|]. split; [apply Hex|exact Hcheck].
Defined.

Lemma proposal_passes_on_first_vote_witness :
  0 < 3 /\ 2000 <= 1000 + Consensus.votingPeriod Consensus.new /\
  fst (Consensus.checkProposalPassed "proposal_0_1000" MoreSamples.voted) = true /\
  forall v c w now,
    fst (Consensus.vote "proposal_0_1000" v c w now MoreSamples.passed)
    = Throw "Proposal is not active".
Proof.
  assert (H1 : 0 < 3) by lia.
  assert (H2 : 2000 <= 1000 + Consensus.votingPeriod Consensus.new)
    by (vm_compute; discriminate).
  pose proof (ConsensusFacts.proposal_passes_on_first_vote Consensus.new
                "0xa1" "Batch size" "Raise the batch size" "parameter_change" ∅
                1000 "0xb2" 3 2000 H1 H2) as H.
  cbv zeta in H. destruct H as (_ & Hc & _ & Hno).
  split; [exact H1|]. split; [exact H2|]. split; [exact Hc|exact Hno].
Defined.
